(** * GeoSudoku web game: scoring and level progression

    A shallow embedding of the placement validator
    ([games/views.py], [validate_shape_placement]), of the attempt and
    level-progression methods of [games/models.py] and of their duplicate in
    [games/level_models.py], and of the achievement evaluator
    ([games/views.py], [check_user_achievements]).

    Conventions.
    - Python integers are [Z].
    - JSON field values ([grid_data], [solution_data], [current_state]) are
      the inductive type [json]; a JSON object is the list of its items in
      insertion order, and a JSON number is an integer.
    - A database table is a finite map from primary key to row; a model
      instance held in memory is the pair of its primary key and its fields.
    - Exceptions are the type [exn]; code that can raise lives in [outcome]
      (no state) or in the state-and-exception monad [M] over the database.
      Rows written before an exception stay written: the views run without
      a transaction.
    - A save writes the fields of the instance to its row as they are.  The
      checks of the database columns (the sign of a [PositiveIntegerField],
      the range of an integer column, foreign keys) are not modelled: the
      code raises [IntegrityError] where the model saves a value no column
      holds, so a statement that a row has been saved is made for values
      the columns hold.
    - Divisions and [round] are binary64 computations in the source and
      exact rational computations here; statements about their results are
      bounds, or values at which the two agree. *)

From Stdlib Require Import QArith.
From stdpp Require Import gmap strings list fin_maps pretty.

Set Warnings "-register-all".

Open Scope Z_scope.

(** ** Exceptions and the two monads *)

(** The model classes; [DoesNotExist] and [MultipleObjectsReturned] are
    attributes of a model class, and an [except PuzzleLevel.DoesNotExist]
    clause catches that class's exception only. *)
Inductive model : Type :=
  | PuzzleLevel_model
  | LevelPuzzle_model
  | UserLevelProgress_model
  | ShapeGameAttempt_model
  | User_model.

Global Instance model_eq_dec : EqDecision model.
Proof. solve_decision. Defined.

Inductive exn : Type :=
  | AttributeError
  | TypeError
  | DoesNotExist (c : model)
  | MultipleObjectsReturned (c : model)
  | Http404.

Global Instance exn_eq_dec : EqDecision exn.
Proof. solve_decision. Defined.

Inductive outcome (A : Type) : Type :=
  | Ok (a : A)
  | Raise (e : exn).
Arguments Ok {A} a.
Arguments Raise {A} e.

Global Instance outcome_ret : MRet outcome := λ A a, Ok a.
Global Instance outcome_bind : MBind outcome := λ A B k c,
  match c with
  | Ok a => k a
  | Raise e => Raise e
  end.

(** ** JSON values and the Python operations the code applies to them *)

Inductive json : Type :=
  | JNull
  | JBool (b : bool)
  | JNum (n : Z)
  | JStr (s : string)
  | JArr (l : list json)
  | JObj (o : list (string * json)).

(** [d.get(key)] on a dict given by its items. *)
Fixpoint assoc (key : string) (o : list (string * json)) : option json :=
  match o with
  | [] => None
  | (k, v) :: o' => if decide (k = key) then Some v else assoc key o'
  end.

(** Python's [==] on values decoded from JSON: [None] equals only [None];
    [bool] is a subtype of [int], so [True == 1]; lists compare
    element-wise; dicts compare as maps. *)
Fixpoint py_eq (a b : json) {struct a} : bool :=
  match a, b with
  | JNull, JNull => true
  | JBool x, JBool y => bool_decide (x = y)
  | JBool x, JNum n | JNum n, JBool x =>
      bool_decide (n = if x then 1 else 0)
  | JNum n, JNum k => bool_decide (n = k)
  | JStr s, JStr t => bool_decide (s = t)
  | JArr l1, JArr l2 =>
      (fix go (l1 l2 : list json) : bool :=
         match l1, l2 with
         | [], [] => true
         | x :: l1', y :: l2' => py_eq x y && go l1' l2'
         | _, _ => false
         end) l1 l2
  | JObj o1, JObj o2 =>
      bool_decide (length o1 = length o2) &&
      (fix all (o : list (string * json)) : bool :=
         match o with
         | [] => true
         | (k, v) :: o' =>
             match assoc k o2 with
             | Some w => py_eq v w
             | None => false
             end && all o'
         end) o1
  | _, _ => false
  end.

(** [for x in v]: a list yields its elements, a dict its keys, a string its
    characters; anything else is not iterable. *)
Fixpoint chars (s : string) : list json :=
  match s with
  | EmptyString => []
  | String c s' => JStr (String c EmptyString) :: chars s'
  end.

Definition py_iter (v : json) : outcome (list json) :=
  match v with
  | JArr l => Ok l
  | JObj o => Ok (map (λ kv, JStr kv.1) o)
  | JStr s => Ok (chars s)
  | _ => Raise TypeError
  end.

(** [v.items()] and [v.get(key)] exist on dicts only. *)
Definition py_items (v : json) : outcome (list (string * json)) :=
  match v with
  | JObj o => Ok o
  | _ => Raise AttributeError
  end.

Definition py_get (v : json) (key : string) : outcome json :=
  match v with
  | JObj o => Ok (default JNull (assoc key o))
  | _ => Raise AttributeError
  end.

(** [len(v)]. *)
Definition py_len (v : json) : outcome Z :=
  match v with
  | JObj o => Ok (Z.of_nat (length o))
  | JArr l => Ok (Z.of_nat (length l))
  | JStr s => Ok (Z.of_nat (String.length s))
  | _ => Raise TypeError
  end.

(** ** Accuracy arithmetic

    [correct_count / total_questions * 100] is a binary64 computation in the
    source.  It is idealised here as exact rational arithmetic, and
    [round(x, 2)] as rounding to the nearest hundredth, ties to even.  The
    results of [round2] are fractions in lowest terms, so that equal values
    are equal terms. *)

Definition round_half_even (q : Q) : Z :=
  let n := Qnum q in
  let d := Z.pos (Qden q) in
  let f := n `div` d in
  match (2 * (n `mod` d)) ?= d with
  | Lt => f
  | Gt => f + 1
  | Eq => if Z.even f then f else f + 1
  end.

Definition round2 (x : Q) : Q :=
  Qred (Qmake (round_half_even (x * inject_Z 100)%Q) 100).

(** ** The placement validator ([games/views.py]) *)

(** The fields of [ShapeGame] the validator reads; [grid_data] is
    [game.grid_template.grid_data], the foreign key being non-null. *)
Record ShapeGame : Type := {
  grid_data : json;
  solution_data : json;
  points_per_correct : Z;
  penalty_per_wrong : Z;
  game_is_active : bool
}.

Record detail : Type := {
  correct : bool;
  expected : json;
  placed : json
}.

Record ValidationResult : Type := {
  accuracy : Q;
  final_score : Z;
  correct_count : Z;
  incorrect_count : Z;
  total_questions : Z;
  is_complete : bool;
  is_perfect : bool;
  validation_details : option (list (string * detail));
  error : option exn
}.

(** The inner loop [for cell in row: if cell == '?': total_questions += 1]. *)
Fixpoint count_cells (cells : list json) (total : Z) : Z :=
  match cells with
  | [] => total
  | cell :: cells' =>
      count_cells cells' (if py_eq cell (JStr "?") then total + 1 else total)
  end.

(** The outer loop [for row in grid_data]. *)
Fixpoint count_rows (rows : list json) (total : Z) : outcome Z :=
  match rows with
  | [] => Ok total
  | row :: rows' =>
      cells ← py_iter row;
      count_rows rows' (count_cells cells total)
  end.

Record tally : Type := {
  t_correct : Z;
  t_incorrect : Z;
  t_details : list (string * detail)
}.

(** The loop [for position, placement in placements.items()]. *)
Fixpoint check_placements (solution : json) (items : list (string * json))
    (acc : tally) : outcome tally :=
  match items with
  | [] => Ok acc
  | (position, placement) :: items' =>
      expected_shape_id ← py_get solution position;
      placed_shape_id ← py_get placement "shapeId";
      let is_correct := py_eq expected_shape_id placed_shape_id in
      let d := {| correct := is_correct;
                  expected := expected_shape_id;
                  placed := placed_shape_id |} in
      check_placements solution items'
        {| t_correct :=
             if is_correct then t_correct acc + 1 else t_correct acc;
           t_incorrect :=
             if is_correct then t_incorrect acc else t_incorrect acc + 1;
           t_details := t_details acc ++ [(position, d)] |}
  end.

(** The body of the [try:] block. *)
Definition validate_try (game : ShapeGame) (placements : json)
    : outcome ValidationResult :=
  rows ← py_iter (grid_data game);
  total_questions ← count_rows rows 0;
  items ← py_items placements;
  t ← check_placements (solution_data game) items
         {| t_correct := 0; t_incorrect := 0; t_details := [] |};
  let accuracy :=
    if bool_decide (0 < total_questions)
    then (inject_Z (t_correct t) / inject_Z total_questions
          * inject_Z 100)%Q
    else 0%Q in
  let correct_points := t_correct t * points_per_correct game in
  let penalty_points := t_incorrect t * penalty_per_wrong game in
  let final_score := Z.max 0 (correct_points - penalty_points) in
  let len_placements := Z.of_nat (length items) in
  Ok {| accuracy := round2 accuracy;
        final_score := final_score;
        correct_count := t_correct t;
        incorrect_count := t_incorrect t;
        total_questions := total_questions;
        is_complete := bool_decide (len_placements = total_questions);
        is_perfect :=
          bool_decide (t_incorrect t = 0)
          && bool_decide (len_placements = total_questions);
        validation_details := Some (t_details t);
        error := None |}.

(** The [except Exception as e:] branch. *)
Definition error_result (e : exn) : ValidationResult :=
  {| accuracy := 0%Q;
     final_score := 0;
     correct_count := 0;
     incorrect_count := 0;
     total_questions := 0;
     is_complete := false;
     is_perfect := false;
     validation_details := None;
     error := Some e |}.

(** [validate_shape_placement]: the [try] block with its handler.  The type
    is [outcome] so that a propagated exception could be expressed. *)
Definition validate_shape_placement (game : ShapeGame) (placements : json)
    : outcome ValidationResult :=
  match validate_try game placements with
  | Ok r => Ok r
  | Raise e => Ok (error_result e)
  end.

(** ** The database

    Times are integral microseconds since the epoch. *)

Definition inst (R : Type) : Type := Z * R.

Inductive GameStatus : Type :=
  | IN_PROGRESS
  | COMPLETED
  | ABANDONED.

Global Instance GameStatus_eq_dec : EqDecision GameStatus.
Proof. solve_decision. Defined.

Module PuzzleLevel.
Record t : Type := mk {
  level_number : Z;
  puzzles_required : Z;
  is_active : bool
}.
End PuzzleLevel.

Module LevelPuzzle.
Record t : Type := mk {
  level : Z;
  shape_game : Z;
  is_active : bool
}.
End LevelPuzzle.

Module UserLevelProgress.
Record t : Type := mk {
  user : Z;
  level : Z;
  puzzles_completed : Z;
  is_completed : bool;
  completed_at : option Z;
  total_score : Z
}.
End UserLevelProgress.

Module ShapeGameAttempt.
Record t : Type := mk {
  user : Z;
  shape_game : Z;
  current_state : json;
  start_time : Z;
  end_time : option Z;
  status : GameStatus;
  score : Z;
  accuracy : Q;
  correct_placements : Z;
  incorrect_placements : Z;
  time_taken_seconds : Z
}.
End ShapeGameAttempt.

Module UserPuzzleAttempt.
Record t : Type := mk {
  user : Z;
  level_puzzle : Z;
  shape_game_attempt : Z;
  is_completed : bool;
  score_earned : Z;
  completed_at : option Z
}.
End UserPuzzleAttempt.

Module User.
Record t : Type := mk {
  total_score : Z
}.
End User.

Module Achievement.
Record t : Type := mk {
  points_reward : Z;
  requirement_type : string;
  requirement_value : Z;
  is_active : bool
}.
End Achievement.

Module UserAchievement.
Record t : Type := mk {
  user : Z;
  achievement : Z
}.
End UserAchievement.

Record DB : Type := {
  levels : gmap Z PuzzleLevel.t;
  level_puzzles : gmap Z LevelPuzzle.t;
  progress : gmap Z UserLevelProgress.t;
  shape_games : gmap Z ShapeGame;
  shape_attempts : gmap Z ShapeGameAttempt.t;
  puzzle_attempts : gmap Z UserPuzzleAttempt.t;
  users : gmap Z User.t;
  achievements : gmap Z Achievement.t;
  user_achievements : gmap Z UserAchievement.t
}.

Definition set_progress (t : gmap Z UserLevelProgress.t) (db : DB) : DB :=
  {| levels := levels db; level_puzzles := level_puzzles db;
     progress := t; shape_games := shape_games db;
     shape_attempts := shape_attempts db;
     puzzle_attempts := puzzle_attempts db; users := users db;
     achievements := achievements db;
     user_achievements := user_achievements db |}.

Definition set_shape_attempts (t : gmap Z ShapeGameAttempt.t) (db : DB)
    : DB :=
  {| levels := levels db; level_puzzles := level_puzzles db;
     progress := progress db; shape_games := shape_games db;
     shape_attempts := t;
     puzzle_attempts := puzzle_attempts db; users := users db;
     achievements := achievements db;
     user_achievements := user_achievements db |}.

Definition set_puzzle_attempts (t : gmap Z UserPuzzleAttempt.t) (db : DB)
    : DB :=
  {| levels := levels db; level_puzzles := level_puzzles db;
     progress := progress db; shape_games := shape_games db;
     shape_attempts := shape_attempts db;
     puzzle_attempts := t; users := users db;
     achievements := achievements db;
     user_achievements := user_achievements db |}.

Definition set_users (t : gmap Z User.t) (db : DB) : DB :=
  {| levels := levels db; level_puzzles := level_puzzles db;
     progress := progress db; shape_games := shape_games db;
     shape_attempts := shape_attempts db;
     puzzle_attempts := puzzle_attempts db; users := t;
     achievements := achievements db;
     user_achievements := user_achievements db |}.

Definition set_user_achievements (t : gmap Z UserAchievement.t) (db : DB)
    : DB :=
  {| levels := levels db; level_puzzles := level_puzzles db;
     progress := progress db; shape_games := shape_games db;
     shape_attempts := shape_attempts db;
     puzzle_attempts := puzzle_attempts db; users := users db;
     achievements := achievements db;
     user_achievements := t |}.

(** The state-and-exception monad of a request. *)
Definition M (A : Type) : Type := DB → outcome A * DB.

Global Instance M_ret : MRet M := λ A a db, (Ok a, db).
Global Instance M_bind : MBind M := λ A B k c db,
  match c db with
  | (Ok a, db') => k a db'
  | (Raise e, db') => (Raise e, db')
  end.

Definition raise {A} (e : exn) : M A := λ db, (Raise e, db).
Definition gets {A} (f : DB → A) : M A := λ db, (Ok (f db), db).
Definition modify (f : DB → DB) : M unit := λ db, (Ok tt, f db).
Definition lift {A} (o : outcome A) : M A := λ db, (o, db).

(** [try: c except E: h], where [catches e] tells whether [e] is an [E]. *)
Definition try_except {A} (c : M A) (catches : exn → bool) (h : exn → M A)
    : M A := λ db,
  match c db with
  | (Ok a, db') => (Ok a, db')
  | (Raise e, db') => if catches e then h e db' else (Raise e, db')
  end.

(** *** Query sets *)

Section queries.
Context {R : Type}.

(** [Model.objects.filter(...)] for a decidable condition on rows. *)
Definition objects_filter (P : R → Prop) `{!∀ r, Decision (P r)}
    (t : gmap Z R) : gmap Z R :=
  filter (λ kr, P kr.2) t.

(** [Model.objects.get(...)]. *)
Definition objects_get (c : model) (P : R → Prop) `{!∀ r, Decision (P r)}
    (t : gmap Z R) : outcome (inst R) :=
  match map_to_list (objects_filter P t) with
  | [] => Raise (DoesNotExist c)
  | [i] => Ok i
  | _ => Raise (MultipleObjectsReturned c)
  end.

(** [queryset.exists()] and [queryset.count()]. *)
Definition qs_exists (q : gmap Z R) : bool := bool_decide (q ≠ ∅).
Definition qs_count (q : gmap Z R) : Z := Z.of_nat (size q).

(** The key the database assigns to a new row: one not in use. *)
Definition next_pk (t : gmap Z R) : Z :=
  1 + foldr Z.max 0 (map_to_list t).*1.

(** [Model.objects.create(...)]. *)
Definition objects_create (r : R) (t : gmap Z R) : inst R * gmap Z R :=
  let k := next_pk t in ((k, r), <[k := r]> t).

(** Following a foreign key loads the referenced row. *)
Definition fetch (c : model) (k : Z) (t : gmap Z R) : outcome (inst R) :=
  match t !! k with
  | Some r => Ok (k, r)
  | None => Raise (DoesNotExist c)
  end.

End queries.

(** ** Level progression ([games/models.py] and [games/level_models.py])

    The two modules define [PuzzleLevel], [UserLevelProgress] and
    [UserPuzzleAttempt] with the same method bodies, except for how the
    current time is read. *)

Inductive source_module : Type :=
  | games_models
  | games_level_models.

(** [games/models.py] imports [timezone] from [django.utils] and calls
    [timezone.now()].  [games/level_models.py] writes
    [models.timezone.now()] with [models] bound to [django.db.models], which
    has no attribute [timezone]: evaluating it raises [AttributeError]. *)
Definition timezone_now (src : source_module) (clock : Z) : M Z :=
  match src with
  | games_models => mret clock
  | games_level_models => raise AttributeError
  end.

(** [self.save()] on an instance of each model: the row of the instance's
    primary key takes the instance's fields. *)
Definition save_progress (self : inst UserLevelProgress.t) : M unit :=
  modify (λ db, set_progress (<[self.1 := self.2]> (progress db)) db).

Definition save_puzzle_attempt (self : inst UserPuzzleAttempt.t) : M unit :=
  modify (λ db,
    set_puzzle_attempts (<[self.1 := self.2]> (puzzle_attempts db)) db).

Definition save_shape_attempt (self : inst ShapeGameAttempt.t) : M unit :=
  modify (λ db,
    set_shape_attempts (<[self.1 := self.2]> (shape_attempts db)) db).

Definition save_user (self : inst User.t) : M unit :=
  modify (λ db, set_users (<[self.1 := self.2]> (users db)) db).

(** [PuzzleLevel.is_unlocked_for_user]. *)
Definition is_unlocked_for_user (self : inst PuzzleLevel.t) (user : Z)
    : M bool :=
  if bool_decide (PuzzleLevel.level_number self.2 = 1) then mret true
  else
    let previous_level := PuzzleLevel.level_number self.2 - 1 in
    if bool_decide (previous_level ≤ 0) then mret true
    else
      try_except
        (lv ← gets levels;
         prev_level ← lift (objects_get PuzzleLevel_model
           (λ r, PuzzleLevel.level_number r = previous_level) lv);
         pr ← gets progress;
         mret (qs_exists (objects_filter
           (λ r, UserLevelProgress.user r = user
                 ∧ UserLevelProgress.level r = prev_level.1
                 ∧ UserLevelProgress.is_completed r = true) pr)))
        (λ e, bool_decide (e = DoesNotExist PuzzleLevel_model))
        (λ _, mret true).

(** The row [get_or_create(user=.., level=.., defaults={'puzzles_completed':
    0, 'is_completed': False})] inserts; the other fields take their model
    defaults. *)
Definition default_progress (user level : Z) : UserLevelProgress.t :=
  {| UserLevelProgress.user := user;
     UserLevelProgress.level := level;
     UserLevelProgress.puzzles_completed := 0;
     UserLevelProgress.is_completed := false;
     UserLevelProgress.completed_at := None;
     UserLevelProgress.total_score := 0 |}.

(** [UserLevelProgress.objects.get_or_create(user=.., level=..,
    defaults={'puzzles_completed': 0, 'is_completed': False})]. *)
Definition progress_get_or_create (user level : Z)
    : M (inst UserLevelProgress.t * bool) :=
  pr ← gets progress;
  match objects_get UserLevelProgress_model
          (λ r, UserLevelProgress.user r = user
                ∧ UserLevelProgress.level r = level) pr with
  | Ok i => mret (i, false)
  | Raise (DoesNotExist _) =>
      let new := objects_create (default_progress user level) pr in
      modify (set_progress new.2);;
      mret (new.1, true)
  | Raise e => raise e
  end.

(** [UserLevelProgress.unlock_next_level]. *)
Definition unlock_next_level (self : inst UserLevelProgress.t) : M unit :=
  lv ← gets levels;
  level ← lift (fetch PuzzleLevel_model (UserLevelProgress.level self.2) lv);
  let next_level_number := PuzzleLevel.level_number level.2 + 1 in
  try_except
    (next_level ← lift (objects_get PuzzleLevel_model
       (λ r, PuzzleLevel.level_number r = next_level_number
             ∧ PuzzleLevel.is_active r = true) lv);
     us ← gets users;
     user ← lift (fetch User_model (UserLevelProgress.user self.2) us);
     progress_get_or_create user.1 next_level.1;;
     mret tt)
    (λ e, bool_decide (e = DoesNotExist PuzzleLevel_model))
    (λ _, mret tt).

(** The assignments [self.is_completed = True] and [self.completed_at =
    now]. *)
Definition completed_now (clock : Z) (r : UserLevelProgress.t)
    : UserLevelProgress.t :=
  {| UserLevelProgress.user := UserLevelProgress.user r;
     UserLevelProgress.level := UserLevelProgress.level r;
     UserLevelProgress.puzzles_completed :=
       UserLevelProgress.puzzles_completed r;
     UserLevelProgress.is_completed := true;
     UserLevelProgress.completed_at := Some clock;
     UserLevelProgress.total_score := UserLevelProgress.total_score r |}.

(** [UserLevelProgress.check_completion]; the result is [self] as the
    method leaves it.  The time is read after [is_completed] has been set
    on the instance and before anything is saved. *)
Definition check_completion (src : source_module) (clock : Z)
    (self : inst UserLevelProgress.t) : M (inst UserLevelProgress.t) :=
  lv ← gets levels;
  level ← lift (fetch PuzzleLevel_model (UserLevelProgress.level self.2) lv);
  if bool_decide (PuzzleLevel.puzzles_required level.2
                  ≤ UserLevelProgress.puzzles_completed self.2)
     && negb (UserLevelProgress.is_completed self.2)
  then
    now ← timezone_now src clock;
    let self : inst UserLevelProgress.t :=
      (self.1, completed_now now self.2) in
    save_progress self;;
    unlock_next_level self;;
    mret self
  else mret self.

(** [UserPuzzleAttempt.complete_attempt]; the result is [self] as the
    method leaves it.  The time is read after [is_completed] and
    [score_earned] have been set on the instance and before anything is
    saved. *)
Definition complete_attempt (src : source_module) (clock : Z)
    (self : inst UserPuzzleAttempt.t) (score : Z)
    : M (inst UserPuzzleAttempt.t) :=
  if negb (UserPuzzleAttempt.is_completed self.2) then
    now ← timezone_now src clock;
    let self : inst UserPuzzleAttempt.t :=
      (self.1,
       {| UserPuzzleAttempt.user := UserPuzzleAttempt.user self.2;
          UserPuzzleAttempt.level_puzzle :=
            UserPuzzleAttempt.level_puzzle self.2;
          UserPuzzleAttempt.shape_game_attempt :=
            UserPuzzleAttempt.shape_game_attempt self.2;
          UserPuzzleAttempt.is_completed := true;
          UserPuzzleAttempt.score_earned := score;
          UserPuzzleAttempt.completed_at := Some now |}) in
    save_puzzle_attempt self;;
    us ← gets users;
    user ← lift (fetch User_model (UserPuzzleAttempt.user self.2) us);
    lps ← gets level_puzzles;
    level_puzzle ← lift (fetch LevelPuzzle_model
      (UserPuzzleAttempt.level_puzzle self.2) lps);
    lv ← gets levels;
    level ← lift (fetch PuzzleLevel_model
      (LevelPuzzle.level level_puzzle.2) lv);
    got ← progress_get_or_create user.1 level.1;
    let level_progress : inst UserLevelProgress.t :=
      (got.1.1,
       {| UserLevelProgress.user := UserLevelProgress.user got.1.2;
          UserLevelProgress.level := UserLevelProgress.level got.1.2;
          UserLevelProgress.puzzles_completed :=
            UserLevelProgress.puzzles_completed got.1.2 + 1;
          UserLevelProgress.is_completed :=
            UserLevelProgress.is_completed got.1.2;
          UserLevelProgress.completed_at :=
            UserLevelProgress.completed_at got.1.2;
          UserLevelProgress.total_score :=
            UserLevelProgress.total_score got.1.2 + score |}) in
    save_progress level_progress;;
    check_completion src clock level_progress;;
    save_user
      (user.1, {| User.total_score := User.total_score user.2 + score |});;
    mret self
  else mret self.

(** ** Saving and finalising a shape-game attempt ([games/views.py]) *)

(** The keys of [request.data] the view reads.  A [score] that is present
    is taken to be an integer, as the [IntegerField] it is stored in. *)
Record request_data : Type := {
  rq_current_state : option json;
  rq_score : option Z;
  rq_status : option string
}.

Inductive response : Type :=
  | Success (attempt_id : Z) (score : Z) (accuracy : Q)
  | BadRequest (e : exn).

(** [get_object_or_404(ShapeGame, id=game_id, is_active=True)]. *)
Definition get_game_or_404 (game_id : Z) (t : gmap Z ShapeGame)
    : outcome (inst ShapeGame) :=
  match t !! game_id with
  | Some g => if game_is_active g then Ok (game_id, g) else Raise Http404
  | None => Raise Http404
  end.

(** The row [get_or_create(user=.., shape_game=..,
    status=GameStatus.IN_PROGRESS, defaults={'current_state': {}})] inserts;
    the other fields take their model defaults, [start_time] the current
    time. *)
Definition new_attempt (clock user game : Z) : ShapeGameAttempt.t :=
  {| ShapeGameAttempt.user := user;
     ShapeGameAttempt.shape_game := game;
     ShapeGameAttempt.current_state := JObj [];
     ShapeGameAttempt.start_time := clock;
     ShapeGameAttempt.end_time := None;
     ShapeGameAttempt.status := IN_PROGRESS;
     ShapeGameAttempt.score := 0;
     ShapeGameAttempt.accuracy := 0%Q;
     ShapeGameAttempt.correct_placements := 0;
     ShapeGameAttempt.incorrect_placements := 0;
     ShapeGameAttempt.time_taken_seconds := 0 |}.

(** [ShapeGameAttempt.objects.get_or_create(user=.., shape_game=..,
    status=GameStatus.IN_PROGRESS, defaults={'current_state': {}})]. *)
Definition attempt_get_or_create (clock : Z) (user game : Z)
    : M (inst ShapeGameAttempt.t * bool) :=
  sa ← gets shape_attempts;
  match objects_get ShapeGameAttempt_model
          (λ r, ShapeGameAttempt.user r = user
                ∧ ShapeGameAttempt.shape_game r = game
                ∧ ShapeGameAttempt.status r = IN_PROGRESS) sa with
  | Ok i => mret (i, false)
  | Raise (DoesNotExist _) =>
      let new := objects_create (new_attempt clock user game) sa in
      modify (set_shape_attempts new.2);;
      mret (new.1, true)
  | Raise e => raise e
  end.

(** The assignments to [attempt] before the status test. *)
Definition update_state (a : ShapeGameAttempt.t) (state : json) (score n : Z)
    : ShapeGameAttempt.t :=
  {| ShapeGameAttempt.user := ShapeGameAttempt.user a;
     ShapeGameAttempt.shape_game := ShapeGameAttempt.shape_game a;
     ShapeGameAttempt.current_state := state;
     ShapeGameAttempt.start_time := ShapeGameAttempt.start_time a;
     ShapeGameAttempt.end_time := ShapeGameAttempt.end_time a;
     ShapeGameAttempt.status := ShapeGameAttempt.status a;
     ShapeGameAttempt.score := score;
     ShapeGameAttempt.accuracy := ShapeGameAttempt.accuracy a;
     ShapeGameAttempt.correct_placements := n;
     ShapeGameAttempt.incorrect_placements := 0;
     ShapeGameAttempt.time_taken_seconds :=
       ShapeGameAttempt.time_taken_seconds a |}.

(** The assignments under [if data.get('status') == 'completed']. *)
Definition finalize (a : ShapeGameAttempt.t) (clock : Z)
    (v : ValidationResult) : ShapeGameAttempt.t :=
  {| ShapeGameAttempt.user := ShapeGameAttempt.user a;
     ShapeGameAttempt.shape_game := ShapeGameAttempt.shape_game a;
     ShapeGameAttempt.current_state := ShapeGameAttempt.current_state a;
     ShapeGameAttempt.start_time := ShapeGameAttempt.start_time a;
     ShapeGameAttempt.end_time := Some clock;
     ShapeGameAttempt.status := COMPLETED;
     ShapeGameAttempt.score := final_score v;
     ShapeGameAttempt.accuracy := accuracy v;
     ShapeGameAttempt.correct_placements := correct_count v;
     ShapeGameAttempt.incorrect_placements := incorrect_count v;
     ShapeGameAttempt.time_taken_seconds :=
       (clock - ShapeGameAttempt.start_time a) `quot` 1000000 |}.

(** [api_save_shape_game_state], for the authenticated user [user]. *)
Definition api_save_shape_game_state (clock : Z) (user game_id : Z)
    (data : request_data) : M response :=
  try_except
    (games ← gets shape_games;
     game ← lift (get_game_or_404 game_id games);
     got ← attempt_get_or_create clock user game.1;
     let placements := default (JObj []) (rq_current_state data) in
     n ← lift (py_len placements);
     let attempt : inst ShapeGameAttempt.t :=
       (got.1.1,
        update_state got.1.2 placements (default 0 (rq_score data)) n) in
     attempt ←
       (if bool_decide (rq_status data = Some "completed") then
          validation_result ←
            lift (validate_shape_placement game.2 placements);
          mret ((attempt.1, finalize attempt.2 clock validation_result)
                : inst ShapeGameAttempt.t)
        else mret attempt);
     save_shape_attempt attempt;;
     mret (Success attempt.1
             (ShapeGameAttempt.score attempt.2)
             (ShapeGameAttempt.accuracy attempt.2)))
    (λ _, true)
    (λ e, mret (BadRequest e)).

(** ** The achievement evaluator ([games/views.py]) *)

(** [UserAchievement.objects.filter(user=user,
    achievement=achievement).exists()]. *)
Definition earned (user achievement : Z) (ua : gmap Z UserAchievement.t)
    : bool :=
  qs_exists (objects_filter
    (λ r, UserAchievement.user r = user
          ∧ UserAchievement.achievement r = achievement) ua).

(** [Achievement.objects.filter(requirement_type=kind,
    requirement_value__lte=metric, is_active=True)], in the order the
    database returns the rows. *)
Definition qualifying (kind : string) (metric : Z)
    (ach : gmap Z Achievement.t) : list (inst Achievement.t) :=
  map_to_list (objects_filter
    (λ a, Achievement.requirement_type a = kind
          ∧ Achievement.requirement_value a ≤ metric
          ∧ Achievement.is_active a = true) ach).

(** One of the three loops that append to [achievements_to_award]. *)
Definition not_yet_earned (user : Z) (ua : gmap Z UserAchievement.t)
    (l : list (inst Achievement.t)) : list (inst Achievement.t) :=
  filter (λ a, earned user a.1 ua = false) l.

(** The loop [for achievement in achievements_to_award]. *)
Fixpoint award (user : inst User.t) (l : list (inst Achievement.t))
    : M (inst User.t) :=
  match l with
  | [] => mret user
  | achievement :: l' =>
      modify (λ db, set_user_achievements
        (objects_create
           {| UserAchievement.user := user.1;
              UserAchievement.achievement := achievement.1 |}
           (user_achievements db)).2 db);;
      award (user.1,
             {| User.total_score :=
                  User.total_score user.2
                  + Achievement.points_reward achievement.2 |}) l'
  end.

(** The statistics read at the top of [check_user_achievements]. *)
Definition completed_levels (user : Z) (db : DB) : Z :=
  qs_count (objects_filter
    (λ r, UserLevelProgress.user r = user
          ∧ UserLevelProgress.is_completed r = true) (progress db)).

Definition total_puzzles (user : Z) (db : DB) : Z :=
  qs_count (objects_filter
    (λ r, ShapeGameAttempt.user r = user
          ∧ ShapeGameAttempt.status r = COMPLETED) (shape_attempts db)).

(** The list [achievements_to_award] as the three loops build it.  Nothing
    is written before the award loop, so every query reads the database the
    function was entered with. *)
Definition achievements_to_award (user : inst User.t) (db : DB)
    : list (inst Achievement.t) :=
  let total_score := User.total_score user.2 in
  let ach := achievements db in
  let ua := user_achievements db in
  not_yet_earned user.1 ua
    (qualifying "levels_completed" (completed_levels user.1 db) ach)
  ++ not_yet_earned user.1 ua
       (qualifying "puzzles_solved" (total_puzzles user.1 db) ach)
  ++ not_yet_earned user.1 ua
       (qualifying "score_reached" total_score ach).

(** [check_user_achievements(user)]: the awarded achievements and the
    instance [user] as the function leaves it. *)
Definition check_user_achievements (user : inst User.t)
    : M (list (inst Achievement.t) * inst User.t) :=
  to_award ← gets (achievements_to_award user);
  user ← award user to_award;
  (if bool_decide (to_award ≠ []) then save_user user else mret tt);;
  mret (to_award, user).

(** ** Sequences of core operations

    Each operation is applied to an instance loaded from the database, as
    the views do; an operation named on a missing row does nothing. *)

Inductive core_op : Type :=
  | op_complete_attempt (src : source_module) (clock : Z)
      (attempt_pk : Z) (score : Z)
  | op_check_completion (src : source_module) (clock : Z) (progress_pk : Z)
  | op_unlock_next_level (progress_pk : Z).

Definition run_op (db : DB) (o : core_op) : DB :=
  match o with
  | op_complete_attempt src clock k score =>
      match puzzle_attempts db !! k with
      | Some r => (complete_attempt src clock (k, r) score db).2
      | None => db
      end
  | op_check_completion src clock k =>
      match progress db !! k with
      | Some r => (check_completion src clock (k, r) db).2
      | None => db
      end
  | op_unlock_next_level k =>
      match progress db !! k with
      | Some r => (unlock_next_level (k, r) db).2
      | None => db
      end
  end.

Definition run_ops (db : DB) (ops : list core_op) : DB :=
  foldl run_op db ops.

(** ** Definitions used in the statements *)

(** The test of the loop body on one item: the placed shape equals the
    expected one. *)
Definition item_correct (solution : json) (item : string * json) : bool :=
  match py_get solution item.1, py_get item.2 "shapeId" with
  | Ok e, Ok p => py_eq e p
  | _, _ => false
  end.

(** The inputs on which no step of the validation raises: the grid and each
    of its rows can be iterated, the placements are an object whose values
    are objects, and the solution is an object unless there is no placement
    to look up. *)
Definition iterable (v : json) : bool :=
  match v with
  | JArr _ | JObj _ | JStr _ => true
  | _ => false
  end.

Definition is_object (v : json) : bool :=
  match v with
  | JObj _ => true
  | _ => false
  end.

Definition well_formed (game : ShapeGame) (placements : json) : bool :=
  match py_iter (grid_data game), placements with
  | Ok rows, JObj items =>
      forallb iterable rows
      && forallb (λ i, is_object i.2) items
      && (is_object (solution_data game) || bool_decide (items = []))
  | _, _ => false
  end.

(** The declared constraints [unique=True] on [PuzzleLevel.level_number]
    and [unique_together = ['user', 'level']] on [UserLevelProgress]. *)
Definition unique_level_number (db : DB) : Prop :=
  map_Forall (λ k1 r1, map_Forall (λ k2 r2,
    PuzzleLevel.level_number r1 = PuzzleLevel.level_number r2 → k1 = k2)
    (levels db)) (levels db).

Definition unique_user_level (db : DB) : Prop :=
  map_Forall (λ k1 r1, map_Forall (λ k2 r2,
    UserLevelProgress.user r1 = UserLevelProgress.user r2 →
    UserLevelProgress.level r1 = UserLevelProgress.level r2 → k1 = k2)
    (progress db)) (progress db).

Global Instance unique_level_number_dec db : Decision (unique_level_number db).
Proof. unfold unique_level_number. apply _. Defined.

Global Instance unique_user_level_dec db : Decision (unique_user_level db).
Proof. unfold unique_user_level. apply _. Defined.

(** Every progress row of [db] is still in [db'], for the same level, with
    a count that has not dropped and a completion flag that has not been
    cleared; a flag newly set comes with a count that meets the level's
    requirement.  The level table is the same. *)
Definition progress_grows (db db' : DB) : Prop :=
  levels db' = levels db ∧
  ∀ k r, progress db !! k = Some r →
    ∃ r', progress db' !! k = Some r'
      ∧ UserLevelProgress.level r' = UserLevelProgress.level r
      ∧ UserLevelProgress.puzzles_completed r
        ≤ UserLevelProgress.puzzles_completed r'
      ∧ (UserLevelProgress.is_completed r = true →
         UserLevelProgress.is_completed r' = true)
      ∧ (UserLevelProgress.is_completed r = false →
         UserLevelProgress.is_completed r' = true →
         ∃ lvl, levels db !! UserLevelProgress.level r = Some lvl
           ∧ PuzzleLevel.puzzles_required lvl
             ≤ UserLevelProgress.puzzles_completed r').

(** The declared constraint [unique_together = ['user', 'achievement']]. *)
Definition unique_user_achievement (db : DB) : Prop :=
  map_Forall (λ k1 r1, map_Forall (λ k2 r2,
    UserAchievement.user r1 = UserAchievement.user r2 →
    UserAchievement.achievement r1 = UserAchievement.achievement r2 →
    k1 = k2) (user_achievements db)) (user_achievements db).

Global Instance unique_user_achievement_dec db :
  Decision (unique_user_achievement db).
Proof. unfold unique_user_achievement. apply _. Defined.

(** The metric an achievement's [requirement_type] refers to reaches its
    [requirement_value]; the statistics are those of [db], the score that
    of the instance [user]. *)
Definition meets_requirement (user : inst User.t) (db : DB)
    (a : Achievement.t) : Prop :=
  (Achievement.requirement_type a = "levels_completed"
   ∧ Achievement.requirement_value a ≤ completed_levels user.1 db)
  ∨ (Achievement.requirement_type a = "puzzles_solved"
     ∧ Achievement.requirement_value a ≤ total_puzzles user.1 db)
  ∨ (Achievement.requirement_type a = "score_reached"
     ∧ Achievement.requirement_value a ≤ User.total_score user.2).

(** Evaluation passes run one after the other, for any users. *)
Definition evaluate_all (db : DB) (users : list (inst User.t)) : DB :=
  foldl (λ db user, (check_user_achievements user db).2) db users.

Definition points (l : list (inst Achievement.t)) : Z :=
  foldr (λ a s, Achievement.points_reward a.2 + s) 0 l.

(** ** Example data

    The puzzle of Scenarios A and B of the specification: a 3×3 grid whose
    only blank is at (1,1), to be filled with shape 3. *)

Definition puzzle (points : Z) : ShapeGame :=
  {| grid_data :=
       JArr [JArr [JNum 1; JNum 2; JNum 3];
             JArr [JNum 2; JStr "?"; JNum 1];
             JArr [JNum 3; JNum 1; JNum 2]];
     solution_data := JObj [("1,1", JNum 3)];
     points_per_correct := points;
     penalty_per_wrong := 5;
     game_is_active := true |}.

Definition scenario_game : ShapeGame := puzzle 10.

(** The placement [{position: {"shapeId": shape}}]. *)
Definition place (position : string) (shape : Z) : string * json :=
  (position, JObj [("shapeId", JNum shape)]).

(** A completed, perfect attempt of user 7 at a puzzle. *)
Definition solved_attempt (game score : Z) : ShapeGameAttempt.t :=
  {| ShapeGameAttempt.user := 7;
     ShapeGameAttempt.shape_game := game;
     ShapeGameAttempt.current_state := JObj [place "1,1" 3];
     ShapeGameAttempt.start_time := 0;
     ShapeGameAttempt.end_time := Some 10000000;
     ShapeGameAttempt.status := COMPLETED;
     ShapeGameAttempt.score := score;
     ShapeGameAttempt.accuracy := 100%Q;
     ShapeGameAttempt.correct_placements := 1;
     ShapeGameAttempt.incorrect_placements := 0;
     ShapeGameAttempt.time_taken_seconds := 10 |}.

(** Scenario C of the specification, midway: two levels of two puzzles
    each; user 7 has solved both puzzles of level 1, for 50 and 30 points,
    and has claimed the first of them. *)
Definition scenario_db : DB :=
  {| levels := {[ 1 := PuzzleLevel.mk 1 2 true;
                  2 := PuzzleLevel.mk 2 2 true ]};
     level_puzzles := {[ 1 := LevelPuzzle.mk 1 1 true;
                         2 := LevelPuzzle.mk 1 2 true ]};
     progress := {[ 1 := UserLevelProgress.mk 7 1 1 false None 50 ]};
     shape_games := {[ 1 := puzzle 50; 2 := puzzle 30 ]};
     shape_attempts := {[ 1 := solved_attempt 1 50;
                          2 := solved_attempt 2 30 ]};
     puzzle_attempts :=
       {[ 1 := UserPuzzleAttempt.mk 7 1 1 true 50 (Some 20000000);
          2 := UserPuzzleAttempt.mk 7 2 2 false 0 None ]};
     users := {[ 7 := User.mk 50 ]};
     achievements :=
       {[ 1 := Achievement.mk 50 "levels_completed" 1 true;
          2 := Achievement.mk 20 "score_reached" 60 true;
          3 := Achievement.mk 30 "puzzles_solved" 5 true ]};
     user_achievements := ∅ |}.

(** Levels 1 and 2 where level 2 has been switched off, and the progress
    row of user 7 for level 1 counts both puzzles. *)
Definition next_inactive_db : DB :=
  {| levels := {[ 1 := PuzzleLevel.mk 1 2 true;
                  2 := PuzzleLevel.mk 2 2 false ]};
     level_puzzles := level_puzzles scenario_db;
     progress := {[ 1 := UserLevelProgress.mk 7 1 2 false None 80 ]};
     shape_games := shape_games scenario_db;
     shape_attempts := shape_attempts scenario_db;
     puzzle_attempts := puzzle_attempts scenario_db;
     users := {[ 7 := User.mk 80 ]};
     achievements := ∅;
     user_achievements := ∅ |}.

(** Levels numbered 1 and 3, none numbered 2, and no progress at all. *)
Definition gap_db : DB :=
  {| levels := {[ 1 := PuzzleLevel.mk 1 2 true;
                  3 := PuzzleLevel.mk 3 2 true ]};
     level_puzzles := ∅;
     progress := ∅;
     shape_games := ∅;
     shape_attempts := ∅;
     puzzle_attempts := ∅;
     users := {[ 7 := User.mk 0 ]};
     achievements := ∅;
     user_achievements := ∅ |}.

Definition finalize_request (placements : list (string * json))
    : request_data :=
  {| rq_current_state := Some (JObj placements);
     rq_score := None;
     rq_status := Some "completed" |}.

(** The progress row of user 7 for level 1 once both puzzles are counted
    and before [check_completion] has run. *)
Definition ready_row : UserLevelProgress.t :=
  UserLevelProgress.mk 7 1 2 false None 80.

Definition ready_db : DB := set_progress {[ 1 := ready_row ]} scenario_db.

(** Scenario C after user 7 has claimed the second puzzle. *)
Definition claimed_db : DB :=
  run_ops scenario_db [op_complete_attempt games_models 100 2 30].

Definition two_placements : json := JObj [place "1,1" 3; place "9,9" 1].

(** ** Further Python operations *)

(** The truth value of a decoded JSON value in a test. *)
Definition py_truthy (v : json) : bool :=
  match v with
  | JNull => false
  | JBool b => b
  | JNum n => bool_decide (n ≠ 0)
  | JStr s => bool_decide (s ≠ "")
  | JArr l => bool_decide (l ≠ [])
  | JObj o => bool_decide (o ≠ [])
  end.

(** [x in l] for a list [l]. *)
Definition py_in (x : json) (l : list json) : bool :=
  existsb (py_eq x) l.

(** ** Further methods of the models ([games/models.py])

    A method that follows a foreign key takes the referenced row as an
    argument. *)

(** [min(a, b)]: [b] when [b < a], otherwise [a]. *)
Definition py_min (a b : Q) : Q := if Qle_bool a b then a else b.

(** [UserLevelProgress.completion_percentage]; [level] is [self.level].
    The quotient is exact here and a binary64 value in the source; for
    the counts a [PositiveIntegerField] is specified to hold (0 to
    2147483647) the two are on the same side of 100. *)
Definition completion_percentage (self : UserLevelProgress.t)
    (level : PuzzleLevel.t) : Q :=
  if bool_decide (PuzzleLevel.puzzles_required level = 0) then 100%Q
  else
    py_min 100
      (inject_Z (UserLevelProgress.puzzles_completed self)
       / inject_Z (PuzzleLevel.puzzles_required level) * inject_Z 100)%Q.

(** [GridTemplate.question_cell_count], on the template's [grid_data]. *)
Definition question_cell_count (grid_data : json) : outcome Z :=
  rows ← py_iter grid_data;
  count_rows rows 0.

(** [ShapeGame.calculate_max_score]; the foreign key [grid_template] is
    not nullable, so the test [if self.grid_template] succeeds. *)
Definition calculate_max_score (self : ShapeGame) : outcome Z :=
  count ← question_cell_count (grid_data self);
  mret (count * points_per_correct self).

(** [ShapeGameAttempt.calculate_accuracy]. *)
Definition calculate_accuracy (self : ShapeGameAttempt.t) : Q :=
  let total_placements :=
    ShapeGameAttempt.correct_placements self
    + ShapeGameAttempt.incorrect_placements self in
  if bool_decide (total_placements = 0) then 0%Q
  else
    round2 (inject_Z (ShapeGameAttempt.correct_placements self)
            / inject_Z total_placements * inject_Z 100)%Q.

(** [ShapeGameAttempt.calculate_score]; [shape_game] is
    [self.shape_game]. *)
Definition calculate_score (self : ShapeGameAttempt.t)
    (shape_game : ShapeGame) : Z :=
  let correct_points :=
    ShapeGameAttempt.correct_placements self
    * points_per_correct shape_game in
  let penalty_points :=
    ShapeGameAttempt.incorrect_placements self
    * penalty_per_wrong shape_game in
  Z.max 0 (correct_points - penalty_points).

(** *** Sudoku sessions

    A [timedelta] is its total number of microseconds; its attribute
    [seconds] is the seconds part of the normalised representation (days,
    seconds in [0, 86400), microseconds in [0, 10^6)), and it is false in a
    test exactly when it is zero. *)

Definition timedelta_seconds (d : Z) : Z := (d `div` 1000000) `mod` 86400.

Module GameSession.
Record t : Type := mk {
  user : Z;
  puzzle : Z;
  current_state : json;
  status : GameStatus;
  start_time : Z;
  end_time : option Z;
  score : Z;
  hints_used : Z;
  mistakes_made : Z
}.

(** [GameSession.duration]. *)
Definition duration (self : t) : option Z :=
  match end_time self with
  | Some e => Some (e - start_time self)
  | None => None
  end.

(** The dictionary [base_scores] with [.get(difficulty, 100)]. *)
Definition base_scores (difficulty : string) : Z :=
  if bool_decide (difficulty = "easy") then 100
  else if bool_decide (difficulty = "medium") then 200
  else if bool_decide (difficulty = "hard") then 300
  else if bool_decide (difficulty = "expert") then 500
  else 100.

(** [GameSession.calculate_score]; [difficulty] is
    [self.puzzle.difficulty]. *)
Definition calculate_score (self : t) (difficulty : string) : Z :=
  if bool_decide (status self ≠ COMPLETED) then 0
  else
    let base_score := base_scores difficulty in
    let penalty := hints_used self * 10 + mistakes_made self * 5 in
    let time_bonus :=
      match duration self with
      | Some d =>
          if bool_decide (d ≠ 0)
          then Z.max 0 (100 - timedelta_seconds d `div` 60)
          else 0
      | None => 0
      end in
    Z.max 0 (base_score + time_bonus - penalty).

(** The session with another [end_time]. *)
Definition with_end_time (self : t) (e : Z) : t :=
  {| user := user self; puzzle := puzzle self;
     current_state := current_state self;
     status := status self; start_time := start_time self;
     end_time := Some e; score := score self;
     hints_used := hints_used self;
     mistakes_made := mistakes_made self |}.
End GameSession.

(** *** Saving a Sudoku session ([games/views.py])

    The tables the view reads and writes: the sessions, the difficulty of
    each puzzle, and the statistics of each user. *)

Module Player.
Record t : Type := mk {
  total_score : Z;
  games_played : Z;
  games_won : Z
}.
End Player.

(** [User.win_rate] of [authentication/models.py]. *)
Definition win_rate (self : Player.t) : Q :=
  if bool_decide (Player.games_played self = 0) then 0%Q
  else
    round2 (inject_Z (Player.games_won self)
            / inject_Z (Player.games_played self) * inject_Z 100)%Q.

Record SudokuDB : Type := {
  sessions : gmap Z GameSession.t;
  puzzle_difficulty : gmap Z string;
  players : gmap Z Player.t
}.

(** What the [try] block of [api_save_game_state] can raise.
    [Achievement.objects.get_or_create(user=..., achievement_type=...)]
    names two fields the model [Achievement] does not have, so the query
    raises [FieldError] whenever it is evaluated. *)
Inductive sudoku_exn : Type :=
  | SessionNotFound
  | RelatedDoesNotExist
  | FieldError.

Inductive save_response : Type :=
  | GameStateSaved (score : Z) (status : GameStatus)
  | ServerError (e : sudoku_exn).

(** [check_achievements(user, game_session)]: the exception it raises, if
    any. *)
Definition check_achievements (user : Player.t)
    (game_session : GameSession.t) : option sudoku_exn :=
  if bool_decide (Player.games_won user = 1) then Some FieldError
  else if match GameSession.duration game_session with
          | Some d => bool_decide (d ≠ 0)
                      && bool_decide (timedelta_seconds d < 600)
          | None => false
          end
  then Some FieldError
  else if bool_decide (GameSession.mistakes_made game_session = 0)
          && bool_decide (GameSession.hints_used game_session = 0)
  then Some FieldError
  else None.

(** The assignments to [game_session] under [if is_completed], with the
    score computed after the first two. *)
Definition completed_session (self : GameSession.t) (clock : Z)
    (difficulty : string) : GameSession.t :=
  let ended :=
    {| GameSession.user := GameSession.user self;
       GameSession.puzzle := GameSession.puzzle self;
       GameSession.current_state := GameSession.current_state self;
       GameSession.status := COMPLETED;
       GameSession.start_time := GameSession.start_time self;
       GameSession.end_time := Some clock;
       GameSession.score := GameSession.score self;
       GameSession.hints_used := GameSession.hints_used self;
       GameSession.mistakes_made := GameSession.mistakes_made self |} in
  {| GameSession.user := GameSession.user self;
     GameSession.puzzle := GameSession.puzzle self;
     GameSession.current_state := GameSession.current_state self;
     GameSession.status := COMPLETED;
     GameSession.start_time := GameSession.start_time self;
     GameSession.end_time := Some clock;
     GameSession.score := GameSession.calculate_score ended difficulty;
     GameSession.hints_used := GameSession.hints_used self;
     GameSession.mistakes_made := GameSession.mistakes_made self |}.

(** [api_save_game_state], for the authenticated user [request_user];
    [new_state] and [is_completed] are the keys [current_state] and
    [is_completed] of [request.data]. *)
Definition api_save_game_state (clock : Z) (request_user session_id : Z)
    (new_state is_completed : option json) (db : SudokuDB)
    : save_response * SudokuDB :=
  match sessions db !! session_id with
  | Some row =>
      if bool_decide (GameSession.user row = request_user) then
        let game_session :=
          if py_truthy (default JNull new_state) then
            {| GameSession.user := GameSession.user row;
               GameSession.puzzle := GameSession.puzzle row;
               GameSession.current_state := default JNull new_state;
               GameSession.status := GameSession.status row;
               GameSession.start_time := GameSession.start_time row;
               GameSession.end_time := GameSession.end_time row;
               GameSession.score := GameSession.score row;
               GameSession.hints_used := GameSession.hints_used row;
               GameSession.mistakes_made := GameSession.mistakes_made row |}
          else row in
        let save (game_session : GameSession.t) (db : SudokuDB) :=
          (GameStateSaved (GameSession.score game_session)
             (GameSession.status game_session),
           {| sessions := <[session_id := game_session]> (sessions db);
              puzzle_difficulty := puzzle_difficulty db;
              players := players db |}) in
        if py_truthy (default (JBool false) is_completed) then
          match puzzle_difficulty db !! GameSession.puzzle game_session with
          | Some difficulty =>
              let game_session :=
                completed_session game_session clock difficulty in
              match players db !! GameSession.user game_session with
              | Some user =>
                  let user :=
                    {| Player.total_score :=
                         Player.total_score user
                         + GameSession.score game_session;
                       Player.games_played := Player.games_played user + 1;
                       Player.games_won := Player.games_won user + 1 |} in
                  let db :=
                    {| sessions := sessions db;
                       puzzle_difficulty := puzzle_difficulty db;
                       players :=
                         <[GameSession.user game_session := user]>
                           (players db) |} in
                  match check_achievements user game_session with
                  | Some e => (ServerError e, db)
                  | None => save game_session db
                  end
              | None => (ServerError RelatedDoesNotExist, db)
              end
          | None => (ServerError RelatedDoesNotExist, db)
          end
        else save game_session db
      else (ServerError SessionNotFound, db)
  | None => (ServerError SessionNotFound, db)
  end.

(** ** Access checks ([authentication/models.py],
    [authentication/decorators.py], [games/views.py]) *)

Module Account.
Record t : Type := mk {
  role : string;
  is_staff : bool;
  is_superuser : bool
}.

(** [User.is_game_admin]. *)
Definition is_game_admin (self : t) : bool :=
  bool_decide (role self = "admin") || is_staff self || is_superuser self.
End Account.

(** [request.user]: Django's [AnonymousUser], which is not authenticated,
    is neither staff nor superuser and has no attribute [role] or
    [is_game_admin], or a [User]. *)
Inductive request_user : Type :=
  | AnonymousUser
  | Authenticated (u : Account.t).

Definition is_authenticated (user : request_user) : bool :=
  match user with
  | AnonymousUser => false
  | Authenticated _ => true
  end.

Definition user_is_staff (user : request_user) : bool :=
  match user with
  | AnonymousUser => false
  | Authenticated u => Account.is_staff u
  end.

Definition user_is_superuser (user : request_user) : bool :=
  match user with
  | AnonymousUser => false
  | Authenticated u => Account.is_superuser u
  end.

(** [getattr(user, 'is_game_admin', False)] and
    [getattr(user, 'role', 'user')]. *)
Definition getattr_is_game_admin (user : request_user) : bool :=
  match user with
  | AnonymousUser => false
  | Authenticated u => Account.is_game_admin u
  end.

Definition getattr_role (user : request_user) : string :=
  match user with
  | AnonymousUser => "user"
  | Authenticated u => Account.role u
  end.

(** [user_can_access_admin_features] of [authentication/decorators.py];
    [user_can_manage_shapes] and [user_can_create_games] return its
    result. *)
Definition user_can_access_admin_features (user : request_user) : bool :=
  is_authenticated user
  && (user_is_superuser user || user_is_staff user
      || getattr_is_game_admin user).

Definition user_can_manage_shapes (user : request_user) : bool :=
  user_can_access_admin_features user.

Definition user_can_create_games (user : request_user) : bool :=
  user_can_access_admin_features user.

(** [is_game_admin] of [games/views.py]. *)
Definition views_is_game_admin (user : request_user) : bool :=
  is_authenticated user
  && (user_is_superuser user || getattr_is_game_admin user).

(** What a decorated view does with a request. *)
Inductive access : Type :=
  | RunView
  | RedirectToLogin
  | RedirectToDashboard.

(** [admin_required]: [login_required], then the test of
    [request.user.is_game_admin]. *)
Definition admin_required (user : request_user) : access :=
  match user with
  | AnonymousUser => RedirectToLogin
  | Authenticated u =>
      if negb (Account.is_game_admin u) then RedirectToDashboard
      else RunView
  end.

(** [role_required(allowed_roles)], for a single role or a list of
    roles. *)
Definition role_required (allowed_roles : string + list string)
    (user : request_user) : access :=
  let allowed_roles :=
    match allowed_roles with
    | inl role => [role]
    | inr roles => roles
    end in
  if negb (is_authenticated user) then RedirectToLogin
  else
    let user_role := getattr_role user in
    if bool_decide (user_role ∉ allowed_roles)
       && negb (user_is_superuser user)
    then RedirectToDashboard
    else RunView.


(** *** Sudoku moves ([games/views.py])

    [v[i]] for an integer [i]: an element of a list or a character of a
    string, counted from the end when [i] is negative.  [None] stands for
    the exception the expression raises otherwise: [IndexError], [KeyError]
    on a dict (its keys are strings), or [TypeError]. *)
Definition py_index (v : json) (i : Z) : option json :=
  let item (l : list json) : option json :=
    let n := Z.of_nat (length l) in
    if bool_decide (0 ≤ i < n) then l !! Z.to_nat i
    else if bool_decide (- n ≤ i < 0) then l !! Z.to_nat (i + n)
    else None in
  match v with
  | JArr l => item l
  | JStr s => item (chars s)
  | _ => None
  end.

(** A loop of [validate_sudoku_move] over the cells [(r, c)] of [cells]:
    [if <other> and board[r][c] == value: return False].  The result is
    [Some false] when the loop returns, [Some true] when it runs to its
    end, and [None] when indexing the board raises. *)
Fixpoint no_conflict (board : json) (value : Z) (other : Z * Z → bool)
    (cells : list (Z * Z)) : option bool :=
  match cells with
  | [] => Some true
  | rc :: cells' =>
      if other rc then
        row ← py_index board rc.1;
        cell ← py_index row rc.2;
        if py_eq cell (JNum value) then Some false
        else no_conflict board value other cells'
      else no_conflict board value other cells'
  end.

(** [validate_sudoku_move(board, row, col, value)] for integers [row],
    [col] and [value]; [None] when it raises.  The caller,
    [api_validate_move], passes the values of the request as they are;
    arguments that are not integers, on which the comparisons or the
    indexing can raise [TypeError], are outside this definition. *)
Definition validate_sudoku_move (board : json) (row col value : Z)
    : option bool :=
  if negb (bool_decide (0 ≤ row < 9) && bool_decide (0 ≤ col < 9)
           && bool_decide (1 ≤ value ≤ 9))
  then Some false
  else
    ok ← no_conflict board value (λ rc, bool_decide (rc.2 ≠ col))
           (c ← seqZ 0 9; [(row, c)]);
    if negb ok then Some false
    else
      ok ← no_conflict board value (λ rc, bool_decide (rc.1 ≠ row))
             (r ← seqZ 0 9; [(r, col)]);
      if negb ok then Some false
      else
        let box_row := 3 * (row `div` 3) in
        let box_col := 3 * (col `div` 3) in
        no_conflict board value
          (λ rc, bool_decide (rc.1 ≠ row) || bool_decide (rc.2 ≠ col))
          (r ← seqZ box_row 3; c ← seqZ box_col 3; [(r, c)]).

(** [board[r][c]]. *)
Definition board_cell (board : json) (r c : Z) : option json :=
  row ← py_index board r;
  py_index row c.

(** The 81 cells [board[r][c]] with [r] and [c] in [range(9)] exist. *)
Definition has_cells (board : json) : bool :=
  forallb (λ rc : Z * Z, bool_decide (is_Some (board_cell board rc.1 rc.2)))
    (r ← seqZ 0 9; c ← seqZ 0 9; [(r, c)]).

(** *** Generated Sudoku puzzles ([games/models.py])

    [SudokuPuzzle.generate_basic_puzzle].  Grids are lists of rows of
    integers.  The function copies every row of [base_solution] into
    [solution] and every row of [solution] into [puzzle], so the cells it
    blanks in [puzzle] stay in place in [solution]. *)

Definition base_solution : list (list Z) :=
  [[5; 3; 4; 6; 7; 8; 9; 1; 2];
   [6; 7; 2; 1; 9; 5; 3; 4; 8];
   [1; 9; 8; 3; 4; 2; 5; 6; 7];
   [8; 5; 9; 7; 6; 1; 4; 2; 3];
   [4; 2; 6; 8; 5; 3; 7; 9; 1];
   [7; 1; 3; 9; 2; 4; 8; 5; 6];
   [9; 6; 1; 5; 3; 7; 2; 8; 4];
   [2; 8; 7; 4; 1; 9; 6; 3; 5];
   [3; 4; 5; 2; 8; 6; 1; 7; 9]].

(** The dictionary [cells_to_remove] with [.get(difficulty, 35)]. *)
Definition cells_to_remove (difficulty : string) : nat :=
  if bool_decide (difficulty = "easy") then 35
  else if bool_decide (difficulty = "medium") then 45
  else if bool_decide (difficulty = "hard") then 55
  else if bool_decide (difficulty = "expert") then 65
  else 35.

(** [[(i, j) for i in range(9) for j in range(9)]]. *)
Definition all_positions : list (nat * nat) :=
  i ← seq 0 9; j ← seq 0 9; [(i, j)].

Definition regions : list (string * list (nat * nat)) :=
  ([("North America",
     [(0, 0); (0, 1); (0, 2); (1, 0); (1, 1); (1, 2); (2, 0); (2, 1); (2, 2)]);
    ("Europe",
     [(0, 3); (0, 4); (0, 5); (1, 3); (1, 4); (1, 5); (2, 3); (2, 4); (2, 5)]);
    ("Asia",
     [(0, 6); (0, 7); (0, 8); (1, 6); (1, 7); (1, 8); (2, 6); (2, 7); (2, 8)]);
    ("Africa",
     [(3, 0); (3, 1); (3, 2); (4, 0); (4, 1); (4, 2); (5, 0); (5, 1); (5, 2)]);
    ("South America",
     [(3, 3); (3, 4); (3, 5); (4, 3); (4, 4); (4, 5); (5, 3); (5, 4); (5, 5)]);
    ("Australia",
     [(3, 6); (3, 7); (3, 8); (4, 6); (4, 7); (4, 8); (5, 6); (5, 7); (5, 8)]);
    ("Antarctica",
     [(6, 0); (6, 1); (6, 2); (7, 0); (7, 1); (7, 2); (8, 0); (8, 1); (8, 2)]);
    ("Oceania",
     [(6, 3); (6, 4); (6, 5); (7, 3); (7, 4); (7, 5); (8, 3); (8, 4); (8, 5)]);
    ("Arctic",
     [(6, 6); (6, 7); (6, 8); (7, 6); (7, 7); (7, 8); (8, 6); (8, 7); (8, 8)])]
  )%nat.

(** [puzzle[row][col] = 0]; [None] when an index is out of range. *)
Definition clear_cell (puzzle : list (list Z)) (position : nat * nat)
    : option (list (list Z)) :=
  row ← puzzle !! position.1;
  if bool_decide (position.2 < length row)%nat
  then Some (<[position.1 := <[position.2 := 0]> row]> puzzle)
  else None.

(** The loop [for i in range(remove_count)] over its indices. *)
Fixpoint remove_cells (positions : list (nat * nat)) (indices : list nat)
    (puzzle : list (list Z)) : option (list (list Z)) :=
  match indices with
  | [] => Some puzzle
  | i :: indices' =>
      position ← positions !! i;
      puzzle' ← clear_cell puzzle position;
      remove_cells positions indices' puzzle'
  end.

(** [generate_basic_puzzle(difficulty)], where [shuffled] is the list
    [positions] as [random.shuffle(positions)] leaves it: some permutation
    of [all_positions].  The result is [None] when an index is out of
    range. *)
Definition generate_basic_puzzle (difficulty : string)
    (shuffled : list (nat * nat))
    : option (list (list Z) * list (list Z)
              * list (string * list (nat * nat))) :=
  let solution := base_solution in
  let remove_count := cells_to_remove difficulty in
  puzzle ← remove_cells shuffled (seq 0 remove_count) solution;
  Some (puzzle, solution, regions).

(** [grid[row][col]] for a position inside the grid. *)
Definition grid_cell (grid : list (list Z)) (position : nat * nat)
    : option Z :=
  row ← grid !! position.1;
  row !! position.2.

(** The number of blank cells of a grid. *)
Definition blanks (grid : list (list Z)) : nat :=
  length (filter (λ v, v = 0) (concat grid)).

(** A grid as the JSON value stored in [puzzle_data]. *)
Definition board_of (grid : list (list Z)) : json :=
  JArr (map (λ row, JArr (map JNum row)) grid).

(** ** Claiming a level puzzle ([games/views.py]) *)

(** [get_object_or_404(Model, id=id, ...)] with a condition on the row. *)
Definition get_object_or_404 {R : Type} (P : R → Prop)
    `{!∀ r, Decision (P r)} (id : Z) (t : gmap Z R) : outcome (inst R) :=
  match t !! id with
  | Some r => if decide (P r) then Ok (id, r) else Raise Http404
  | None => Raise Http404
  end.

(** [queryset.first()].  The order among several matching rows is the
    model's [ordering]; it is not modelled, and the order of the map stands
    in for it.  The query [first()] is applied to selects on the fields of
    [unique_together = ['user', 'level_puzzle']], so that at most one row
    matches. *)
Definition qs_first {R : Type} (q : gmap Z R) : option (inst R) :=
  head (map_to_list q).

Inductive level_error : Type :=
  | NoAttemptFound
  | ShapeGameNotCompleted
  | Raised (e : exn).

(** The responses of [complete_level_puzzle]: the success payload, or a 400
    response.  The key [next_level_unlocked] is present, with value [True],
    exactly when the level is completed. *)
Inductive level_response : Type :=
  | LevelSuccess (score_earned puzzles_completed total_required : Z)
      (percentage : Q) (level_completed next_level_unlocked : bool)
  | LevelBadRequest (error : level_error).

(** [complete_level_puzzle], for the authenticated user.  [user] is the
    instance [request.user], loaded when the request was authenticated;
    [complete_attempt] updates and saves another instance, the one it loads
    through [self.user]. *)
Definition complete_level_puzzle (clock : Z) (user : inst User.t)
    (level_id puzzle_id : Z) : M level_response :=
  lv ← gets levels;
  level ← lift (get_object_or_404
    (λ r, PuzzleLevel.is_active r = true) level_id lv);
  lps ← gets level_puzzles;
  level_puzzle ← lift (get_object_or_404
    (λ r, LevelPuzzle.level r = level.1 ∧ LevelPuzzle.is_active r = true)
    puzzle_id lps);
  try_except
    (pa ← gets puzzle_attempts;
     match qs_first (objects_filter
             (λ r, UserPuzzleAttempt.user r = user.1
                   ∧ UserPuzzleAttempt.level_puzzle r = level_puzzle.1) pa)
     with
     | None => mret (LevelBadRequest NoAttemptFound)
     | Some user_attempt =>
         sa ← gets shape_attempts;
         shape_attempt ← lift (fetch ShapeGameAttempt_model
           (UserPuzzleAttempt.shape_game_attempt user_attempt.2) sa);
         if bool_decide (ShapeGameAttempt.status shape_attempt.2 ≠ COMPLETED)
         then mret (LevelBadRequest ShapeGameNotCompleted)
         else
           let score := ShapeGameAttempt.score shape_attempt.2 in
           complete_attempt games_models clock user_attempt score;;
           pr ← gets progress;
           level_progress ← lift (objects_get UserLevelProgress_model
             (λ r, UserLevelProgress.user r = user.1
                   ∧ UserLevelProgress.level r = level.1) pr);
           let level_completed :=
             UserLevelProgress.is_completed level_progress.2 in
           check_user_achievements user;;
           lv ← gets levels;
           progress_level ← lift (fetch PuzzleLevel_model
             (UserLevelProgress.level level_progress.2) lv);
           mret (LevelSuccess score
                   (UserLevelProgress.puzzles_completed level_progress.2)
                   (PuzzleLevel.puzzles_required level.2)
                   (completion_percentage level_progress.2 progress_level.2)
                   level_completed level_completed)
     end)
    (λ _, true)
    (λ e, mret (LevelBadRequest (Raised e))).

(** [api_validate_shape_placement]; [game_id] and [placements] are the keys
    of [request.data], [game_id] an integer when present. *)
Inductive validation_response : Type :=
  | Validation (result : ValidationResult)
  | ValidationBadRequest (e : exn).

Definition api_validate_shape_placement (game_id : option Z)
    (placements : option json) : M validation_response :=
  try_except
    (let placements := default (JObj []) placements in
     games ← gets shape_games;
     game ← lift (match game_id with
                  | Some id => get_game_or_404 id games
                  | None => Raise Http404
                  end);
     result ← lift (validate_shape_placement game.2 placements);
     mret (Validation result))
    (λ _, true)
    (λ e, mret (ValidationBadRequest e)).

(** ** Opening a level ([games/views.py]) *)

Inductive detail_response : Type :=
  | DetailRedirect
  | DetailPage (progress : inst UserLevelProgress.t).

(** [level_detail_view], for the authenticated user: the redirect, or the
    progress row the page is rendered with.  The rest of the page context
    is built by queries that write nothing. *)
Definition level_detail_view (user level_id : Z) : M detail_response :=
  lv ← gets levels;
  level ← lift (get_object_or_404
    (λ r, PuzzleLevel.is_active r = true) level_id lv);
  unlocked ← is_unlocked_for_user level user;
  if negb unlocked then mret DetailRedirect
  else
    got ← progress_get_or_create user level.1;
    mret (DetailPage got.1).

(** [play_shape_game_view], for the authenticated user: the attempt the
    page is rendered with. *)
Definition play_shape_game_view (clock : Z) (user game_id : Z)
    : M (inst ShapeGameAttempt.t) :=
  games ← gets shape_games;
  game ← lift (get_game_or_404 game_id games);
  got ← attempt_get_or_create clock user game.1;
  mret got.1.

(** ** Resetting progress ([games/level_admin_views.py]) *)



(** ** Form validation ([games/forms.py])

    A field's value in [cleaned_data] is the decoded JSON value, or absent
    when the field failed an earlier check.  [json.loads] is a parameter:
    it fails on a malformed text. *)

(** The f-string [f"{i},{j}"]. *)
Definition position_key (i j : nat) : string :=
  pretty i +:+ "," +:+ pretty j.

Inductive cleaned (A E : Type) : Type :=
  | Cleaned (a : A)
  | ValidationError (e : E).
Arguments Cleaned {A E} a.
Arguments ValidationError {A E} e.

Module GridTemplateForm.

(** The messages of [clean_grid_data]; one raised inside the [try] block
    reaches the user wrapped by the handler [except Exception]. *)
Inductive cause : Type :=
  | NotAnArray
  | WrongRowCount
  | RowNotAnArray (i : nat)
  | WrongColumnCount (i : nat)
  | InvalidCell (i j : nat)
  | NoQuestionCell
  | Failure (e : exn).

Inductive error : Type :=
  | InvalidJSONFormat
  | GridValidationError (c : cause).

Section clean.
Variable json_loads : string → option json.

(** The loop [for j, cell in enumerate(row)]. *)
Fixpoint check_cells (i j : nat) (cells : list json) : option cause :=
  match cells with
  | [] => None
  | cell :: cells' =>
      if negb (py_in cell [JStr "?"; JNum 0; JStr "0"; JNull; JStr ""])
         && negb (match cell with
                  | JStr _ | JNum _ | JBool _ => true
                  | _ => false
                  end)
      then Some (InvalidCell i j)
      else check_cells i (S j) cells'
  end.

(** The loop [for i, row in enumerate(grid)]. *)
Fixpoint check_rows (grid_size : Z) (i : nat) (rows : list json)
    : option cause :=
  match rows with
  | [] => None
  | row :: rows' =>
      match row with
      | JArr cells =>
          if bool_decide (Z.of_nat (length cells) ≠ grid_size)
          then Some (WrongColumnCount i)
          else
            match check_cells i 0 cells with
            | Some c => Some c
            | None => check_rows grid_size (S i) rows'
            end
      | _ => Some (RowNotAnArray i)
      end
  end.

(** [GridTemplateForm.clean_grid_data]. *)
Definition clean_grid_data (grid_data : option json) (grid_size : option Z)
    : cleaned (option json) error :=
  let grid_size := default 9 grid_size in
  match grid_data with
  | Some data =>
      if py_truthy data then
        match (match data with
               | JStr text => json_loads text
               | _ => Some data
               end) with
        | None => ValidationError InvalidJSONFormat
        | Some grid =>
            match grid with
            | JArr rows =>
                if bool_decide (Z.of_nat (length rows) ≠ grid_size)
                then ValidationError (GridValidationError WrongRowCount)
                else
                  match check_rows grid_size 0 rows with
                  | Some c => ValidationError (GridValidationError c)
                  | None =>
                      match count_rows rows 0 with
                      | Ok question_count =>
                          if bool_decide (question_count = 0)
                          then ValidationError
                                 (GridValidationError NoQuestionCell)
                          else Cleaned (Some grid)
                      | Raise e =>
                          ValidationError (GridValidationError (Failure e))
                      end
                  end
            | _ => ValidationError (GridValidationError NotAnArray)
            end
        end
      else Cleaned grid_data
  | None => Cleaned grid_data
  end.

End clean.
End GridTemplateForm.

Module ShapeGameForm.

Inductive cause : Type :=
  | NotAnObject
  | MissingCells (cells : list string)
  | Failure (e : exn).

Inductive error : Type :=
  | InvalidJSONFormat
  | SolutionValidationError (c : cause)
  | ShapeNotAvailable (shape_id : json).

Section clean.
Variable json_loads : string → option json.

(** The loop [for j, cell in enumerate(row)] that appends to
    [question_cells]. *)
Fixpoint row_question_cells (i j : nat) (cells : list json) : list string :=
  match cells with
  | [] => []
  | cell :: cells' =>
      (if py_eq cell (JStr "?") then [position_key i j] else [])
      ++ row_question_cells i (S j) cells'
  end.

(** The loop [for i, row in enumerate(grid_data)]. *)
Fixpoint question_cells (i : nat) (rows : list json)
    : outcome (list string) :=
  match rows with
  | [] => Ok []
  | row :: rows' =>
      cells ← py_iter row;
      rest ← question_cells (S i) rows';
      Ok (row_question_cells i 0 cells ++ rest)
  end.

(** [ShapeGameForm.clean_solution_data]; [grid_template] is the
    [grid_data] of the selected template. *)
Definition clean_solution_data (solution_data grid_template : option json)
    : cleaned (option json) error :=
  match solution_data, grid_template with
  | Some data, Some grid_data =>
      if py_truthy data then
        match (match data with
               | JStr text => json_loads text
               | _ => Some data
               end) with
        | None => ValidationError InvalidJSONFormat
        | Some solution =>
            match solution with
            | JObj o =>
                match (rows ← py_iter grid_data; question_cells 0 rows) with
                | Ok cells =>
                    let missing_cells :=
                      filter (λ cell, assoc cell o = None) cells in
                    if bool_decide (missing_cells ≠ [])
                    then ValidationError
                           (SolutionValidationError
                              (MissingCells missing_cells))
                    else Cleaned (Some solution)
                | Raise e =>
                    ValidationError (SolutionValidationError (Failure e))
                end
            | _ => ValidationError (SolutionValidationError NotAnObject)
            end
        end
      else Cleaned solution_data
  | _, _ => Cleaned solution_data
  end.

(** The loop [for cell, shape_id in solution.items()] of [clean]. *)
Fixpoint check_shapes (shape_ids : list json) (items : list (string * json))
    : option json :=
  match items with
  | [] => None
  | (cell, shape_id) :: items' =>
      if negb (py_in shape_id shape_ids) then Some shape_id
      else check_shapes shape_ids items'
  end.

(** [ShapeGameForm.clean], the cross-field validation: [available_shapes]
    are the primary keys of the selected shapes, [None] when the field is
    absent.  The handler [except (json.JSONDecodeError, TypeError)] lets the
    [ValidationError] and an [AttributeError] of [solution.items()]
    through. *)
Definition clean (grid_template : option json)
    (available_shapes : option (list Z)) (solution_data : option json)
    : outcome (cleaned unit error) :=
  match grid_template, available_shapes, solution_data with
  | Some _, Some shapes, Some data =>
      if bool_decide (shapes ≠ []) && py_truthy data then
        match (match data with
               | JStr text => json_loads text
               | _ => Some data
               end) with
        | None => Ok (Cleaned tt)
        | Some solution =>
            items ← py_items solution;
            match check_shapes (map JNum shapes) items with
            | Some shape_id =>
                Ok (ValidationError (ShapeNotAvailable shape_id))
            | None => Ok (Cleaned tt)
            end
        end
      else Ok (Cleaned tt)
  | _, _, _ => Ok (Cleaned tt)
  end.

End clean.
End ShapeGameForm.

(** ** Further definitions used in the statements *)

(** Every progress row of [db] is still in [db'], for the same user and
    level, and completed if it was; the level table is the same. *)
Definition progress_kept (db db' : DB) : Prop :=
  levels db' = levels db ∧
  ∀ k r, progress db !! k = Some r →
    ∃ r', progress db' !! k = Some r'
      ∧ UserLevelProgress.user r' = UserLevelProgress.user r
      ∧ UserLevelProgress.level r' = UserLevelProgress.level r
      ∧ (UserLevelProgress.is_completed r = true →
         UserLevelProgress.is_completed r' = true).

(** The placements that put at every question cell the shape the solution
    [o] gives it. *)
Definition solved_placements (o : list (string * json))
    (cells : list string) : json :=
  JObj (map (λ cell,
              (cell, JObj [("shapeId", default JNull (assoc cell o))]))
          cells).

(** At most one attempt of a user at a game is in progress. *)
Definition unique_in_progress (db : DB) : Prop :=
  map_Forall (λ k1 r1, map_Forall (λ k2 r2,
    ShapeGameAttempt.user r1 = ShapeGameAttempt.user r2 →
    ShapeGameAttempt.shape_game r1 = ShapeGameAttempt.shape_game r2 →
    ShapeGameAttempt.status r1 = IN_PROGRESS →
    ShapeGameAttempt.status r2 = IN_PROGRESS →
    k1 = k2) (shape_attempts db)) (shape_attempts db).

Global Instance unique_in_progress_dec db : Decision (unique_in_progress db).
Proof. unfold unique_in_progress. apply _. Defined.

(** * Properties *)

Arguments progress_get_or_create : simpl never.
Arguments attempt_get_or_create : simpl never.
Arguments unlock_next_level : simpl never.
Arguments check_completion : simpl never.
Arguments validate_shape_placement : simpl never.
Arguments objects_create : simpl never.
Arguments objects_get : simpl never.

(** Unfolds the monad operations of a request. *)
Ltac unfold_M :=
  unfold mbind, mret, M_bind, M_ret, gets, modify, lift, raise, try_except,
    save_progress, save_puzzle_attempt, save_shape_attempt, save_user.

(** ** The validator *)

Lemma validate_shape_placement_total game placements :
  ∃ r, validate_shape_placement game placements = Ok r.
Proof.
  unfold validate_shape_placement.
  destruct (validate_try game placements); eauto.
Qed.

Lemma check_placements_tally solution items acc t :
  check_placements solution items acc = Ok t →
  t_correct t = t_correct acc
    + Z.of_nat (length (filter (λ i, item_correct solution i = true) items))
  ∧ t_incorrect t = t_incorrect acc
    + Z.of_nat (length (filter (λ i, item_correct solution i = false) items)).
Proof.
  revert acc. induction items as [|[position placement] items IH];
    intros acc Hrun; simpl in Hrun.
  - inversion Hrun; subst. simpl. lia.
  - destruct (py_get solution position) as [e|] eqn:He; [|done].
    destruct (py_get placement "shapeId") as [p|] eqn:Hp; [|done].
    assert (item_correct solution (position, placement) = py_eq e p) as Hic.
    { unfold item_correct. simpl. by rewrite He, Hp. }
    simpl in Hrun. apply IH in Hrun as [-> ->]. cbn [t_correct t_incorrect].
    rewrite !filter_cons, Hic.
    destruct (py_eq e p).
    + rewrite decide_True by done. rewrite decide_False by done. simpl. lia.
    + rewrite decide_False by done. rewrite decide_True by done. simpl. lia.
Qed.

Lemma filter_partition_length {A} (f : A → bool) (l : list A) :
  (length (filter (λ x, f x = true) l)
   + length (filter (λ x, f x = false) l) = length l)%nat.
Proof.
  induction l as [|x l IH]; [done|]. rewrite !filter_cons.
  destruct (f x); repeat case_decide; try done; simpl; lia.
Qed.

Lemma validate_try_Ok game placements r :
  validate_try game placements = Ok r →
  ∃ items, placements = JObj items
    ∧ error r = None
    ∧ correct_count r = Z.of_nat
        (length (filter (λ i, item_correct (solution_data game) i = true)
                   items))
    ∧ incorrect_count r = Z.of_nat
        (length (filter (λ i, item_correct (solution_data game) i = false)
                   items))
    ∧ final_score r
      = Z.max 0 (correct_count r * points_per_correct game
                 - incorrect_count r * penalty_per_wrong game).
Proof.
  unfold validate_try. intros Hrun.
  destruct (py_iter (grid_data game)) as [rows|]; [|done]. simpl in Hrun.
  destruct (count_rows rows 0) as [total|]; [|done]. simpl in Hrun.
  destruct placements as [| | | | |items]; try done. simpl in Hrun.
  destruct (check_placements _ items _) as [t|] eqn:Ht; [|done].
  simpl in Hrun. injection Hrun as <-. simpl.
  apply check_placements_tally in Ht as [-> ->]. simpl.
  exists items. split_and!; done.
Qed.

(** Scenarios A and B of the specification. *)
Example accuracy_scenario_A :
  ∃ r, validate_shape_placement scenario_game (JObj [place "1,1" 3]) = Ok r
    ∧ correct_count r = 1 ∧ incorrect_count r = 0
    ∧ accuracy r = 100%Q ∧ is_complete r = true ∧ is_perfect r = true
    ∧ final_score r = 10.
Proof. eexists. split; [vm_compute; reflexivity|]. by vm_compute. Qed.

Example accuracy_scenario_B :
  ∃ r, validate_shape_placement scenario_game (JObj [place "1,1" 1]) = Ok r
    ∧ correct_count r = 0 ∧ incorrect_count r = 1
    ∧ accuracy r = 0%Q ∧ final_score r = 0.
Proof. eexists. split; [vm_compute; reflexivity|]. by vm_compute. Qed.

(** Rounding stays between integer bounds. *)
Lemma round_half_even_bounds (q : Q) (a b : Z) :
  (inject_Z a <= q)%Q → (q <= inject_Z b)%Q →
  a ≤ round_half_even q ≤ b.
Proof.
  destruct q as [n d]. unfold Qle, round_half_even. simpl.
  intros Ha Hb.
  pose proof (Z.div_mod n (Z.pos d) ltac:(done)) as Hdm.
  pose proof (Z.mod_pos_bound n (Z.pos d) ltac:(done)) as Hm.
  destruct (2 * (n `mod` Z.pos d) ?= Z.pos d) eqn:Hc.
  - apply Z.compare_eq in Hc. destruct (Z.even _); nia.
  - nia.
  - apply Z.compare_gt_iff in Hc. nia.
Qed.

Lemma round2_bounds (x : Q) :
  (0 <= x)%Q → (x <= 100)%Q → (0 <= round2 x)%Q ∧ (round2 x <= 100)%Q.
Proof.
  intros H0 H100. unfold round2.
  destruct (round_half_even_bounds (x * inject_Z 100) 0 10000) as [Hlo Hhi].
  - change (inject_Z 0) with (0 * inject_Z 100)%Q.
    apply Qmult_le_compat_r; done.
  - change (inject_Z 10000) with (100 * inject_Z 100)%Q.
    apply Qmult_le_compat_r; done.
  - rewrite Qred_correct. unfold Qle. simpl. lia.
Qed.

Lemma percentage_bounds (c t : Z) :
  0 ≤ c ≤ t → 0 < t →
  (0 <= inject_Z c / inject_Z t * inject_Z 100)%Q
  ∧ (inject_Z c / inject_Z t * inject_Z 100 <= 100)%Q.
Proof.
  intros Hc Ht. destruct t as [|p|p]; [lia| |lia].
  unfold Qle, Qdiv, Qmult, Qinv. simpl. nia.
Qed.

Lemma accuracy_of_result game placements r :
  validate_try game placements = Ok r →
  accuracy r
  = round2 (if bool_decide (0 < total_questions r)%Z
            then inject_Z (correct_count r) / inject_Z (total_questions r)
                 * inject_Z 100
            else 0)%Q
  ∧ 0 ≤ correct_count r.
Proof.
  unfold validate_try. intros Hrun.
  destruct (py_iter (grid_data game)) as [rows|]; [|done]. simpl in Hrun.
  destruct (count_rows rows 0) as [total|]; [|done]. simpl in Hrun.
  destruct placements as [| | | | |items]; try done. simpl in Hrun.
  destruct (check_placements _ items _) as [t|] eqn:Ht; [|done].
  simpl in Hrun. injection Hrun as <-. simpl.
  apply check_placements_tally in Ht as [-> _]. simpl. split; [done|lia].
Qed.

(** The accuracy is a percentage whenever the count of correct placements
    does not exceed the number of blank cells; it is 0 when there is no
    blank cell and when the validation failed. *)
Lemma accuracy_within_range game placements r :
  validate_shape_placement game placements = Ok r →
  (total_questions r = 0 → accuracy r = 0%Q)
  ∧ (correct_count r ≤ total_questions r →
     (0 <= accuracy r)%Q ∧ (accuracy r <= 100)%Q).
Proof.
  unfold validate_shape_placement.
  destruct (validate_try game placements) as [r'|e] eqn:Hrun;
    intros [= <-]; [|done].
  apply accuracy_of_result in Hrun as [-> Hc]. split.
  - intros ->. reflexivity.
  - intros Hle. case_bool_decide as Ht; [|done].
    apply round2_bounds; by apply percentage_bounds.
Qed.

(** C5.  On the Scenario A game the placements
    [{"1,1": {"shapeId": 3}, "9,9": {}}] are validated without an error:
    the placement at the unknown coordinate (9,9) has no [shapeId], which
    compares equal to the missing solution entry, so two placements count
    as correct against one blank cell and the accuracy is 200. *)
Theorem accuracy_exceeds_100 :
  ∃ r, validate_shape_placement scenario_game
         (JObj [place "1,1" 3; ("9,9", JObj [])]) = Ok r
    ∧ error r = None
    ∧ correct_count r = 2
    ∧ incorrect_count r = 0
    ∧ total_questions r = 1
    ∧ accuracy r = 200%Q
    ∧ (100 < accuracy r)%Q.
Proof. eexists. split; [vm_compute; reflexivity|]. by vm_compute. Qed.

Lemma count_rows_Ok rows total :
  (∃ n, count_rows rows total = Ok n) ↔ forallb iterable rows = true.
Proof.
  revert total. induction rows as [|row rows IH]; intros total; simpl.
  - split; [done|by eexists].
  - destruct row; simpl; rewrite ?IH; try done.
    all: split; try done; by intros [? ?].
Qed.

Lemma check_placements_Ok solution items acc :
  (∃ t, check_placements solution items acc = Ok t) ↔
  forallb (λ i, is_object i.2) items = true
  ∧ (is_object solution || bool_decide (items = [])) = true.
Proof.
  revert acc. induction items as [|[position placement] items IH];
    intros acc; simpl.
  - rewrite orb_true_r. split; [done|by eexists].
  - rewrite orb_false_r.
    destruct solution; simpl; try (split; [by intros [? ?]|by intros [? ?]]).
    destruct placement; simpl; try (split; [by intros [? ?]|by intros [? ?]]).
    rewrite IH. simpl. tauto.
Qed.

Lemma validate_try_Ok_iff game placements :
  (∃ r, validate_try game placements = Ok r) ↔
  well_formed game placements = true.
Proof.
  unfold validate_try, well_formed.
  destruct (py_iter (grid_data game)) as [rows|]; simpl;
    [|split; [by intros [? ?]|done]].
  pose proof (count_rows_Ok rows 0) as Hrows.
  destruct (count_rows rows 0) as [total|]; simpl.
  - destruct Hrows as [-> _]; [|by eexists]. simpl.
    destruct placements as [| | | | |items]; simpl;
      try (split; [by intros [? ?]|done]).
    rewrite andb_true_iff,
      <- (check_placements_Ok _ _
            {| t_correct := 0; t_incorrect := 0; t_details := [] |}).
    destruct (check_placements _ items _) as [t|]; simpl.
    + split; intros _; by eexists.
    + split; by intros [? ?].
  - destruct (forallb iterable rows);
      [by destruct Hrows as [_ [? ?]]|].
    simpl. destruct placements; split; try done; by intros [? ?].
Qed.

Lemma validate_try_Raise_iff game placements :
  (∃ e, validate_try game placements = Raise e) ↔
  well_formed game placements = false.
Proof.
  pose proof (validate_try_Ok_iff game placements) as [H1 H2].
  destruct (validate_try game placements) as [r|e],
    (well_formed game placements).
  - split; [by intros [? ?]|done].
  - assert (false = true) by (apply H1; by eexists). done.
  - destruct H2 as [? ?]; done.
  - split; [done|]. intros _. by eexists.
Qed.

(** C4.  The validator always returns a result, and the score of the result
    is [max(0, correct_count * points_per_correct - incorrect_count *
    penalty_per_wrong)] over the counts of the same result, hence never
    negative.  On the inputs on which no step of the validation raises
    ([well_formed]), no error is reported and the counts are the numbers of
    submitted items whose placed shape equals, respectively differs from,
    the expected one; on all other inputs an error is reported, both counts
    are zero and so is the score. *)
Theorem score_is_floored_difference (game : ShapeGame) (placements : json) :
  ∃ r, validate_shape_placement game placements = Ok r
    ∧ final_score r
      = Z.max 0 (correct_count r * points_per_correct game
                 - incorrect_count r * penalty_per_wrong game)
    ∧ 0 ≤ final_score r
    ∧ (well_formed game placements = true →
       ∃ items, placements = JObj items
         ∧ error r = None
         ∧ correct_count r = Z.of_nat (length
             (filter (λ i, item_correct (solution_data game) i = true)
                items))
         ∧ incorrect_count r = Z.of_nat (length
             (filter (λ i, item_correct (solution_data game) i = false)
                items)))
    ∧ (well_formed game placements = false →
       ∃ e, error r = Some e
         ∧ correct_count r = 0 ∧ incorrect_count r = 0
         ∧ final_score r = 0).
Proof.
  unfold validate_shape_placement.
  destruct (validate_try game placements) as [r|e] eqn:Hrun.
  - assert (well_formed game placements = true) as Hwf
      by (apply validate_try_Ok_iff; by exists r).
    exists r. apply validate_try_Ok in Hrun
      as (items & -> & Herr & Hc & Hi & Hs).
    split_and!; [done|done|lia| |].
    + intros _. by exists items.
    + intros Hill. rewrite Hill in Hwf. done.
  - assert (well_formed game placements = false) as Hill
      by (apply validate_try_Raise_iff; by exists e).
    exists (error_result e). simpl. split_and!; [done|done|done| |].
    + intros Hwf. rewrite Hwf in Hill. done.
    + intros _. by exists e.
Qed.

(** The theorem at the Scenario A game: with a wrong shape at its one blank
    cell the penalty exceeds the points and the score is 0; with placements
    that are no object the error is reported. *)
Lemma score_is_floored_difference_witness :
  (∃ r, validate_shape_placement scenario_game (JObj [place "1,1" 1]) = Ok r
     ∧ correct_count r = 0 ∧ incorrect_count r = 1 ∧ final_score r = 0)
  ∧ (∃ r e, validate_shape_placement scenario_game (JNum 3) = Ok r
       ∧ error r = Some e ∧ final_score r = 0).
Proof.
  split.
  - destruct (score_is_floored_difference scenario_game
                (JObj [place "1,1" 1])) as (r & Hr & Hs & _ & Hwf & _).
    destruct Hwf as (items & Hitems & _ & Hc & Hi); [reflexivity|].
    injection Hitems as <-.
    assert (correct_count r = 0) as Hc0
      by (etrans; [exact Hc|vm_compute; reflexivity]).
    assert (incorrect_count r = 1) as Hi1
      by (etrans; [exact Hi|vm_compute; reflexivity]).
    exists r. split; [exact Hr|]. split; [exact Hc0|]. split; [exact Hi1|].
    rewrite Hs, Hc0, Hi1. reflexivity.
  - destruct (score_is_floored_difference scenario_game (JNum 3))
      as (r & Hr & _ & _ & _ & Hill).
    destruct Hill as (e & He & _ & _ & Hs); [reflexivity|].
    exists r, e. split; [exact Hr|]. split; [exact He|exact Hs].
Defined.

(** C6, as stated, fails.  A placement given as a bare shape id, [{"9,9":
    3}], makes [placement.get] raise; the handler returns zero counts, so
    the placed coordinate is counted nowhere. *)
Lemma bare_shape_id_is_dropped :
  ∃ r, validate_shape_placement scenario_game (JObj [("9,9", JNum 3)]) = Ok r
    ∧ error r = Some AttributeError
    ∧ incorrect_count r = 0
    ∧ correct_count r + incorrect_count r
      ≠ Z.of_nat (length [("9,9", JNum 3)]).
Proof. eexists. split; [vm_compute; reflexivity|]. by vm_compute. Qed.

(** C6 (amended).  On every input on which no step of the validation
    raises (see [well_formed]), [correct_count + incorrect_count] is the
    number of placed coordinates, [incorrect_count] is the number of those
    whose placed shape differs from the expected one, and every placement
    at a coordinate that is not a key of the solution and whose [shapeId]
    is present and not null is among those. *)
Theorem unknown_coordinate_is_incorrect (game : ShapeGame)
    (placements : json) :
  well_formed game placements = true →
  ∃ r items, validate_shape_placement game placements = Ok r
    ∧ error r = None
    ∧ placements = JObj items
    ∧ correct_count r + incorrect_count r = Z.of_nat (length items)
    ∧ incorrect_count r = Z.of_nat (length
        (filter (λ i, item_correct (solution_data game) i = false) items))
    ∧ ∀ solution position placement shape,
        solution_data game = JObj solution →
        assoc position solution = None →
        (position, placement) ∈ items →
        py_get placement "shapeId" = Ok shape →
        shape ≠ JNull →
        (position, placement)
        ∈ filter (λ i, item_correct (solution_data game) i = false) items.
Proof.
  intros [r Hrun]%validate_try_Ok_iff.
  unfold validate_shape_placement. rewrite Hrun.
  apply validate_try_Ok in Hrun as (items & -> & Herr & Hc & Hi & _).
  exists r, items. split_and!; [done|done|done| |done|].
  - rewrite Hc, Hi, <- Nat2Z.inj_add. f_equal. apply filter_partition_length.
  - intros solution position placement shape Hsol Hnone Hin Hshape Hnn.
    apply list_elem_of_filter. split; [|done].
    unfold item_correct. rewrite Hsol. simpl. rewrite Hnone, Hshape. simpl.
    by destruct shape.
Qed.

(** The theorem at the Scenario A game with the placements [{"1,1":
    {"shapeId": 3}, "9,9": {"shapeId": 1}}]. *)
Lemma unknown_coordinate_is_incorrect_witness :
  ∃ r items, validate_shape_placement scenario_game two_placements = Ok r
    ∧ two_placements = JObj items
    ∧ correct_count r + incorrect_count r = Z.of_nat (length items)
    ∧ place "9,9" 1
      ∈ filter (λ i, item_correct (solution_data scenario_game) i = false)
          items.
Proof.
  destruct (unknown_coordinate_is_incorrect scenario_game two_placements)
    as (r & items & Hr & _ & Hp & Hsum & _ & Hin).
  - reflexivity.
  - exists r, items. split; [exact Hr|]. split; [exact Hp|].
    split; [exact Hsum|].
    apply (Hin [("1,1", JNum 3)] "9,9" _ (JNum 1)).
    + reflexivity.
    + reflexivity.
    + injection Hp as <-. apply list_elem_of_further, list_elem_of_here.
    + reflexivity.
    + discriminate.
Defined.

(** C9, as stated, fails.  On [{"1,1": 3}] the [try] block raises
    [AttributeError]; the validator returns the zeroed result instead of
    raising. *)
Lemma validation_failure_is_swallowed :
  validate_try scenario_game (JObj [("1,1", JNum 3)]) = Raise AttributeError
  ∧ validate_shape_placement scenario_game (JObj [("1,1", JNum 3)])
    = Ok (error_result AttributeError)
  ∧ validate_shape_placement scenario_game (JObj [("1,1", JNum 3)])
    ≠ Raise AttributeError.
Proof. by vm_compute. Qed.

(** C9 (amended).  The validator never lets an exception out.  On every
    input on which a step of the [try] block fails (the inputs that are not
    [well_formed]), the exception is caught and the handler returns the
    zeroed result that records it. *)
Theorem validation_failure_is_reported_in_result (game : ShapeGame)
    (placements : json) :
  well_formed game placements = false →
  ∃ e r, validate_try game placements = Raise e
    ∧ validate_shape_placement game placements = Ok r
    ∧ error r = Some e
    ∧ accuracy r = 0%Q
    ∧ final_score r = 0
    ∧ correct_count r = 0
    ∧ incorrect_count r = 0
    ∧ is_complete r = false
    ∧ is_perfect r = false.
Proof.
  intros [e Hrun]%validate_try_Raise_iff. exists e, (error_result e).
  unfold validate_shape_placement. by rewrite Hrun.
Qed.

(** The theorem at the Scenario A game with the placements [{"1,1": 3}]. *)
Lemma validation_failure_is_reported_in_result_witness :
  ∃ e r, validate_try scenario_game (JObj [("1,1", JNum 3)]) = Raise e
    ∧ validate_shape_placement scenario_game (JObj [("1,1", JNum 3)]) = Ok r
    ∧ error r = Some e
    ∧ final_score r = 0.
Proof.
  destruct (validation_failure_is_reported_in_result scenario_game
              (JObj [("1,1", JNum 3)]))
    as (e & r & Htry & Hrun & Herr & _ & Hscore & _).
  - reflexivity.
  - exists e, r. split; [exact Htry|]. split; [exact Hrun|].
    split; [exact Herr|exact Hscore].
Defined.

(** ** Query sets *)

Section query_facts.
Context {R : Type} (P : R → Prop) `{!∀ r, Decision (P r)}.
Implicit Types (t : gmap Z R) (c : model).

Lemma objects_filter_lookup t k r :
  objects_filter P t !! k = Some r ↔ t !! k = Some r ∧ P r.
Proof. unfold objects_filter. by rewrite map_lookup_filter_Some. Qed.

Lemma objects_get_Ok c t i :
  objects_get c P t = Ok i → t !! i.1 = Some i.2 ∧ P i.2.
Proof.
  unfold objects_get.
  destruct (map_to_list (objects_filter P t)) as [|x [|y l]] eqn:E;
    [done| |done].
  intros [= <-]. apply objects_filter_lookup, elem_of_map_to_list.
  destruct x. rewrite E. apply list_elem_of_here.
Qed.

Lemma objects_get_Raise c t e :
  objects_get c P t = Raise e →
  e = DoesNotExist c ∨ e = MultipleObjectsReturned c.
Proof.
  unfold objects_get.
  destruct (map_to_list (objects_filter P t)) as [|x [|y l]]; naive_solver.
Qed.

Lemma objects_get_DoesNotExist c c' t :
  objects_get c P t = Raise (DoesNotExist c') ↔
  c' = c ∧ ∀ k r, t !! k = Some r → ¬ P r.
Proof.
  unfold objects_get.
  destruct (map_to_list (objects_filter P t)) as [|x [|y l]] eqn:E.
  - apply map_to_list_empty_iff in E. split.
    + intros [= ->]. split; [done|]. intros k r Hk HP.
      assert (objects_filter P t !! k = Some r) as Hf
        by by apply objects_filter_lookup.
      by rewrite E in Hf.
    + by intros [-> _].
  - split; [done|]. intros [_ Hno]. destruct x as [k r].
    assert ((k, r) ∈ map_to_list (objects_filter P t)) as Hin
      by (rewrite E; apply list_elem_of_here).
    apply elem_of_map_to_list, objects_filter_lookup in Hin as [Hk HP].
    by destruct (Hno k r).
  - split; [done|]. intros [_ Hno]. destruct x as [k r].
    assert ((k, r) ∈ map_to_list (objects_filter P t)) as Hin
      by (rewrite E; apply list_elem_of_here).
    apply elem_of_map_to_list, objects_filter_lookup in Hin as [Hk HP].
    by destruct (Hno k r).
Qed.

Lemma objects_get_unique c t k r :
  t !! k = Some r → P r →
  (∀ k' r', t !! k' = Some r' → P r' → k' = k) →
  objects_get c P t = Ok (k, r).
Proof.
  intros Hk HP Huniq. unfold objects_get.
  assert (objects_filter P t = {[k := r]}) as ->.
  { apply map_eq. intros j. destruct (decide (j = k)) as [->|Hne].
    - rewrite lookup_singleton_eq. by apply objects_filter_lookup.
    - rewrite lookup_singleton_ne by done.
      destruct (objects_filter P t !! j) as [r'|] eqn:E; [|done].
      apply objects_filter_lookup in E as [Hj HP'].
      by destruct (Hne (Huniq j r' Hj HP')). }
  by rewrite map_to_list_singleton.
Qed.

Lemma objects_get_at_most_one c (t : gmap Z R) :
  (∀ k1 k2 r1 r2, t !! k1 = Some r1 → t !! k2 = Some r2 →
     P r1 → P r2 → k1 = k2) →
  (∃ k r, t !! k = Some r ∧ P r ∧ objects_get c P t = Ok (k, r))
  ∨ ((∀ k r, t !! k = Some r → ¬ P r)
     ∧ objects_get c P t = Raise (DoesNotExist c)).
Proof.
  intros Huniq.
  destruct (map_to_list (objects_filter P t)) as [|[k r] l] eqn:E.
  - right. assert (objects_get c P t = Raise (DoesNotExist c)) as Hget
      by (unfold objects_get; by rewrite E).
    split; [|done]. by apply (objects_get_DoesNotExist c c t).
  - left. exists k, r.
    assert ((k, r) ∈ map_to_list (objects_filter P t)) as Hin
      by (rewrite E; apply list_elem_of_here).
    apply elem_of_map_to_list, objects_filter_lookup in Hin as [Hk HP].
    split_and!; [done..|]. apply objects_get_unique; [done..|].
    intros k' r' Hk' HP'. by eapply Huniq.
Qed.

Lemma qs_exists_filter t :
  qs_exists (objects_filter P t) = true ↔ ∃ k r, t !! k = Some r ∧ P r.
Proof.
  unfold qs_exists. rewrite bool_decide_eq_true. split.
  - intros Hne. apply map_choose in Hne as (k & r & Hk).
    apply objects_filter_lookup in Hk. eauto.
  - intros (k & r & Hk & HP) Hemp.
    assert (objects_filter P t !! k = Some r) as Hf
      by by apply objects_filter_lookup.
    by rewrite Hemp in Hf.
Qed.

End query_facts.

Section table_facts.
Context {R : Type}.
Implicit Types (t : gmap Z R).

Lemma foldr_max_ge (l : list Z) k : k ∈ l → k ≤ foldr Z.max 0 l.
Proof.
  induction 1 as [|?????IH]; simpl; lia.
Qed.

Lemma next_pk_fresh t : t !! next_pk t = None.
Proof.
  destruct (t !! next_pk t) as [r|] eqn:E; [|done].
  apply elem_of_map_to_list in E.
  assert (next_pk t ∈ (map_to_list t).*1) as Hin.
  { apply list_elem_of_fmap. by exists (next_pk t, r). }
  apply foldr_max_ge in Hin. unfold next_pk in Hin at 1. lia.
Qed.

Lemma objects_create_lookup (r : R) t k :
  (objects_create r t).2 !! k =
    if decide ((objects_create r t).1.1 = k) then Some r else t !! k.
Proof. unfold objects_create. simpl. apply lookup_insert. Qed.

Lemma objects_create_fresh (r : R) t : t !! (objects_create r t).1.1 = None.
Proof. apply next_pk_fresh. Qed.

Lemma objects_create_preserves (r : R) t k x :
  t !! k = Some x → (objects_create r t).2 !! k = Some x.
Proof.
  intros Hk. rewrite objects_create_lookup. case_decide as E; [|done].
  rewrite <- E, objects_create_fresh in Hk. done.
Qed.

Lemma fetch_Ok c k t (i : inst R) :
  fetch c k t = Ok i ↔ i.1 = k ∧ t !! k = Some i.2.
Proof.
  unfold fetch. destruct (t !! k) as [r|]; destruct i as [k' r']; simpl.
  - split; [by intros [= -> ->]|by intros [-> [= ->]]].
  - split; [done|by intros [_ ?]].
Qed.

Lemma fetch_Raise c k t e :
  fetch c k t = Raise e → e = DoesNotExist c ∧ t !! k = None.
Proof. unfold fetch. destruct (t !! k); naive_solver. Qed.

End table_facts.

(** ** Unlocking *)

(** C2, as stated, fails.  With levels numbered 1 and 3 only, level 3 is
    unlocked for a user who has no progress row at all. *)
Lemma unlocked_without_previous_level :
  (is_unlocked_for_user (3, PuzzleLevel.mk 3 2 true) 7 gap_db).1 = Ok true
  ∧ ¬ ∃ k r, progress gap_db !! k = Some r
        ∧ UserLevelProgress.is_completed r = true.
Proof.
  split; [by vm_compute|]. intros (k & r & Hk & _).
  cbn [progress gap_db] in Hk. by rewrite lookup_empty in Hk.
Qed.

(** C2 (amended).  Level number 1 is unlocked for every user.  A level
    numbered N > 1 is unlocked exactly when a progress row of the user for
    the level numbered N - 1 is completed, provided a level with that number
    exists; when no level is numbered N - 1 it is unlocked.  The query
    writes nothing. *)
Theorem is_unlocked_for_user_spec (self : inst PuzzleLevel.t) (user : Z)
    (db : DB) :
  (is_unlocked_for_user self user db).2 = db
  ∧ (PuzzleLevel.level_number self.2 = 1 →
     (is_unlocked_for_user self user db).1 = Ok true)
  ∧ (1 < PuzzleLevel.level_number self.2 →
     (∀ pk prev, levels db !! pk = Some prev →
        PuzzleLevel.level_number prev = PuzzleLevel.level_number self.2 - 1 →
        unique_level_number db →
        ∃ b, (is_unlocked_for_user self user db).1 = Ok b
          ∧ (b = true ↔
             ∃ k r, progress db !! k = Some r
               ∧ UserLevelProgress.user r = user
               ∧ UserLevelProgress.level r = pk
               ∧ UserLevelProgress.is_completed r = true))
     ∧ ((∀ pk prev, levels db !! pk = Some prev →
           PuzzleLevel.level_number prev
             ≠ PuzzleLevel.level_number self.2 - 1) →
        (is_unlocked_for_user self user db).1 = Ok true)).
Proof.
  unfold is_unlocked_for_user. split_and!.
  - repeat case_bool_decide; [done..|]. unfold_M. simpl.
    destruct (objects_get _ _ (levels db)) as [prev|e]; simpl; [done|].
    by case_bool_decide.
  - intros ->. done.
  - intros Hgt. rewrite !bool_decide_eq_false_2 by lia. split.
    + intros pk prev Hpk Hnum Hul. unfold_M. simpl.
      rewrite (objects_get_unique _ PuzzleLevel_model (levels db) pk prev);
        [|done..|by intros k' r' Hk' Hnum'; eapply Hul; [done..|congruence]].
      simpl. eexists. split; [done|]. apply qs_exists_filter.
    + intros Hnone. unfold_M. simpl.
      assert (objects_get PuzzleLevel_model
        (λ r, PuzzleLevel.level_number r = PuzzleLevel.level_number self.2 - 1)
        (levels db) = Raise (DoesNotExist PuzzleLevel_model)) as ->.
      { apply objects_get_DoesNotExist. split; [done|]. intros k r Hk.
        by apply Hnone in Hk. }
      done.
Qed.

(** The theorem at level 2 of Scenario C, after user 7 has completed
    level 1. *)
Lemma is_unlocked_for_user_spec_witness :
  ∃ b, (is_unlocked_for_user (2, PuzzleLevel.mk 2 2 true) 7 claimed_db).1
       = Ok b
    ∧ (b = true ↔
       ∃ k r, progress claimed_db !! k = Some r
         ∧ UserLevelProgress.user r = 7
         ∧ UserLevelProgress.level r = 1
         ∧ UserLevelProgress.is_completed r = true).
Proof.
  destruct (is_unlocked_for_user_spec (2, PuzzleLevel.mk 2 2 true) 7
              claimed_db) as (_ & _ & H).
  destruct H as [Hprev _]; [simpl; lia|].
  apply (Hprev 1 (PuzzleLevel.mk 1 2 true)); [reflexivity|reflexivity|].
  apply (bool_decide_unpack _). vm_compute. exact I.
Defined.

(** ** Level progression *)

Lemma progress_get_or_create_cases user level db :
  let q := objects_get UserLevelProgress_model
             (λ r, UserLevelProgress.user r = user
                   ∧ UserLevelProgress.level r = level) (progress db) in
  let new := objects_create (default_progress user level) (progress db) in
  (∃ i, q = Ok i
        ∧ progress_get_or_create user level db = (Ok (i, false), db))
  ∨ (q = Raise (DoesNotExist UserLevelProgress_model)
     ∧ progress_get_or_create user level db
       = (Ok (new.1, true), set_progress new.2 db))
  ∨ (q = Raise (MultipleObjectsReturned UserLevelProgress_model)
     ∧ progress_get_or_create user level db
       = (Raise (MultipleObjectsReturned UserLevelProgress_model), db)).
Proof.
  intros q new. unfold progress_get_or_create. unfold_M. simpl. fold q.
  destruct q as [i|e] eqn:E; [left; eauto|].
  apply objects_get_Raise in E as [-> | ->]; [right; left|right; right]; done.
Qed.

Lemma progress_get_or_create_Ok user level db i created db' :
  progress_get_or_create user level db = (Ok (i, created), db') →
  progress db' !! i.1 = Some i.2
  ∧ UserLevelProgress.user i.2 = user
  ∧ UserLevelProgress.level i.2 = level.
Proof.
  destruct (progress_get_or_create_cases user level db)
    as [(j & Hq & ->)|[[_ ->]|[_ ->]]]; intros [= <- <- <-].
  - apply objects_get_Ok in Hq. naive_solver.
  - simpl. split; [|done]. apply lookup_insert_eq.
Qed.

Lemma progress_grows_refl db : progress_grows db db.
Proof.
  split; [done|]. intros k r Hk. exists r. repeat split; try done; try lia.
  congruence.
Qed.

Lemma progress_grows_trans db1 db2 db3 :
  progress_grows db1 db2 → progress_grows db2 db3 → progress_grows db1 db3.
Proof.
  intros [Hl1 H1] [Hl2 H2]. split; [congruence|].
  intros k r Hk.
  destruct (H1 k r Hk) as (r2 & Hk2 & Hlev2 & Hpc2 & Hc2 & Hn2).
  destruct (H2 k r2 Hk2) as (r3 & Hk3 & Hlev3 & Hpc3 & Hc3 & Hn3).
  exists r3. repeat split; [done|congruence|lia|by auto|].
  intros Hf Ht.
  destruct (UserLevelProgress.is_completed r2) eqn:E2.
  - destruct (Hn2 Hf eq_refl) as (lvl & Hlvl & Hreq).
    exists lvl. split; [done|lia].
  - destruct (Hn3 eq_refl Ht) as (lvl & Hlvl & Hreq).
    exists lvl. split; [congruence|done].
Qed.

Lemma progress_grows_other db db' :
  levels db' = levels db → progress db' = progress db →
  progress_grows db db'.
Proof.
  intros Hl Hp. split; [done|]. rewrite Hp.
  apply (progress_grows_refl db).
Qed.

Lemma progress_grows_create db r :
  UserLevelProgress.is_completed r = false →
  progress_grows db (set_progress (objects_create r (progress db)).2 db).
Proof.
  intros _. split; [done|]. intros k x Hk. exists x. simpl.
  split; [by apply objects_create_preserves|].
  repeat split; try done; try lia. congruence.
Qed.

Lemma progress_grows_save db (self : inst UserLevelProgress.t) r :
  progress db !! self.1 = Some r →
  UserLevelProgress.level self.2 = UserLevelProgress.level r →
  UserLevelProgress.puzzles_completed r
    ≤ UserLevelProgress.puzzles_completed self.2 →
  (UserLevelProgress.is_completed r = true →
   UserLevelProgress.is_completed self.2 = true) →
  (UserLevelProgress.is_completed r = false →
   UserLevelProgress.is_completed self.2 = true →
   ∃ lvl, levels db !! UserLevelProgress.level r = Some lvl
     ∧ PuzzleLevel.puzzles_required lvl
       ≤ UserLevelProgress.puzzles_completed self.2) →
  progress_grows db (set_progress (<[self.1 := self.2]> (progress db)) db).
Proof.
  intros Hk Hlev Hpc Hc Hn. split; [done|]. intros j x Hj. simpl.
  destruct (decide (self.1 = j)) as [<-|Hne].
  - rewrite lookup_insert_eq. exists self.2.
    rewrite Hk in Hj. injection Hj as <-. done.
  - rewrite lookup_insert_ne by done. exists x.
    repeat split; try done; try lia. congruence.
Qed.

Lemma progress_get_or_create_grows user level db :
  progress_grows db (progress_get_or_create user level db).2.
Proof.
  destruct (progress_get_or_create_cases user level db)
    as [(i & _ & ->)|[[_ ->]|[_ ->]]]; simpl;
    [apply progress_grows_refl|by apply progress_grows_create
    |apply progress_grows_refl].
Qed.

Lemma unlock_next_level_effect self db :
  (unlock_next_level self db).2 = db
  ∨ ∃ nl, PuzzleLevel.level_number <$> levels db !! nl.1
          = Some (PuzzleLevel.level_number nl.2)
    ∧ (unlock_next_level self db).2
      = (progress_get_or_create (UserLevelProgress.user self.2) nl.1 db).2.
Proof.
  unfold unlock_next_level. unfold_M. simpl.
  destruct (fetch _ _ (levels db)) as [lvl|e]. 2:{ by left. }
  destruct (objects_get _ _ (levels db)) as [nl|e] eqn:Hnl; simpl.
  - destruct (fetch _ _ (users db)) as [u|e] eqn:Hu; simpl;
      [|apply fetch_Raise in Hu as [-> _]; by left].
    apply fetch_Ok in Hu as [-> _]. right. exists nl.
    apply objects_get_Ok in Hnl as [-> _]. split; [done|].
    destruct (progress_get_or_create _ _ db) as [[[]|] ?]; simpl;
      [done|by case_bool_decide].
  - left. by case_bool_decide.
Qed.

Lemma unlock_next_level_grows self db :
  progress_grows db (unlock_next_level self db).2.
Proof.
  destruct (unlock_next_level_effect self db) as [->|(nl & _ & ->)].
  - apply progress_grows_refl.
  - apply progress_get_or_create_grows.
Qed.

Lemma check_completion_grows src clock self db :
  progress db !! self.1 = Some self.2 →
  progress_grows db (check_completion src clock self db).2.
Proof.
  intros Hself. unfold check_completion. unfold_M. simpl.
  destruct (fetch _ _ (levels db)) as [lvl|e] eqn:Hlvl;
    [|apply progress_grows_refl]. simpl.
  apply fetch_Ok in Hlvl as [_ Hlvl].
  destruct (bool_decide _ && negb _) eqn:Hguard;
    [|apply progress_grows_refl].
  apply andb_true_iff in Hguard as [Hreq Hnot].
  apply bool_decide_eq_true in Hreq. apply negb_true_iff in Hnot.
  destruct src; simpl; [|apply progress_grows_refl].
  match goal with
  | |- progress_grows db (match unlock_next_level ?s ?d with _ => _ end).2 =>
      pose proof (unlock_next_level_grows s d) as Hun;
      assert (progress_grows db d) as Hsave;
      [|destruct (unlock_next_level s d) as [[[]|] ?]; simpl in *;
        by eapply progress_grows_trans]
  end.
  apply (progress_grows_save db (self.1, _) self.2); simpl; try done.
  intros _ _. exists lvl.2. done.
Qed.

Lemma complete_attempt_grows src clock self score db :
  progress_grows db (complete_attempt src clock self score db).2.
Proof.
  unfold complete_attempt.
  destruct (negb _); [|apply progress_grows_refl].
  unfold_M. destruct src; simpl; [|apply progress_grows_refl].
  set (db1 := set_puzzle_attempts _ db).
  assert (progress_grows db db1) as H1 by by apply progress_grows_other.
  destruct (fetch _ _ (users db)) as [u|e]; simpl; [|done].
  destruct (fetch _ _ (level_puzzles db)) as [lp|e]; simpl; [|done].
  destruct (fetch _ _ (levels db)) as [lvl|e]; simpl; [|done].
  pose proof (progress_get_or_create_grows u.1 lvl.1 db1) as H2.
  destruct (progress_get_or_create u.1 lvl.1 db1) as [[[i created]|e] db2]
    eqn:Hgot; simpl in H2 |- *;
    [|eapply progress_grows_trans; [exact H1|exact H2]].
  apply progress_get_or_create_Ok in Hgot as (Hi & _ & _).
  match goal with
  | |- context [check_completion _ _ ?s ?d] =>
      assert (progress_grows db2 d) as H3;
      [|assert (progress d !! s.1 = Some s.2) as Hsync
          by apply lookup_insert_eq;
        pose proof (check_completion_grows games_models clock s d Hsync)
          as H4;
        destruct (check_completion games_models clock s d) as [[?|?] db4]
      ]
  end.
  - apply (progress_grows_save db2 (i.1, _) i.2); simpl; try done; [lia|].
    intros Hf Ht. congruence.
  - simpl in H4 |- *.
    eapply progress_grows_trans; [exact H1|].
    eapply progress_grows_trans; [exact H2|].
    eapply progress_grows_trans; [exact H3|].
    eapply progress_grows_trans; [exact H4|].
    by apply progress_grows_other.
  - simpl in H4 |- *.
    eapply progress_grows_trans; [exact H1|].
    eapply progress_grows_trans; [exact H2|].
    eapply progress_grows_trans; [exact H3|exact H4].
Qed.

Lemma run_op_grows db o : progress_grows db (run_op db o).
Proof.
  destruct o as [src clock k score|src clock k|k]; simpl.
  - destruct (puzzle_attempts db !! k);
      [apply complete_attempt_grows|apply progress_grows_refl].
  - destruct (progress db !! k) eqn:Hk;
      [by apply check_completion_grows|apply progress_grows_refl].
  - destruct (progress db !! k);
      [apply unlock_next_level_grows|apply progress_grows_refl].
Qed.

Lemma run_ops_grows ops db : progress_grows db (run_ops db ops).
Proof.
  revert db. induction ops as [|o ops IH]; intros db; simpl.
  - apply progress_grows_refl.
  - eapply progress_grows_trans; [apply run_op_grows|apply IH].
Qed.

(** C7.  Along every sequence of the core operations [complete_attempt],
    [check_completion] and [unlock_next_level], each applied to a row of the
    database, a level-progress row stays in the table for the same level,
    its [puzzles_completed] does not decrease, its [is_completed] does not
    go back from true to false, and when [is_completed] has gone from false
    to true the count meets [puzzles_required] of the row's level. *)
Theorem progress_is_monotone (ops : list core_op) (db : DB) (k : Z)
    (r : UserLevelProgress.t) :
  progress db !! k = Some r →
  ∃ r', progress (run_ops db ops) !! k = Some r'
    ∧ UserLevelProgress.puzzles_completed r
      ≤ UserLevelProgress.puzzles_completed r'
    ∧ (UserLevelProgress.is_completed r = true →
       UserLevelProgress.is_completed r' = true)
    ∧ (UserLevelProgress.is_completed r = false →
       UserLevelProgress.is_completed r' = true →
       ∃ lvl, levels (run_ops db ops) !! UserLevelProgress.level r'
              = Some lvl
         ∧ PuzzleLevel.puzzles_required lvl
           ≤ UserLevelProgress.puzzles_completed r').
Proof.
  intros Hk. destruct (run_ops_grows ops db) as [Hlv Hrows].
  destruct (Hrows k r Hk) as (r' & Hk' & Hlev & Hpc & Hc & Hn).
  exists r'. repeat split; [done..|].
  intros Hf Ht. rewrite Hlv, Hlev. by apply Hn.
Qed.

(** The theorem at Scenario C: claiming the second puzzle takes the row of
    user 7 for level 1 from one puzzle to completed. *)
Lemma progress_is_monotone_witness :
  ∃ r', progress claimed_db !! 1 = Some r'
    ∧ 1 ≤ UserLevelProgress.puzzles_completed r'
    ∧ UserLevelProgress.is_completed r' = true.
Proof.
  destruct (progress_is_monotone [op_complete_attempt games_models 100 2 30]
              scenario_db 1 (UserLevelProgress.mk 7 1 1 false None 50))
    as (r' & Hk & Hpc & _ & _).
  - reflexivity.
  - exists r'. split; [exact Hk|]. split; [exact Hpc|].
    vm_compute in Hk. injection Hk as <-. reflexivity.
Defined.

Lemma unlock_next_level_spec self lvl u db :
  levels db !! UserLevelProgress.level self.2 = Some lvl →
  users db !! UserLevelProgress.user self.2 = Some u →
  unique_level_number db →
  unique_user_level db →
  let user := UserLevelProgress.user self.2 in
  let N := PuzzleLevel.level_number lvl + 1 in
  (∃ nk nl, levels db !! nk = Some nl
     ∧ PuzzleLevel.level_number nl = N
     ∧ PuzzleLevel.is_active nl = true
     ∧ ((∃ k r, progress db !! k = Some r
           ∧ UserLevelProgress.user r = user
           ∧ UserLevelProgress.level r = nk
           ∧ unlock_next_level self db = (Ok tt, db))
        ∨ ((∀ k r, progress db !! k = Some r →
              ¬ (UserLevelProgress.user r = user
                 ∧ UserLevelProgress.level r = nk))
           ∧ unlock_next_level self db
             = (Ok tt,
                set_progress
                  (<[next_pk (progress db) := default_progress user nk]>
                     (progress db)) db))))
  ∨ ((∀ nk nl, levels db !! nk = Some nl →
        ¬ (PuzzleLevel.level_number nl = N
           ∧ PuzzleLevel.is_active nl = true))
     ∧ unlock_next_level self db = (Ok tt, db)).
Proof.
  intros Hlvl Hu Hul Hup. cbv zeta.
  destruct (objects_get_at_most_one
    (λ r, PuzzleLevel.level_number r = PuzzleLevel.level_number lvl + 1
          ∧ PuzzleLevel.is_active r = true)
    PuzzleLevel_model (levels db))
    as [(nk & nl & Hnk & [HN Hact] & Hnext)|[Hno Hnext]].
  { intros k1 k2 r1 r2 H1 H2 [E1 _] [E2 _].
    eapply Hul; [exact H1|exact H2|congruence]. }
  - left. exists nk, nl. split_and!; [done..|].
    destruct (objects_get_at_most_one
      (λ r, UserLevelProgress.user r = UserLevelProgress.user self.2
            ∧ UserLevelProgress.level r = nk)
      UserLevelProgress_model (progress db))
      as [(k & r & Hk & [Huser Hlev] & Hget)|[Hno Hget]].
    { intros k1 k2 r1 r2 H1 H2 [E1 E1'] [E2 E2'].
      eapply Hup; [exact H1|exact H2|congruence..]. }
    + left. exists k, r. split_and!; [done..|].
      unfold unlock_next_level. unfold_M. unfold fetch.
      rewrite Hlvl. simpl. rewrite Hnext, Hu. simpl.
      destruct (progress_get_or_create_cases
                  (UserLevelProgress.user self.2) nk db)
        as [(i & Hq & Hrun)|[[Hq _]|[Hq _]]]; rewrite Hget in Hq; [|done..].
      by rewrite Hrun.
    + right. split; [done|].
      unfold unlock_next_level. unfold_M. unfold fetch.
      rewrite Hlvl. simpl. rewrite Hnext, Hu. simpl.
      destruct (progress_get_or_create_cases
                  (UserLevelProgress.user self.2) nk db)
        as [(i & Hq & _)|[[_ Hrun]|[Hq _]]]; [by rewrite Hget in Hq|
        |by rewrite Hget in Hq].
      by rewrite Hrun.
  - right. split; [done|].
    unfold unlock_next_level. unfold_M. unfold fetch.
    rewrite Hlvl. simpl. by rewrite Hnext.
Qed.

Lemma unique_user_level_save db k r r' :
  progress db !! k = Some r →
  UserLevelProgress.user r' = UserLevelProgress.user r →
  UserLevelProgress.level r' = UserLevelProgress.level r →
  unique_user_level db →
  unique_user_level (set_progress (<[k := r']> (progress db)) db).
Proof.
  intros Hk Hu Hl Huniq k1 r1 H1 k2 r2 H2 Eu El. simpl in H1, H2.
  rewrite lookup_insert in H1, H2.
  destruct (decide (k = k1)) as [<-|N1], (decide (k = k2)) as [<-|N2];
    simplify_eq; [done|..].
  - eapply (Huniq k r Hk k2 r2 H2); congruence.
  - eapply (Huniq k1 r1 H1 k r Hk); congruence.
  - by eapply (Huniq k1 r1 H1 k2 r2 H2).
Qed.

(** C3, as stated, fails.  When the level with the next number is
    inactive, completing level 1 creates no progress row for it: the only
    row afterwards is the completed one. *)
Lemma inactive_next_level_gets_no_row :
  let row := UserLevelProgress.mk 7 1 2 false None 80 in
  let res := check_completion games_models 100 (1, row) next_inactive_db in
  res.1 = Ok (1, completed_now 100 row)
  ∧ levels next_inactive_db !! 2 = Some (PuzzleLevel.mk 2 2 false)
  ∧ map_to_list (progress res.2) = [(1, completed_now 100 row)].
Proof. by vm_compute. Qed.

(** C3 (amended).  [check_completion] of [games/models.py] on a progress
    row whose count meets the level's requirement and that is not yet
    completed marks it completed, stamps [completed_at] and leaves every
    other existing row alone; it creates a progress row only for an active
    level whose number is the next one, and creates it when such a level
    exists and the user has no row for it; when no active level has the
    next number, no row is created.  On a row that is already completed it
    changes nothing, in either module. *)
Theorem check_completion_cascade :
  (∀ clock (self : inst UserLevelProgress.t) lvl u db,
     progress db !! self.1 = Some self.2 →
     levels db !! UserLevelProgress.level self.2 = Some lvl →
     users db !! UserLevelProgress.user self.2 = Some u →
     unique_level_number db →
     unique_user_level db →
     PuzzleLevel.puzzles_required lvl
       ≤ UserLevelProgress.puzzles_completed self.2 →
     UserLevelProgress.is_completed self.2 = false →
     let finished := completed_now clock self.2 in
     let res := check_completion games_models clock self db in
     let next := PuzzleLevel.level_number lvl + 1 in
     res.1 = Ok (self.1, finished)
     ∧ progress res.2 !! self.1 = Some finished
     ∧ (∀ k r, k ≠ self.1 → progress db !! k = Some r →
          progress res.2 !! k = Some r)
     ∧ (∀ k r, progress res.2 !! k = Some r → progress db !! k = None →
          r = default_progress (UserLevelProgress.user self.2)
                (UserLevelProgress.level r)
          ∧ ∃ nl, levels db !! UserLevelProgress.level r = Some nl
              ∧ PuzzleLevel.level_number nl = next
              ∧ PuzzleLevel.is_active nl = true)
     ∧ (∀ nk nl, levels db !! nk = Some nl →
          PuzzleLevel.level_number nl = next →
          PuzzleLevel.is_active nl = true →
          ∃ k r, progress res.2 !! k = Some r
            ∧ UserLevelProgress.user r = UserLevelProgress.user self.2
            ∧ UserLevelProgress.level r = nk)
     ∧ ((∀ nk nl, levels db !! nk = Some nl →
           PuzzleLevel.level_number nl = next →
           PuzzleLevel.is_active nl = false) →
        progress res.2 = <[self.1 := finished]> (progress db)))
  ∧ (∀ src clock (self : inst UserLevelProgress.t) db,
       UserLevelProgress.is_completed self.2 = true →
       (check_completion src clock self db).2 = db
       ∧ ∀ lvl, levels db !! UserLevelProgress.level self.2 = Some lvl →
           (check_completion src clock self db).1 = Ok self).
Proof.
  split.
  - intros clock self lvl u db Hself Hlvl Hu Hul Hup Hreq Hnot.
    cbv zeta.
    set (finished := completed_now clock self.2).
    set (db1 := set_progress (<[self.1 := finished]> (progress db)) db).
    assert (check_completion games_models clock self db
            = match unlock_next_level (self.1, finished) db1 with
              | (Ok _, db2) => (Ok (self.1, finished), db2)
              | (Raise e, db2) => (Raise e, db2)
              end) as ->.
    { unfold check_completion. unfold_M. unfold fetch. rewrite Hlvl. simpl.
      rewrite Hnot, bool_decide_eq_true_2 by done. simpl.
      by destruct (unlock_next_level _ _) as [[[]|] ?]. }
    assert (unique_user_level db1) as Hup1
      by by apply (unique_user_level_save db self.1 self.2).
    assert (∀ k r, k ≠ self.1 → progress db !! k = Some r →
              progress db1 !! k = Some r) as Hother.
    { intros k r Hne Hk. simpl. by rewrite lookup_insert_ne. }
    assert (progress db1 !! self.1 = Some finished) as Hmine
      by apply lookup_insert_eq.
    assert (∀ k r, progress db1 !! k = Some r → progress db !! k = None →
              False) as Hnonew.
    { intros k r Hk Hnone. simpl in Hk. rewrite lookup_insert in Hk.
      case_decide; simplify_eq. }
    destruct (unlock_next_level_spec (self.1, finished) lvl u db1)
      as [(nk & nl & Hnk & HN & Hact & [(k & r & Hk & Hku & Hkl & ->)
                                        |[Hno ->]])|[Hno ->]];
      [done..| | |]; simpl fst; simpl snd.
    + split_and!; try done.
      * intros k' r' Hk' Hnone. by destruct (Hnonew k' r').
      * intros nk' nl' Hnk' HN' Hact'.
        assert (nk' = nk) as -> by (eapply Hul; [done..|congruence]).
        by exists k, r.
    + pose proof (next_pk_fresh (progress db1)) as Hf.
      assert (next_pk (progress db1) ≠ self.1) as Hfresh.
      { intros E. rewrite E, Hmine in Hf. done. }
      unfold db1 in *. cbn [progress set_progress] in *.
      split_and!; try done.
      * by rewrite lookup_insert_ne.
      * intros k' r' Hne Hk'. apply Hother in Hk'; [|done].
        rewrite lookup_insert_ne; [done|].
        intros E. rewrite E, Hk' in Hf. done.
      * intros k' r' Hk' Hnone. rewrite lookup_insert in Hk'.
        case_decide as E; [|by destruct (Hnonew k' r')].
        injection Hk' as <-. simpl. split; [done|]. by exists nl.
      * intros nk' nl' Hnk' HN' Hact'.
        assert (nk' = nk) as -> by (eapply Hul; [done..|congruence]).
        eexists _, _. split; [apply lookup_insert_eq|done].
      * intros Hinactive. rewrite (Hinactive nk nl Hnk HN) in Hact. done.
    + split_and!; try done.
      * intros k' r' Hk' Hnone. by destruct (Hnonew k' r').
      * intros nk nl Hnk HN Hact. by destruct (Hno nk nl Hnk).
  - intros src clock self db Hdone.
    unfold check_completion. unfold_M. unfold fetch.
    destruct (levels db !! _) as [lvl|]; simpl; [|split; [done|]; done].
    rewrite Hdone, andb_false_r. split; [done|]. intros ? _. by destruct self.
Qed.

(** The theorem at the progress row of user 7 for level 1 of Scenario C,
    once both puzzles are counted. *)
Lemma check_completion_cascade_witness :
  let res := check_completion games_models 100 (1, ready_row) ready_db in
  res.1 = Ok (1, completed_now 100 ready_row)
  ∧ ∃ k r, progress res.2 !! k = Some r
      ∧ UserLevelProgress.user r = 7
      ∧ UserLevelProgress.level r = 2.
Proof.
  destruct check_completion_cascade as [H _]. cbv zeta.
  destruct (H 100 (1, ready_row) (PuzzleLevel.mk 1 2 true) (User.mk 50)
              ready_db) as (H1 & _ & _ & _ & H5 & _).
  - reflexivity.
  - reflexivity.
  - reflexivity.
  - apply (bool_decide_unpack _). vm_compute. exact I.
  - apply (bool_decide_unpack _). vm_compute. exact I.
  - simpl. lia.
  - reflexivity.
  - split; [exact H1|].
    apply (H5 2 (PuzzleLevel.mk 2 2 true)); reflexivity.
Defined.

(** What the two methods of [games/models.py] have written when they
    return, whether or not a later step raised. *)
Lemma progress_get_or_create_frame user level db :
  puzzle_attempts (progress_get_or_create user level db).2
  = puzzle_attempts db.
Proof.
  by destruct (progress_get_or_create_cases user level db)
    as [(i & _ & ->)|[[_ ->]|[_ ->]]].
Qed.

Lemma unlock_next_level_frame self db :
  puzzle_attempts (unlock_next_level self db).2 = puzzle_attempts db.
Proof.
  destruct (unlock_next_level_effect self db) as [->|(nl & _ & ->)];
    [done|apply progress_get_or_create_frame].
Qed.

Lemma check_completion_frame src clock self db :
  puzzle_attempts (check_completion src clock self db).2
  = puzzle_attempts db.
Proof.
  unfold check_completion. unfold_M.
  destruct (fetch _ _ (levels db)) as [lvl|e]; simpl; [|done].
  destruct (_ && _); simpl; [|done].
  destruct src; simpl; [|done].
  match goal with
  | |- context [unlock_next_level ?s ?d] =>
      pose proof (unlock_next_level_frame s d) as Hf;
      destruct (unlock_next_level s d) as [[[]|e] ?]; simpl in *; done
  end.
Qed.

Lemma complete_attempt_saves clock (self : inst UserPuzzleAttempt.t) score db :
  UserPuzzleAttempt.is_completed self.2 = false →
  ∃ r, puzzle_attempts (complete_attempt games_models clock self score db).2
       !! self.1 = Some r
    ∧ UserPuzzleAttempt.is_completed r = true
    ∧ UserPuzzleAttempt.score_earned r = score
    ∧ UserPuzzleAttempt.completed_at r = Some clock.
Proof.
  intros Hnot. unfold complete_attempt. rewrite Hnot. unfold_M. simpl.
  exists {| UserPuzzleAttempt.user := UserPuzzleAttempt.user self.2;
            UserPuzzleAttempt.level_puzzle :=
              UserPuzzleAttempt.level_puzzle self.2;
            UserPuzzleAttempt.shape_game_attempt :=
              UserPuzzleAttempt.shape_game_attempt self.2;
            UserPuzzleAttempt.is_completed := true;
            UserPuzzleAttempt.score_earned := score;
            UserPuzzleAttempt.completed_at := Some clock |}.
  split; [|done].
  destruct (fetch _ _ (users db)) as [u|e]; simpl;
    [|apply lookup_insert_eq].
  destruct (fetch _ _ (level_puzzles db)) as [lp|e]; simpl;
    [|apply lookup_insert_eq].
  destruct (fetch _ _ (levels db)) as [lvl|e]; simpl;
    [|apply lookup_insert_eq].
  match goal with
  | |- context [progress_get_or_create ?a ?b ?d] =>
      pose proof (progress_get_or_create_frame a b d) as H1;
      destruct (progress_get_or_create a b d) as [[got|e] db2]; simpl in *;
      [|rewrite H1; apply lookup_insert_eq]
  end.
  match goal with
  | |- context [check_completion _ _ ?s ?d] =>
      pose proof (check_completion_frame games_models clock s d) as H2;
      destruct (check_completion games_models clock s d) as [[?|e] db3];
      simpl in *; rewrite H2, H1; apply lookup_insert_eq
  end.
Qed.

Lemma check_completion_saves clock (self : inst UserLevelProgress.t) lvl db :
  levels db !! UserLevelProgress.level self.2 = Some lvl →
  PuzzleLevel.puzzles_required lvl
    ≤ UserLevelProgress.puzzles_completed self.2 →
  UserLevelProgress.is_completed self.2 = false →
  ∃ r, progress (check_completion games_models clock self db).2 !! self.1
       = Some r
    ∧ UserLevelProgress.is_completed r = true.
Proof.
  intros Hlvl Hreq Hnot.
  unfold check_completion. unfold_M. unfold fetch. rewrite Hlvl. simpl.
  rewrite Hnot, bool_decide_eq_true_2 by done. simpl.
  match goal with
  | |- context [unlock_next_level ?s ?d] =>
      destruct (unlock_next_level_grows s d) as [_ Hrows];
      destruct (Hrows self.1 (completed_now clock self.2))
        as (r & Hr & _ & _ & Hdone & _); [apply lookup_insert_eq|];
      destruct (unlock_next_level s d) as [[[]|e] ?]; simpl in *;
      exists r; split; auto
  end.
Qed.

(** C10.  In [games/level_models.py], [check_completion] on a row whose
    guard holds and [complete_attempt] on an attempt that is not completed
    raise [AttributeError] when they evaluate [models.timezone.now()], and
    nothing has been saved.  The same methods of [games/models.py] never
    raise [AttributeError]; called on a stored row with the same guard,
    with counts, respectively a score, that a [PositiveIntegerField] holds
    in every database (0 to 2147483647), they leave the row, respectively
    the attempt with the score and the time of the call, saved as
    completed. *)
Theorem level_models_completion_raises :
  (∀ clock (self : inst UserLevelProgress.t) lvl db,
     levels db !! UserLevelProgress.level self.2 = Some lvl →
     PuzzleLevel.puzzles_required lvl
       ≤ UserLevelProgress.puzzles_completed self.2 →
     UserLevelProgress.is_completed self.2 = false →
     check_completion games_level_models clock self db
     = (Raise AttributeError, db))
  ∧ (∀ clock (self : inst UserPuzzleAttempt.t) score db,
       UserPuzzleAttempt.is_completed self.2 = false →
       complete_attempt games_level_models clock self score db
       = (Raise AttributeError, db))
  ∧ (∀ clock self db,
       (check_completion games_models clock self db).1
       ≠ Raise AttributeError)
  ∧ (∀ clock self score db,
       (complete_attempt games_models clock self score db).1
       ≠ Raise AttributeError)
  ∧ (∀ clock (self : inst UserLevelProgress.t) lvl db,
       progress db !! self.1 = Some self.2 →
       levels db !! UserLevelProgress.level self.2 = Some lvl →
       PuzzleLevel.puzzles_required lvl
         ≤ UserLevelProgress.puzzles_completed self.2 →
       UserLevelProgress.is_completed self.2 = false →
       0 ≤ UserLevelProgress.puzzles_completed self.2 ≤ 2147483647 →
       0 ≤ UserLevelProgress.total_score self.2 ≤ 2147483647 →
       ∃ r, progress (check_completion games_models clock self db).2
              !! self.1 = Some r
         ∧ UserLevelProgress.is_completed r = true)
  ∧ (∀ clock (self : inst UserPuzzleAttempt.t) score db,
       puzzle_attempts db !! self.1 = Some self.2 →
       UserPuzzleAttempt.is_completed self.2 = false →
       0 ≤ score ≤ 2147483647 →
       ∃ r, puzzle_attempts
              (complete_attempt games_models clock self score db).2
            !! self.1 = Some r
         ∧ UserPuzzleAttempt.is_completed r = true
         ∧ UserPuzzleAttempt.score_earned r = score
         ∧ UserPuzzleAttempt.completed_at r = Some clock).
Proof.
  assert (∀ self db, (unlock_next_level self db).1 ≠ Raise AttributeError)
    as Hunlock.
  { intros self db. unfold unlock_next_level. unfold_M.
    destruct (fetch _ _ (levels db)) as [lvl|e] eqn:Hl; simpl;
      [|by apply fetch_Raise in Hl as [-> _]].
    destruct (objects_get _ _ (levels db)) as [nl|e] eqn:Hn; simpl.
    - destruct (fetch _ _ (users db)) as [u|e] eqn:Hu; simpl;
        [|by apply fetch_Raise in Hu as [-> _]].
      destruct (progress_get_or_create_cases u.1 nl.1 db)
        as [(i & _ & ->)|[[_ ->]|[_ ->]]]; done.
    - apply objects_get_Raise in Hn as [-> | ->]; done. }
  assert (∀ clock self db,
    (check_completion games_models clock self db).1 ≠ Raise AttributeError)
    as Hcheck.
  { intros clock self db. unfold check_completion. unfold_M.
    destruct (fetch _ _ (levels db)) as [lvl|e] eqn:Hl; simpl;
      [|by apply fetch_Raise in Hl as [-> _]].
    destruct (_ && _); simpl; [|done].
    match goal with
    | |- context [unlock_next_level ?s ?d] =>
        pose proof (Hunlock s d) as Hne;
        destruct (unlock_next_level s d) as [[[]|e] ?]; simpl in *;
        [done|congruence]
    end. }
  split_and!.
  - intros clock self lvl db Hlvl Hreq Hnot.
    unfold check_completion. unfold_M. unfold fetch. rewrite Hlvl. simpl.
    by rewrite Hnot, bool_decide_eq_true_2.
  - intros clock self score db Hnot.
    unfold complete_attempt. by rewrite Hnot.
  - done.
  - intros clock self score db. unfold complete_attempt.
    destruct (negb _); [|done]. unfold_M. simpl.
    destruct (fetch _ _ (users db)) as [u|e] eqn:Hu; simpl;
      [|by apply fetch_Raise in Hu as [-> _]].
    destruct (fetch _ _ (level_puzzles db)) as [lp|e] eqn:Hlp; simpl;
      [|by apply fetch_Raise in Hlp as [-> _]].
    destruct (fetch _ _ (levels db)) as [lvl|e] eqn:Hl; simpl;
      [|by apply fetch_Raise in Hl as [-> _]].
    match goal with
    | |- context [progress_get_or_create ?a ?b ?d] =>
        destruct (progress_get_or_create_cases a b d)
          as [(i & _ & ->)|[[_ ->]|[_ ->]]]; simpl; [| |done]
    end.
    all: match goal with
    | |- context [check_completion _ _ ?s ?d] =>
        pose proof (Hcheck clock s d) as Hne;
        destruct (check_completion games_models clock s d) as [[?|e] ?];
        simpl in *; [done|congruence]
    end.
  - intros clock self lvl db _ Hlvl Hreq Hnot _ _.
    by eapply check_completion_saves.
  - intros clock self score db _ Hnot _.
    by apply complete_attempt_saves.
Qed.

(** The theorem at Scenario C: the progress row once both puzzles are
    counted, and the unclaimed level attempt 2, claimed for 30 points. *)
Lemma level_models_completion_raises_witness :
  check_completion games_level_models 100 (1, ready_row) ready_db
  = (Raise AttributeError, ready_db)
  ∧ complete_attempt games_level_models 100
      (2, UserPuzzleAttempt.mk 7 2 2 false 0 None) 30 scenario_db
    = (Raise AttributeError, scenario_db)
  ∧ (∃ r, progress
            (check_completion games_models 100 (1, ready_row) ready_db).2
          !! 1 = Some r
       ∧ UserLevelProgress.is_completed r = true)
  ∧ (∃ r, puzzle_attempts
            (complete_attempt games_models 100
               (2, UserPuzzleAttempt.mk 7 2 2 false 0 None) 30
               scenario_db).2
          !! 2 = Some r
       ∧ UserPuzzleAttempt.is_completed r = true
       ∧ UserPuzzleAttempt.score_earned r = 30).
Proof.
  destruct level_models_completion_raises as (H1 & H2 & _ & _ & H5 & H6).
  split_and!.
  - apply (H1 100 (1, ready_row) (PuzzleLevel.mk 1 2 true) ready_db).
    + reflexivity.
    + simpl. lia.
    + reflexivity.
  - apply H2. reflexivity.
  - destruct (H5 100 (1, ready_row) (PuzzleLevel.mk 1 2 true) ready_db)
      as (r & Hr & Hdone).
    + reflexivity.
    + reflexivity.
    + simpl. lia.
    + reflexivity.
    + simpl. lia.
    + simpl. lia.
    + exists r. split; [exact Hr|exact Hdone].
  - destruct (H6 100 (2, UserPuzzleAttempt.mk 7 2 2 false 0 None) 30
                scenario_db) as (r & Hr & Hdone & Hscore & _).
    + reflexivity.
    + reflexivity.
    + lia.
    + exists r. split; [exact Hr|]. split; [exact Hdone|exact Hscore].
Defined.

(** ** Finalising attempts *)

Lemma attempt_get_or_create_cases clock user game db :
  let q := objects_get ShapeGameAttempt_model
             (λ r, ShapeGameAttempt.user r = user
                   ∧ ShapeGameAttempt.shape_game r = game
                   ∧ ShapeGameAttempt.status r = IN_PROGRESS)
             (shape_attempts db) in
  let new := objects_create (new_attempt clock user game)
               (shape_attempts db) in
  (∃ i, q = Ok i
        ∧ attempt_get_or_create clock user game db = (Ok (i, false), db))
  ∨ (q = Raise (DoesNotExist ShapeGameAttempt_model)
     ∧ attempt_get_or_create clock user game db
       = (Ok (new.1, true), set_shape_attempts new.2 db))
  ∨ (q = Raise (MultipleObjectsReturned ShapeGameAttempt_model)
     ∧ attempt_get_or_create clock user game db
       = (Raise (MultipleObjectsReturned ShapeGameAttempt_model), db)).
Proof.
  intros q new. unfold attempt_get_or_create. unfold_M. simpl. fold q.
  destruct q as [i|e] eqn:E; [left; eauto|].
  apply objects_get_Raise in E as [-> | ->]; [right; left|right; right]; done.
Qed.

(** What [attempt_get_or_create] guarantees about the attempt it returns:
    it is a row of the resulting table, it is in progress, no attempt that
    is not in progress was touched, and it is a new row when the user had
    no attempt in progress at the game. *)
Lemma attempt_get_or_create_spec clock user game db :
  let res := attempt_get_or_create clock user game db in
  progress res.2 = progress db
  ∧ puzzle_attempts res.2 = puzzle_attempts db
  ∧ users res.2 = users db
  ∧ shape_games res.2 = shape_games db
  ∧ (∀ k a, shape_attempts db !! k = Some a →
       shape_attempts res.2 !! k = Some a)
  ∧ (∀ i created, res.1 = Ok (i, created) →
       shape_attempts res.2 !! i.1 = Some i.2
       ∧ ShapeGameAttempt.status i.2 = IN_PROGRESS
       ∧ ((∀ k a, shape_attempts db !! k = Some a →
             ¬ (ShapeGameAttempt.user a = user
                ∧ ShapeGameAttempt.shape_game a = game
                ∧ ShapeGameAttempt.status a = IN_PROGRESS)) →
          shape_attempts db !! i.1 = None)).
Proof.
  destruct (attempt_get_or_create_cases clock user game db)
    as [(j & Hq & Hrun)|[[Hq Hrun]|[Hq Hrun]]]; cbv zeta; rewrite Hrun;
    simpl; split_and!; try done.
  - intros i created [= <- <-].
    apply objects_get_Ok in Hq as (Hj & Hu & Hg & Hs).
    split_and!; [done..|]. intros Hno. by destruct (Hno _ _ Hj).
  - intros k a Hk. by apply objects_create_preserves.
  - intros i created [= <- <-]. simpl. split_and!; [|done|].
    + apply lookup_insert_eq.
    + intros _. apply next_pk_fresh.
Qed.

(** C1, as stated, fails.  Attempt 1 of user 7 at game 1 is completed, with
    score 50 and accuracy 100.  A further finalize request of user 7 for
    game 1, with a wrong placement, creates attempt 3, scores it and
    returns score 0 and accuracy 0 instead of the stored result. *)
Lemma second_finalize_rescores :
  let res := api_save_shape_game_state 30000000 7 1
               (finalize_request [place "1,1" 1]) scenario_db in
  shape_attempts scenario_db !! 1 = Some (solved_attempt 1 50)
  ∧ res.1 = Ok (Success 3 0 0%Q)
  ∧ ShapeGameAttempt.status <$> shape_attempts res.2 !! 3 = Some COMPLETED
  ∧ res.1 ≠ Ok (Success 1 50 100%Q).
Proof. by vm_compute. Qed.

(** C1 (amended).  [complete_attempt] on a level attempt that is already
    completed changes nothing, so the level's [puzzles_completed] is not
    changed a second time.  [api_save_shape_game_state] never writes to the
    level-progress, level-attempt or user tables and never modifies a stored
    attempt that is not in progress.  A request with status [completed]
    that succeeds returns the score and accuracy the validator gives to the
    placements submitted with that request, stored on a completed attempt;
    when the user has no attempt in progress at the game, that attempt is a
    new row. *)
Theorem finalize_is_per_attempt :
  (∀ src clock (self : inst UserPuzzleAttempt.t) score db,
     UserPuzzleAttempt.is_completed self.2 = true →
     complete_attempt src clock self score db = (Ok self, db))
  ∧ (∀ clock user game_id data db,
       let res := api_save_shape_game_state clock user game_id data db in
       let placements := default (JObj []) (rq_current_state data) in
       progress res.2 = progress db
       ∧ puzzle_attempts res.2 = puzzle_attempts db
       ∧ users res.2 = users db
       ∧ (∀ k a, shape_attempts db !! k = Some a →
            ShapeGameAttempt.status a ≠ IN_PROGRESS →
            shape_attempts res.2 !! k = Some a)
       ∧ (∀ k s acc, res.1 = Ok (Success k s acc) →
            rq_status data = Some "completed" →
            (∃ g v a, shape_games db !! game_id = Some g
               ∧ validate_shape_placement g placements = Ok v
               ∧ s = final_score v
               ∧ acc = accuracy v
               ∧ shape_attempts res.2 !! k = Some a
               ∧ ShapeGameAttempt.status a = COMPLETED
               ∧ ShapeGameAttempt.score a = s
               ∧ ShapeGameAttempt.accuracy a = acc)
            ∧ ((∀ k' a', shape_attempts db !! k' = Some a' →
                  ¬ (ShapeGameAttempt.user a' = user
                     ∧ ShapeGameAttempt.shape_game a' = game_id
                     ∧ ShapeGameAttempt.status a' = IN_PROGRESS)) →
               shape_attempts db !! k = None))).
Proof.
  split.
  { intros src clock self score db Hdone. unfold complete_attempt.
    by rewrite Hdone. }
  intros clock user game_id data db. cbv zeta.
  unfold api_save_shape_game_state. unfold_M. simpl.
  unfold get_game_or_404.
  destruct (shape_games db !! game_id) as [g|] eqn:Hg; simpl;
    [|by split_and!].
  destruct (game_is_active g); simpl; [|by split_and!].
  pose proof (attempt_get_or_create_spec clock user game_id db) as Hgoc.
  cbv zeta in Hgoc.
  destruct (attempt_get_or_create clock user game_id db)
    as [[[i created]|e] db1]; simpl in Hgoc |- *;
    destruct Hgoc as (Hp & Hpa & Hu & Hsg & Hkeep & Hnew);
    [|split_and!; try done; intros k a Hk _; by apply Hkeep].
  destruct (Hnew i created eq_refl) as (Hi & Hst & Hfresh).
  assert (∀ k a x, shape_attempts db !! k = Some a →
            ShapeGameAttempt.status a ≠ IN_PROGRESS →
            <[i.1 := x]> (shape_attempts db1) !! k = Some a) as Hsave.
  { intros k a x Hk Hne. apply Hkeep in Hk.
    rewrite lookup_insert_ne; [done|]. intros <-. congruence. }
  destruct (py_len _) as [n|e]; simpl;
    [|split_and!; try done; intros k a Hk _; by apply Hkeep].
  case_bool_decide as Hstatus; simpl.
  - destruct (validate_shape_placement_total g
                (default (JObj []) (rq_current_state data))) as [v Hv].
    rewrite Hv. simpl. split_and!; try done; [by eauto|].
    intros k s acc [= <- <- <-] _. split; [|done].
    exists g, v. eexists.
    split_and!;
      [done|done|done|done|apply lookup_insert_eq|done|done|done].
  - split_and!; try done. by eauto.
Qed.

(** The theorem at Scenario C: the claimed level attempt 1 of user 7, and
    a further finalize request of user 7 for game 1. *)
Lemma finalize_is_per_attempt_witness :
  let claimed := (1, UserPuzzleAttempt.mk 7 1 1 true 50 (Some 20000000)) in
  let res := api_save_shape_game_state 30000000 7 1
               (finalize_request [place "1,1" 3]) scenario_db in
  complete_attempt games_models 30000000 claimed 50 scenario_db
  = (Ok claimed, scenario_db)
  ∧ progress res.2 = progress scenario_db
  ∧ shape_attempts res.2 !! 1 = Some (solved_attempt 1 50)
  ∧ shape_attempts scenario_db !! 3 = None.
Proof.
  destruct finalize_is_per_attempt as [H1 H2]. cbv zeta. split.
  - apply H1. reflexivity.
  - destruct (H2 30000000 7 1 (finalize_request [place "1,1" 3])
                scenario_db) as (Hp & _ & _ & Hkeep & Hnew).
    split; [exact Hp|]. split.
    + apply Hkeep; [reflexivity|discriminate].
    + apply (Hnew 3 50 100%Q); [vm_compute; reflexivity|reflexivity|].
      intros k a Hk (_ & _ & Hs).
      apply (map_Forall_lookup_1 (λ _ a, ShapeGameAttempt.status a
                                         = COMPLETED)) in Hk.
      * congruence.
      * apply (bool_decide_unpack _). vm_compute. exact I.
Defined.

(** ** Achievements *)

Lemma earned_true user achievement ua :
  earned user achievement ua = true ↔
  ∃ j r, ua !! j = Some r ∧ UserAchievement.user r = user
         ∧ UserAchievement.achievement r = achievement.
Proof. unfold earned. apply qs_exists_filter. Qed.

Lemma elem_of_qualifying kind metric ach k a :
  (k, a) ∈ qualifying kind metric ach ↔
  ach !! k = Some a ∧ Achievement.requirement_type a = kind
  ∧ Achievement.requirement_value a ≤ metric
  ∧ Achievement.is_active a = true.
Proof.
  unfold qualifying. rewrite elem_of_map_to_list.
  unfold objects_filter. rewrite map_lookup_filter_Some. simpl. tauto.
Qed.

Lemma NoDup_qualifying kind metric ach :
  NoDup (qualifying kind metric ach).*1.
Proof. apply NoDup_fst_map_to_list. Qed.

Lemma elem_of_not_yet_earned user ua l x :
  x ∈ not_yet_earned user ua l ↔ earned user x.1 ua = false ∧ x ∈ l.
Proof. unfold not_yet_earned. by rewrite list_elem_of_filter. Qed.

Lemma NoDup_not_yet_earned user ua l :
  NoDup l.*1 → NoDup (not_yet_earned user ua l).*1.
Proof.
  intros Hl. apply (sublist_NoDup _ l.*1); [done|].
  apply fmap_sublist. unfold not_yet_earned. apply sublist_filter.
Qed.

Lemma elem_of_achievements_to_award user db k a :
  (k, a) ∈ achievements_to_award user db ↔
  achievements db !! k = Some a
  ∧ Achievement.is_active a = true
  ∧ meets_requirement user db a
  ∧ earned user.1 k (user_achievements db) = false.
Proof.
  unfold achievements_to_award, meets_requirement.
  rewrite !elem_of_app, !elem_of_not_yet_earned, !elem_of_qualifying.
  simpl. tauto.
Qed.

Lemma NoDup_achievements_to_award user db :
  NoDup (achievements_to_award user db).*1.
Proof.
  unfold achievements_to_award. rewrite !fmap_app.
  assert (∀ kind metric k,
    k ∈ (not_yet_earned user.1 (user_achievements db)
           (qualifying kind metric (achievements db))).*1 →
    ∃ a, achievements db !! k = Some a
         ∧ Achievement.requirement_type a = kind) as Hkind.
  { intros kind metric k [[k' a] [-> Hin]]%list_elem_of_fmap.
    apply elem_of_not_yet_earned in Hin as [_ Hin].
    apply elem_of_qualifying in Hin as (Hk & Hty & _). by exists a. }
  assert (∀ kind1 kind2 m1 m2 k, kind1 ≠ kind2 →
    k ∈ (not_yet_earned user.1 (user_achievements db)
           (qualifying kind1 m1 (achievements db))).*1 →
    k ∉ (not_yet_earned user.1 (user_achievements db)
           (qualifying kind2 m2 (achievements db))).*1) as Hdisj.
  { intros kind1 kind2 m1 m2 k Hne H1 H2.
    apply Hkind in H1 as (a1 & Ha1 & E1), H2 as (a2 & Ha2 & E2).
    rewrite Ha1 in Ha2. injection Ha2 as <-. congruence. }
  apply NoDup_app. split_and!.
  - apply NoDup_not_yet_earned, NoDup_qualifying.
  - intros k H1 [H2|H2]%elem_of_app; by eapply Hdisj in H2.
  - apply NoDup_app. split_and!.
    + apply NoDup_not_yet_earned, NoDup_qualifying.
    + intros k H1 H2. by eapply Hdisj in H2.
    + apply NoDup_not_yet_earned, NoDup_qualifying.
Qed.

Lemma award_spec l : ∀ user db,
  unique_user_achievement db →
  NoDup l.*1 →
  (∀ a, a ∈ l → earned user.1 a.1 (user_achievements db) = false) →
  ∃ db',
    award user l db
    = (Ok (user.1,
           {| User.total_score := User.total_score user.2 + points l |}),
       db')
    ∧ unique_user_achievement db'
    ∧ users db' = users db
    ∧ (∀ j r, user_achievements db !! j = Some r →
         user_achievements db' !! j = Some r)
    ∧ (∀ j r, user_achievements db' !! j = Some r →
         user_achievements db !! j = Some r
         ∨ (UserAchievement.user r = user.1
            ∧ UserAchievement.achievement r ∈ l.*1))
    ∧ (∀ a, a ∈ l → earned user.1 a.1 (user_achievements db') = true).
Proof.
  induction l as [|a l IH]; intros user db Huniq Hnd Hnot; simpl.
  - exists db. unfold_M. destruct user as [k [s]]; simpl.
    rewrite Z.add_0_r. split_and!; try done; [by left|].
    intros a Ha. by apply elem_of_nil in Ha.
  - apply NoDup_cons in Hnd as [Hfresh Hnd].
    unfold_M. simpl.
    set (row := {| UserAchievement.user := user.1;
                   UserAchievement.achievement := a.1 |}).
    set (ua1 := (objects_create row (user_achievements db)).2).
    set (db1 := set_user_achievements ua1 db).
    set (user1 := (user.1, {| User.total_score :=
       User.total_score user.2 + Achievement.points_reward a.2 |})
       : inst User.t).
    assert (∀ j r, user_achievements db !! j = Some r →
              user_achievements db1 !! j = Some r) as Hkeep.
    { intros j r Hj. by apply objects_create_preserves. }
    assert (∀ j r, user_achievements db1 !! j = Some r →
              user_achievements db !! j = Some r ∨ r = row) as Hback.
    { intros j r Hj. simpl in Hj. unfold ua1 in Hj.
      rewrite objects_create_lookup in Hj. case_decide; naive_solver. }
    assert (earned user.1 a.1 (user_achievements db) = false) as Ha
      by apply Hnot, list_elem_of_here.
    assert (unique_user_achievement db1) as Huniq1.
    { intros k1 r1 H1 k2 r2 H2 Eu Ea.
      pose proof (next_pk_fresh (user_achievements db)) as Hnone.
      simpl in H1, H2. unfold ua1 in H1, H2.
      rewrite objects_create_lookup in H1, H2. simpl in H1, H2.
      destruct (decide (next_pk (user_achievements db) = k1)) as [<-|N1],
        (decide (next_pk (user_achievements db) = k2)) as [<-|N2];
        [done| | |by eapply (Huniq k1 r1 H1 k2 r2 H2)].
      - injection H1 as <-. simpl in Eu, Ea.
        assert (earned user.1 a.1 (user_achievements db) = true) as Ht
          by (apply earned_true; eauto).
        congruence.
      - injection H2 as <-. simpl in Eu, Ea.
        assert (earned user.1 a.1 (user_achievements db) = true) as Ht
          by (apply earned_true; eauto).
        congruence. }
    destruct (IH user1 db1 Huniq1 Hnd)
      as (db' & Hrun & Hu' & Hus & Hk' & Hb' & He').
    { intros a' Ha'. simpl.
      destruct (earned user.1 a'.1 (user_achievements db1)) eqn:E; [|done].
      apply earned_true in E as (j & r & Hj & Eu & Ea).
      apply Hback in Hj as [Hj| ->].
      - assert (earned user.1 a'.1 (user_achievements db) = true) as Ht
          by (apply earned_true; eauto).
        rewrite Hnot in Ht; [done|by apply list_elem_of_further].
      - simpl in Ea. destruct Hfresh. rewrite Ea.
        apply list_elem_of_fmap. by exists a'. }
    exists db'. split.
    { etrans; [exact Hrun|]. simpl. by rewrite Z.add_assoc. }
    split_and!; try done.
    + eauto.
    + intros j r Hj. apply Hb' in Hj as [Hj|[Eu Ea]].
      * apply Hback in Hj as [Hj| ->]; [by left|].
        right. simpl. split; [done|]. apply list_elem_of_here.
      * right. split; [done|]. by apply list_elem_of_further.
    + intros a' [->|Ha']%elem_of_cons; [|by apply He'].
      apply earned_true. exists (next_pk (user_achievements db)), row.
      split; [|done]. apply Hk'. simpl. apply lookup_insert_eq.
Qed.

Lemma check_user_achievements_spec user db :
  unique_user_achievement db →
  let awarded := achievements_to_award user db in
  let user' : inst User.t :=
    (user.1,
     {| User.total_score := User.total_score user.2 + points awarded |}) in
  ∃ db',
    check_user_achievements user db = (Ok (awarded, user'), db')
    ∧ unique_user_achievement db'
    ∧ (∀ j r, user_achievements db !! j = Some r →
         user_achievements db' !! j = Some r)
    ∧ (∀ a, a ∈ awarded →
         earned user.1 a.1 (user_achievements db') = true)
    ∧ (awarded ≠ [] → users db' !! user.1 = Some user'.2).
Proof.
  intros Huniq. cbv zeta.
  destruct (award_spec (achievements_to_award user db) user db)
    as (db1 & Hrun & Hu1 & Hus & Hk & _ & He);
    [done|apply NoDup_achievements_to_award|..].
  { intros [k a] (_ & _ & _ & Hne)%elem_of_achievements_to_award. done. }
  unfold check_user_achievements. unfold_M. simpl. rewrite Hrun.
  case_bool_decide as Hempty; simpl.
  - eexists. split; [done|]. simpl. split_and!; try done.
    intros _. apply lookup_insert_eq.
  - exists db1. split_and!; try done.
Qed.

(** What an evaluation pass does with the instance it is given.  However
    many passes run, for whatever instances, the table of granted
    achievements keeps at most one row for each pair of a user and an
    achievement.  A single pass awards exactly the active achievements that
    the user has not been granted and whose requirement is reached by the
    statistics of the database, respectively by the total score of the
    instance [user]; afterwards each of them is granted, nothing granted
    before is lost, and the total it stores is that of the instance plus
    the sum of their [points_reward]. *)
Theorem achievements_granted_once :
  (∀ users db,
     unique_user_achievement db →
     unique_user_achievement (evaluate_all db users))
  ∧ (∀ (user : inst User.t) db,
       unique_user_achievement db →
       ∃ awarded db',
         check_user_achievements user db
         = (Ok (awarded,
                (user.1,
                 {| User.total_score :=
                      User.total_score user.2 + points awarded |})),
            db')
         ∧ (∀ k a, (k, a) ∈ awarded ↔
              achievements db !! k = Some a
              ∧ Achievement.is_active a = true
              ∧ meets_requirement user db a
              ∧ earned user.1 k (user_achievements db) = false)
         ∧ NoDup awarded.*1
         ∧ (∀ k a, (k, a) ∈ awarded →
              earned user.1 k (user_achievements db') = true)
         ∧ (∀ j r, user_achievements db !! j = Some r →
              user_achievements db' !! j = Some r)
         ∧ (awarded ≠ [] →
            users db' !! user.1
            = Some {| User.total_score :=
                        User.total_score user.2 + points awarded |})).
Proof.
  split.
  - intros users. induction users as [|user users IH]; intros db Huniq;
      simpl; [done|].
    apply IH.
    destruct (check_user_achievements_spec user db Huniq)
      as (db' & -> & Hu' & _). done.
  - intros user db Huniq.
    destruct (check_user_achievements_spec user db Huniq)
      as (db' & Hrun & Hu' & Hk & He & Hs).
    exists (achievements_to_award user db), db'. split_and!; try done.
    + intros k a. apply elem_of_achievements_to_award.
    + apply NoDup_achievements_to_award.
    + intros k a Hin. by apply (He (k, a)).
Qed.

(** The theorem at Scenario C, after two evaluation passes for user 7. *)
Lemma achievements_granted_once_witness :
  unique_user_achievement
    (evaluate_all claimed_db [(7, User.mk 80); (7, User.mk 150)]).
Proof.
  destruct achievements_granted_once as [H _].
  apply H. apply (bool_decide_unpack _). vm_compute. exact I.
Defined.

(** C8.  The claim fails at the one place the evaluator is called from.  In
    Scenario C user 7, whose stored total is 50, claims puzzle 2 for 30
    points.  [complete_attempt] raises the stored total to 80 through the
    instance it loads itself, and [complete_level_puzzle] then passes its
    own instance, loaded before with total 50, to
    [check_user_achievements].  The pass grants achievement 1 (one level
    completed, 50 points) but not achievement 2 (a score of 60 reached, 20
    points), which the stored total of 80 reaches and which a pass on the
    stored row would grant; and it stores 50 + 50 = 100 as the user's
    total, so that the 30 points of the puzzle are lost instead of the
    rewards being added to them. *)
Theorem stale_user_misses_achievement :
  let user : inst User.t := (7, User.mk 50) in
  let attempt : inst UserPuzzleAttempt.t :=
    (2, UserPuzzleAttempt.mk 7 2 2 false 0 None) in
  let db1 := (complete_attempt games_models 100 attempt 30 scenario_db).2 in
  let res := complete_level_puzzle 100 user 1 2 scenario_db in
  users scenario_db !! 7 = Some user.2
  ∧ puzzle_attempts scenario_db !! 2 = Some attempt.2
  ∧ res.1 = Ok (LevelSuccess 30 2 2 100%Q true true)
  ∧ users db1 !! 7 = Some (User.mk 80)
  ∧ (check_user_achievements user db1).2 = res.2
  ∧ achievements db1 !! 2 = Some (Achievement.mk 20 "score_reached" 60 true)
  ∧ meets_requirement (7, User.mk 80) db1
      (Achievement.mk 20 "score_reached" 60 true)
  ∧ user_achievements db1 = ∅
  ∧ (achievements_to_award (7, User.mk 80) db1).*1 = [1; 2]
  ∧ (achievements_to_award user db1).*1 = [1]
  ∧ user_achievements res.2 = {[ 1 := UserAchievement.mk 7 1 ]}
  ∧ users res.2 !! 7 = Some (User.mk 100).
Proof.
  cbv zeta. split_and!; try (vm_compute; reflexivity).
  right. right. split; [reflexivity|]. simpl. lia.
Qed.

(** ** Scores and percentages of the models *)

(** The quotient [c / t * 100] reaches 100 exactly when [c] reaches [t]. *)
Lemma ratio_below_100 (c t : Z) :
  0 < t →
  Qle_bool 100 (inject_Z c / inject_Z t * inject_Z 100) = bool_decide (t ≤ c).
Proof.
  intros Ht. destruct t as [|p|p]; [lia| |lia].
  apply eq_true_iff_eq. rewrite Qle_bool_iff, bool_decide_eq_true.
  unfold Qle, Qdiv, Qmult, Qinv. simpl. split; nia.
Qed.

(** X1.  For counts in the range a [PositiveIntegerField] is specified to
    hold (0 to 2147483647), [completion_percentage] of a progress row lies
    between 0 and 100, and it is 100 exactly when the row has at least as
    many completed puzzles as its level requires, which includes every
    level that requires none. *)
Theorem completion_percentage_full (self : UserLevelProgress.t)
    (level : PuzzleLevel.t) :
  0 ≤ UserLevelProgress.puzzles_completed self ≤ 2147483647 →
  0 ≤ PuzzleLevel.puzzles_required level ≤ 2147483647 →
  (0 <= completion_percentage self level)%Q
  ∧ (completion_percentage self level <= 100)%Q
  ∧ (completion_percentage self level = 100%Q
     ↔ PuzzleLevel.puzzles_required level
       ≤ UserLevelProgress.puzzles_completed self).
Proof.
  intros Hc Hr. unfold completion_percentage.
  case_bool_decide as Hz.
  { split_and!; [done|done|]. split; [lia|done]. }
  unfold py_min. rewrite ratio_below_100 by lia.
  case_bool_decide as Hle.
  { split_and!; [done|done|done]. }
  assert (0 < PuzzleLevel.puzzles_required level) as Hpos by lia.
  destruct (PuzzleLevel.puzzles_required level) as [|p|p] eqn:Ep; [lia| |lia].
  split_and!.
  - unfold Qle, Qdiv, Qmult, Qinv. simpl. nia.
  - unfold Qle, Qdiv, Qmult, Qinv. simpl. nia.
  - split; [|lia]. intros Heq. exfalso.
    assert (inject_Z (UserLevelProgress.puzzles_completed self)
            / inject_Z (Z.pos p) * inject_Z 100 == 100)%Q as Hq
      by (rewrite Heq; reflexivity).
    revert Hq. unfold Qeq, Qdiv, Qmult, Qinv. simpl. nia.
Qed.

(** The theorem at a row with two puzzles of the two its level requires. *)
Lemma completion_percentage_full_witness :
  (completion_percentage ready_row (PuzzleLevel.mk 1 2 true) = 100%Q
   ↔ 2 ≤ 2).
Proof.
  apply (completion_percentage_full ready_row (PuzzleLevel.mk 1 2 true));
    simpl; lia.
Defined.

(** Counting question cells never lowers the running total. *)
Lemma count_cells_ge cells total : total ≤ count_cells cells total.
Proof.
  revert total. induction cells as [|cell cells IH]; intros total; simpl.
  - lia.
  - destruct (py_eq cell (JStr "?")); [specialize (IH (total + 1))|
      specialize (IH total)]; lia.
Qed.

Lemma count_rows_ge rows total n :
  count_rows rows total = Ok n → total ≤ n.
Proof.
  revert total. induction rows as [|row rows IH]; intros total; simpl.
  - intros [= <-]. lia.
  - destruct (py_iter row) as [cells|]; [|done]. simpl.
    intros H%IH. pose proof (count_cells_ge cells total). lia.
Qed.

(** What a result that reports no error was computed from. *)
Lemma validate_shape_placement_Ok game placements r :
  validate_shape_placement game placements = Ok r →
  error r = None →
  ∃ items,
    placements = JObj items
    ∧ question_cell_count (grid_data game) = Ok (total_questions r)
    ∧ 0 ≤ total_questions r
    ∧ correct_count r = Z.of_nat
        (length (filter (λ i, item_correct (solution_data game) i = true)
                   items))
    ∧ incorrect_count r = Z.of_nat
        (length (filter (λ i, item_correct (solution_data game) i = false)
                   items))
    ∧ final_score r
      = Z.max 0 (correct_count r * points_per_correct game
                 - incorrect_count r * penalty_per_wrong game)
    ∧ accuracy r
      = round2 (if bool_decide (0 < total_questions r)%Z
                then inject_Z (correct_count r)
                     / inject_Z (total_questions r) * inject_Z 100
                else 0)%Q
    ∧ is_complete r
      = bool_decide (Z.of_nat (length items) = total_questions r)
    ∧ is_perfect r
      = bool_decide (incorrect_count r = 0)
        && bool_decide (Z.of_nat (length items) = total_questions r).
Proof.
  unfold validate_shape_placement, validate_try, question_cell_count.
  destruct (py_iter (grid_data game)) as [rows|]; simpl;
    [|by intros [= <-]].
  destruct (count_rows rows 0) as [total|] eqn:Hrows; simpl;
    [|by intros [= <-]].
  destruct placements as [| | | | |items]; simpl; try by intros [= <-].
  destruct (check_placements _ items _) as [t|] eqn:Ht; simpl;
    [|by intros [= <-]].
  intros [= <-] _. simpl.
  apply check_placements_tally in Ht as [-> ->]. simpl.
  apply count_rows_ge in Hrows.
  exists items. split_and!; done.
Qed.

(** X2.  When the validator reports no error on a game whose
    [points_per_correct] and [penalty_per_wrong] are not negative,
    [calculate_max_score] returns the number of question cells times
    [points_per_correct]; a result with no more correct placements than
    question cells scores at most that, and a perfect result scores exactly
    that. *)
Theorem final_score_within_max_score (game : ShapeGame) (placements : json)
    (r : ValidationResult) :
  validate_shape_placement game placements = Ok r →
  error r = None →
  0 ≤ points_per_correct game →
  0 ≤ penalty_per_wrong game →
  ∃ m, calculate_max_score game = Ok m
    ∧ m = total_questions r * points_per_correct game
    ∧ (correct_count r ≤ total_questions r → final_score r ≤ m)
    ∧ (is_perfect r = true → final_score r = m).
Proof.
  intros Hrun Herr Hp Hw.
  apply validate_shape_placement_Ok in Hrun
    as (items & -> & Hq & Ht & Hc & Hi & Hs & _ & _ & Hperf); [|done].
  exists (total_questions r * points_per_correct game).
  unfold calculate_max_score. rewrite Hq. simpl.
  split_and!; [done|done| |].
  - intros Hle. rewrite Hs. nia.
  - rewrite Hperf. intros [Hz Hlen]%andb_true_iff.
    apply bool_decide_eq_true in Hz, Hlen.
    pose proof (filter_partition_length
      (item_correct (solution_data game)) items) as Hsum.
    rewrite Hs. nia.
Qed.

(** The theorem at the Scenario A game with its one question cell
    answered correctly. *)
Lemma final_score_within_max_score_witness :
  ∃ r m, validate_shape_placement scenario_game (JObj [place "1,1" 3]) = Ok r
    ∧ calculate_max_score scenario_game = Ok m
    ∧ final_score r = m.
Proof.
  destruct (validate_shape_placement_total scenario_game
              (JObj [place "1,1" 3])) as [r Hr].
  destruct (final_score_within_max_score scenario_game
              (JObj [place "1,1" 3]) r Hr) as (m & Hm & _ & _ & Hperf).
  - revert Hr. vm_compute. by intros [= <-].
  - vm_compute. discriminate.
  - vm_compute. discriminate.
  - exists r, m. split; [exact Hr|]. split; [exact Hm|].
    apply Hperf. revert Hr. vm_compute. by intros [= <-].
Defined.

(** The attempt a successful save request leaves in the table. *)
Lemma api_save_shape_game_state_Success clock user game_id data db k s acc :
  let res := api_save_shape_game_state clock user game_id data db in
  let placements := default (JObj []) (rq_current_state data) in
  res.1 = Ok (Success k s acc) →
  ∃ g a0 n a,
    shape_games db !! game_id = Some g
    ∧ shape_games res.2 = shape_games db
    ∧ ShapeGameAttempt.shape_game a0 = game_id
    ∧ ShapeGameAttempt.user a0 = user
    ∧ py_len placements = Ok n
    ∧ shape_attempts res.2 !! k = Some a
    ∧ s = ShapeGameAttempt.score a
    ∧ acc = ShapeGameAttempt.accuracy a
    ∧ (if bool_decide (rq_status data = Some "completed")
       then ∃ v, validate_shape_placement g placements = Ok v
              ∧ a = finalize
                      (update_state a0 placements (default 0 (rq_score data))
                         n)
                      clock v
       else a = update_state a0 placements (default 0 (rq_score data)) n).
Proof.
  cbv zeta. unfold api_save_shape_game_state. unfold_M. simpl.
  unfold get_game_or_404.
  destruct (shape_games db !! game_id) as [g|] eqn:Hg; simpl; [|done].
  destruct (game_is_active g); simpl; [|done].
  assert ((∃ i created db1,
    attempt_get_or_create clock user game_id db = (Ok (i, created), db1)
    ∧ shape_games db1 = shape_games db
    ∧ ShapeGameAttempt.shape_game i.2 = game_id
    ∧ ShapeGameAttempt.user i.2 = user)
    ∨ ∃ e db1, attempt_get_or_create clock user game_id db = (Raise e, db1))
    as Hgoc.
  { destruct (attempt_get_or_create_cases clock user game_id db)
      as [(j & Hq & Hrun)|[[Hq Hrun]|[Hq Hrun]]].
    - apply objects_get_Ok in Hq as (_ & Hu & Hgm & _).
      left. by exists j, false, db.
    - left. eexists _, true, _. split; [exact Hrun|done].
    - right. by eexists _, _. }
  destruct Hgoc
    as [(i & created & db1 & Hrun & Hsg & Hgm & Hu)|(e & db2 & Hrun)];
    rewrite Hrun; simpl; [|done].
  destruct (py_len _) as [n|e] eqn:Hn; simpl; [|done].
  case_bool_decide as Hstatus; simpl.
  - destruct (validate_shape_placement_total g
                (default (JObj []) (rq_current_state data))) as [v Hv].
    rewrite Hv. simpl. intros [= <- <- <-].
    exists g, i.2, n. eexists.
    split_and!;
      [done|done|done|done|done|apply lookup_insert_eq|done|done|].
    by exists v.
  - intros [= <- <- <-]. exists g, i.2, n. eexists.
    split_and!;
      [done|done|done|done|done|apply lookup_insert_eq|done|done|done].
Qed.

(** The score and the signs of the counts of a validation result. *)
Lemma final_score_of_counts game placements v :
  validate_shape_placement game placements = Ok v →
  final_score v
  = Z.max 0 (correct_count v * points_per_correct game
             - incorrect_count v * penalty_per_wrong game)
  ∧ 0 ≤ correct_count v ∧ 0 ≤ incorrect_count v.
Proof.
  unfold validate_shape_placement.
  destruct (validate_try game placements) as [r|e] eqn:Hrun; intros [= <-].
  - apply validate_try_Ok in Hrun as (items & _ & _ & Hc & Hi & Hs).
    split_and!; [done|lia|lia].
  - done.
Qed.

(** X3.  After a save request with status ["completed"] that succeeds, the
    stored attempt is completed, and the score stored in it, which is the
    score of the response, is what [ShapeGameAttempt.calculate_score]
    computes from the stored placement counts and the attempt's game. *)
Theorem stored_score_is_calculate_score clock user game_id data db k s acc :
  let res := api_save_shape_game_state clock user game_id data db in
  res.1 = Ok (Success k s acc) →
  rq_status data = Some "completed" →
  ∃ a shape_game,
    shape_attempts res.2 !! k = Some a
    ∧ shape_games res.2 !! ShapeGameAttempt.shape_game a = Some shape_game
    ∧ ShapeGameAttempt.status a = COMPLETED
    ∧ calculate_score a shape_game = ShapeGameAttempt.score a
    ∧ ShapeGameAttempt.score a = s.
Proof.
  intros res Hres Hstatus.
  apply api_save_shape_game_state_Success in Hres
    as (g & a0 & n & a & Hg & Hsg & Hgame & _ & _ & Ha & -> & _ & Hfin).
  rewrite bool_decide_eq_true_2 in Hfin by done.
  destruct Hfin as (v & Hv & ->).
  apply final_score_of_counts in Hv as (Hs & _ & _).
  exists (finalize (update_state a0 (default (JObj []) (rq_current_state data))
                      (default 0 (rq_score data)) n) clock v), g.
  fold res in Ha, Hsg. rewrite Hsg. simpl. rewrite Hgame.
  split_and!; done.
Qed.

(** The theorem at a wrong answer of user 7 to game 1 of Scenario C. *)
Lemma stored_score_is_calculate_score_witness :
  let res := api_save_shape_game_state 30000000 7 1
               (finalize_request [place "1,1" 1]) scenario_db in
  ∃ a shape_game,
    shape_attempts res.2 !! 3 = Some a
    ∧ shape_games res.2 !! ShapeGameAttempt.shape_game a = Some shape_game
    ∧ calculate_score a shape_game = ShapeGameAttempt.score a.
Proof.
  destruct (stored_score_is_calculate_score 30000000 7 1
              (finalize_request [place "1,1" 1]) scenario_db 3 0 0%Q)
    as (a & g & Ha & Hg & _ & Hs & _).
  - vm_compute. reflexivity.
  - reflexivity.
  - exists a, g. split; [exact Ha|]. split; [exact Hg|exact Hs].
Defined.

(** [calculate_accuracy] on counts that are not negative. *)
Lemma calculate_accuracy_bounds (self : ShapeGameAttempt.t) :
  0 ≤ ShapeGameAttempt.correct_placements self →
  0 ≤ ShapeGameAttempt.incorrect_placements self →
  (0 <= calculate_accuracy self)%Q ∧ (calculate_accuracy self <= 100)%Q.
Proof.
  intros Hc Hi. unfold calculate_accuracy. cbv zeta.
  case_bool_decide as Hz; [done|].
  apply round2_bounds; apply percentage_bounds; lia.
Qed.

(** X4.  After every save request that succeeds, [calculate_accuracy] of
    the stored attempt lies between 0 and 100. *)
Theorem calculate_accuracy_is_percentage clock user game_id data db k s acc :
  let res := api_save_shape_game_state clock user game_id data db in
  res.1 = Ok (Success k s acc) →
  ∃ a, shape_attempts res.2 !! k = Some a
    ∧ (0 <= calculate_accuracy a)%Q
    ∧ (calculate_accuracy a <= 100)%Q.
Proof.
  intros res Hres.
  apply api_save_shape_game_state_Success in Hres
    as (g & a0 & n & a & _ & _ & _ & _ & Hn & Ha & _ & _ & Hfin).
  exists a. split; [exact Ha|].
  apply calculate_accuracy_bounds.
  - case_bool_decide.
    + destruct Hfin as (v & Hv & ->). simpl.
      by apply final_score_of_counts in Hv as (_ & ? & _).
    + subst a. simpl.
      destruct (default (JObj []) (rq_current_state data));
        simpl in Hn; try done; injection Hn as <-; lia.
  - case_bool_decide.
    + destruct Hfin as (v & Hv & ->). simpl.
      by apply final_score_of_counts in Hv as (_ & _ & ?).
    + by subst a.
Qed.

(** The theorem at a request with a correct placement and an empty one at
    a position outside the grid: the response reports 200, the method at
    most 100. *)
Lemma calculate_accuracy_is_percentage_witness :
  let res := api_save_shape_game_state 30000000 7 1
               (finalize_request [place "1,1" 3; ("9,9", JObj [])])
               scenario_db in
  res.1 = Ok (Success 3 100 200%Q)
  ∧ ∃ a, shape_attempts res.2 !! 3 = Some a
      ∧ (calculate_accuracy a <= 100)%Q.
Proof.
  split; [vm_compute; reflexivity|].
  destruct (calculate_accuracy_is_percentage 30000000 7 1
              (finalize_request [place "1,1" 3; ("9,9", JObj [])])
              scenario_db 3 100 200%Q) as (a & Ha & _ & Hle).
  - vm_compute. reflexivity.
  - exists a. split; [exact Ha|exact Hle].
Defined.

(** X5.  When the validator finds as many placements as question cells
    ([is_complete]), the accuracy that finalising stores in the attempt is
    the one [calculate_accuracy] computes from the stored counts. *)
Theorem calculate_accuracy_of_complete_attempt (game : ShapeGame)
    (placements : json) (v : ValidationResult) (a : ShapeGameAttempt.t)
    (clock : Z) :
  validate_shape_placement game placements = Ok v →
  is_complete v = true →
  calculate_accuracy (finalize a clock v)
  = ShapeGameAttempt.accuracy (finalize a clock v).
Proof.
  intros Hv Hcomplete.
  assert (error v = None) as Herr.
  { revert Hv Hcomplete. unfold validate_shape_placement.
    destruct (validate_try game placements) as [r|e] eqn:Hrun;
      intros [= <-]; [|done].
    by apply validate_try_Ok in Hrun as (items & _ & -> & _). }
  apply validate_shape_placement_Ok in Hv
    as (items & _ & _ & Ht & Hc & Hi & _ & Hacc & Hcomp & _); [|done].
  rewrite Hcomp in Hcomplete. apply bool_decide_eq_true in Hcomplete.
  pose proof (filter_partition_length
    (item_correct (solution_data game)) items) as Hsum.
  assert (correct_count v + incorrect_count v = total_questions v) as Htot
    by lia.
  unfold calculate_accuracy. simpl. rewrite Hacc, Htot.
  repeat case_bool_decide; try lia; reflexivity.
Qed.

(** The theorem at a wrong answer to the one question cell of the
    Scenario A game. *)
Lemma calculate_accuracy_of_complete_attempt_witness :
  ∃ v, validate_shape_placement scenario_game (JObj [place "1,1" 1]) = Ok v
    ∧ calculate_accuracy (finalize (new_attempt 0 7 1) 5000000 v) = 0%Q.
Proof.
  destruct (validate_shape_placement_total scenario_game
              (JObj [place "1,1" 1])) as [v Hv].
  exists v. split; [exact Hv|].
  rewrite (calculate_accuracy_of_complete_attempt scenario_game
             (JObj [place "1,1" 1]) v (new_attempt 0 7 1) 5000000 Hv).
  - revert Hv. vm_compute. by intros [= <-].
  - revert Hv. vm_compute. by intros [= <-].
Defined.

(** The base score of every difficulty. *)
Lemma base_scores_bounds difficulty :
  100 ≤ GameSession.base_scores difficulty ≤ 500.
Proof. unfold GameSession.base_scores. repeat case_bool_decide; lia. Qed.

(** X6.  With hint and mistake counts that are not negative, the score of
    a Sudoku session lies between 0 and 600, and it is 0 as soon as the
    penalty [hints_used * 10 + mistakes_made * 5] reaches 600. *)
Theorem session_score_bounds (self : GameSession.t) (difficulty : string) :
  0 ≤ GameSession.hints_used self →
  0 ≤ GameSession.mistakes_made self →
  0 ≤ GameSession.calculate_score self difficulty ≤ 600
  ∧ (600 ≤ GameSession.hints_used self * 10
            + GameSession.mistakes_made self * 5 →
     GameSession.calculate_score self difficulty = 0).
Proof.
  intros Hh Hm. unfold GameSession.calculate_score. cbv zeta.
  pose proof (base_scores_bounds difficulty) as Hb.
  case_bool_decide; [lia|].
  destruct (GameSession.duration self) as [d|]; [|lia].
  case_bool_decide; [|lia].
  assert (0 ≤ timedelta_seconds d `div` 60) as Hs.
  { apply Z.div_pos; [|lia]. unfold timedelta_seconds.
    apply Z.mod_pos_bound. lia. }
  lia.
Qed.

(** The theorem at a hard session of 90 seconds with two hints and one
    mistake. *)
Lemma session_score_bounds_witness :
  0 ≤ GameSession.calculate_score
        (GameSession.mk 7 1 JNull COMPLETED 0 (Some 90000000) 0 2 1) "hard"
    ≤ 600.
Proof.
  apply (session_score_bounds
           (GameSession.mk 7 1 JNull COMPLETED 0 (Some 90000000) 0 2 1) "hard");
    simpl; lia.
Defined.

(** X7.  The time bonus reads the seconds component of the duration only:
    a session that ends a whole number of days later has the same score. *)
Theorem time_bonus_wraps_daily (self : GameSession.t) (difficulty : string)
    (e days : Z) :
  GameSession.end_time self = Some e →
  GameSession.start_time self < e →
  0 ≤ days →
  GameSession.calculate_score
    (GameSession.with_end_time self (e + days * 86400000000)) difficulty
  = GameSession.calculate_score self difficulty.
Proof.
  intros He Hlt Hd. unfold GameSession.calculate_score, GameSession.duration.
  rewrite He. simpl.
  case_bool_decide; [done|].
  rewrite !bool_decide_eq_true_2 by lia.
  replace (timedelta_seconds
             (e + days * 86400000000 - GameSession.start_time self))
    with (timedelta_seconds (e - GameSession.start_time self)); [done|].
  unfold timedelta_seconds.
  replace (e + days * 86400000000 - GameSession.start_time self)
    with (e - GameSession.start_time self + days * 86400 * 1000000) by lia.
  rewrite Z.div_add by lia. by rewrite Z.mod_add by lia.
Qed.

(** The theorem at an easy session of one minute and one of a day and a
    minute. *)
Lemma time_bonus_wraps_daily_witness :
  GameSession.calculate_score
    (GameSession.mk 7 1 JNull COMPLETED 0
       (Some (60000000 + 1 * 86400000000)) 0 0 0)
    "easy"
  = GameSession.calculate_score
      (GameSession.mk 7 1 JNull COMPLETED 0 (Some 60000000) 0 0 0) "easy".
Proof.
  apply (time_bonus_wraps_daily
           (GameSession.mk 7 1 JNull COMPLETED 0 (Some 60000000) 0 0 0) "easy"
           60000000 1).
  - reflexivity.
  - simpl. lia.
  - lia.
Defined.

(** ** Sudoku moves *)

(** One loop of [validate_sudoku_move] over the cells [cells]. *)
Lemma no_conflict_spec board value other cells :
  (∀ rc, rc ∈ cells → other rc = true →
     is_Some (board_cell board rc.1 rc.2)) →
  ∃ b, no_conflict board value other cells = Some b
    ∧ (b = true ↔
       ∀ rc x, rc ∈ cells → other rc = true →
         board_cell board rc.1 rc.2 = Some x →
         py_eq x (JNum value) = false).
Proof.
  induction cells as [|rc cells IH]; intros Hdef; simpl.
  - exists true. split; [done|]. split; [|done].
    intros _ rc x Hin. by apply elem_of_nil in Hin.
  - destruct IH as (b & Hb & Hiff).
    { intros rc' Hin. apply Hdef. by apply list_elem_of_further. }
    destruct (other rc) eqn:Ho.
    + destruct (Hdef rc (list_elem_of_here _ _) Ho) as [x Hx].
      unfold board_cell in Hx.
      destruct (py_index board rc.1) as [row|] eqn:Hrow; [|done].
      simpl in Hx |- *. rewrite Hx. simpl.
      destruct (py_eq x (JNum value)) eqn:Heq.
      * exists false. split; [done|]. split; [done|].
        intros Hall.
        assert (py_eq x (JNum value) = false) as Hne; [|congruence].
        apply (Hall rc x); [apply list_elem_of_here|done|].
        unfold board_cell. by rewrite Hrow.
      * exists b. split; [done|]. rewrite Hiff. split.
        -- intros Hall rc' x' [->|Hin]%elem_of_cons Ho' Hx'.
           ++ unfold board_cell in Hx'. rewrite Hrow in Hx'. simpl in Hx'.
              congruence.
           ++ by eapply Hall.
        -- intros Hall rc' x' Hin. apply Hall. by apply list_elem_of_further.
    + exists b. split; [done|]. rewrite Hiff. split.
      * intros Hall rc' x' [->|Hin]%elem_of_cons Ho' Hx'; [congruence|].
        by eapply Hall.
      * intros Hall rc' x' Hin. apply Hall. by apply list_elem_of_further.
Qed.

(** A board with its 81 cells. *)
Lemma has_cells_spec board r c :
  has_cells board = true → 0 ≤ r < 9 → 0 ≤ c < 9 →
  is_Some (board_cell board r c).
Proof.
  unfold has_cells. rewrite forallb_forall. intros Hall Hr Hc.
  apply (bool_decide_eq_true_1 _), (Hall (r, c)), list_elem_of_In.
  apply list_elem_of_bind. exists r. split; [|apply elem_of_seqZ; lia].
  apply list_elem_of_bind. exists c. split; [|apply elem_of_seqZ; lia].
  apply list_elem_of_singleton. done.
Qed.

Lemma elem_of_cells (f : Z → Z → Z * Z) (m1 m2 : Z) (rc : Z * Z) :
  rc ∈ (r ← seqZ m1 3; c ← seqZ m2 3; [f r c]) ↔
  ∃ r c, rc = f r c ∧ m1 ≤ r < m1 + 3 ∧ m2 ≤ c < m2 + 3.
Proof.
  rewrite list_elem_of_bind. split.
  - intros (r & (c & ->%list_elem_of_singleton & Hc%elem_of_seqZ)
              %list_elem_of_bind & Hr%elem_of_seqZ).
    by exists r, c.
  - intros (r & c & -> & Hr & Hc). exists r.
    split; [|by apply elem_of_seqZ].
    apply list_elem_of_bind. exists c.
    split; [by apply list_elem_of_singleton|by apply elem_of_seqZ].
Qed.

Lemma elem_of_line (f : Z → Z * Z) (rc : Z * Z) :
  rc ∈ (i ← seqZ 0 9; [f i]) ↔ ∃ i, rc = f i ∧ 0 ≤ i < 9.
Proof.
  rewrite list_elem_of_bind. split.
  - intros (i & ->%list_elem_of_singleton & Hi%elem_of_seqZ).
    exists i. split; [done|lia].
  - intros (i & -> & Hi). exists i.
    split; [by apply list_elem_of_singleton|apply elem_of_seqZ; lia].
Qed.

Lemma same_box (a b : Z) :
  a `div` 3 = b `div` 3 ↔ 3 * (b `div` 3) ≤ a < 3 * (b `div` 3) + 3.
Proof.
  pose proof (Z.div_mod a 3 ltac:(lia)).
  pose proof (Z.mod_pos_bound a 3 ltac:(lia)).
  lia.
Qed.

(** The three loops on a board whose cells exist, for a position and a
    value in range. *)
Lemma validate_sudoku_move_in_range (board : json) (row col value : Z) :
  has_cells board = true →
  0 ≤ row < 9 → 0 ≤ col < 9 → 1 ≤ value ≤ 9 →
  ∃ b, validate_sudoku_move board row col value = Some b
    ∧ (b = true ↔
       ∀ r c x,
         0 ≤ r < 9 → 0 ≤ c < 9 → (r, c) ≠ (row, col) →
         r = row ∨ c = col
         ∨ (r `div` 3 = row `div` 3 ∧ c `div` 3 = col `div` 3) →
         board_cell board r c = Some x →
         py_eq x (JNum value) = false).
Proof.
  intros Hcells Hrow Hcol Hval. unfold validate_sudoku_move.
  rewrite !bool_decide_eq_true_2 by done. cbn [negb andb].
  assert (0 ≤ 3 * (row `div` 3) ∧ 3 * (row `div` 3) + 3 ≤ 9) as Hbr.
  { pose proof (Z.div_mod row 3 ltac:(lia)).
    pose proof (Z.mod_pos_bound row 3 ltac:(lia)). lia. }
  assert (0 ≤ 3 * (col `div` 3) ∧ 3 * (col `div` 3) + 3 ≤ 9) as Hbc.
  { pose proof (Z.div_mod col 3 ltac:(lia)).
    pose proof (Z.mod_pos_bound col 3 ltac:(lia)). lia. }
  destruct (no_conflict_spec board value (λ rc, bool_decide (rc.2 ≠ col))
              (c ← seqZ 0 9; [(row, c)])) as (b1 & -> & H1).
  { intros rc (c & -> & Hc)%elem_of_line _. by apply has_cells_spec. }
  destruct (no_conflict_spec board value (λ rc, bool_decide (rc.1 ≠ row))
              (r ← seqZ 0 9; [(r, col)])) as (b2 & E2 & H2).
  { intros rc (r & -> & Hr)%elem_of_line _. by apply has_cells_spec. }
  destruct (no_conflict_spec board value
              (λ rc, bool_decide (rc.1 ≠ row) || bool_decide (rc.2 ≠ col))
              (r ← seqZ (3 * (row `div` 3)) 3;
               c ← seqZ (3 * (col `div` 3)) 3; [(r, c)]))
    as (b3 & E3 & H3).
  { intros rc (r & c & -> & Hr & Hc)%elem_of_cells _.
    apply has_cells_spec; [done|simpl; lia|simpl; lia]. }
  assert ((b1 && b2 && b3 = true) ↔
     ∀ r c x,
       0 ≤ r < 9 → 0 ≤ c < 9 → (r, c) ≠ (row, col) →
       r = row ∨ c = col
       ∨ (r `div` 3 = row `div` 3 ∧ c `div` 3 = col `div` 3) →
       board_cell board r c = Some x →
       py_eq x (JNum value) = false) as Hall.
  { rewrite !andb_true_iff, H1, H2, H3. split.
    - intros [[Hr Hc] Hb] r c x ? ? Hne Hpeer Hx.
      destruct (decide (r = row)) as [->|Hnr].
      + apply (Hr (row, c) x); [apply elem_of_line; by exists c| |done].
        simpl. apply bool_decide_eq_true_2. congruence.
      + destruct (decide (c = col)) as [->|Hnc].
        * apply (Hc (r, col) x); [apply elem_of_line; by exists r| |done].
          simpl. by apply bool_decide_eq_true_2.
        * destruct Hpeer as [?|[?|[Hbr' Hbc']]]; [done|done|].
          apply same_box in Hbr', Hbc'.
          apply (Hb (r, c) x); [apply elem_of_cells; by exists r, c| |done].
          simpl. by rewrite bool_decide_eq_true_2.
    - intros Hspec. split_and!.
      + intros rc x (c & -> & Hc)%elem_of_line Ho%bool_decide_eq_true Hx.
        simpl in *. apply (Hspec row c x); [done|done|congruence|by left|done].
      + intros rc x (r & -> & Hr)%elem_of_line Ho%bool_decide_eq_true Hx.
        simpl in *.
        apply (Hspec r col x); [done|done|congruence|by right; left|done].
      + intros rc x (r & c & -> & Hr & Hc)%elem_of_cells Ho Hx.
        simpl in *.
        apply (Hspec r c x); [lia|lia| | |done].
        * intros [= -> ->]. rewrite !bool_decide_eq_false_2 in Ho by tauto.
          done.
        * right; right. by rewrite !same_box. }
  clear H1 H2 H3.
  remember (r ← seqZ 0 9; [(r, col)]) as l2 eqn:Hl2.
  remember (r ← seqZ (3 * (row `div` 3)) 3;
            c ← seqZ (3 * (col `div` 3)) 3; [(r, c)]) as l3 eqn:Hl3.
  clear Hl2 Hl3. simpl. destruct b1; simpl.
  - rewrite E2. simpl. destruct b2; simpl.
    + rewrite E3. exists b3. by split.
    + exists false. by split.
  - exists false. by split.
Qed.

(** X8.  Called with integers for the row, the column and the value on a
    board that has its 81 cells, [validate_sudoku_move] returns without
    raising, and it returns [True] exactly when the row and the column are
    in 0..8, the value is in 1..9, and no other cell of the same row, the
    same column or the same 3x3 box holds a value equal to it.  (Arguments
    that are not integers are not covered: with them the function can raise
    [TypeError].) *)
Theorem validate_sudoku_move_spec (board : json) (row col value : Z) :
  has_cells board = true →
  ∃ b, validate_sudoku_move board row col value = Some b
    ∧ (b = true ↔
       0 ≤ row < 9 ∧ 0 ≤ col < 9 ∧ 1 ≤ value ≤ 9
       ∧ ∀ r c x,
           0 ≤ r < 9 → 0 ≤ c < 9 → (r, c) ≠ (row, col) →
           r = row ∨ c = col
           ∨ (r `div` 3 = row `div` 3 ∧ c `div` 3 = col `div` 3) →
           board_cell board r c = Some x →
           py_eq x (JNum value) = false).
Proof.
  intros Hcells.
  destruct (decide (0 ≤ row < 9 ∧ 0 ≤ col < 9 ∧ 1 ≤ value ≤ 9))
    as [(Hrow & Hcol & Hval)|Hout].
  - destruct (validate_sudoku_move_in_range board row col value)
      as (b & Hrun & Hiff); [done..|].
    exists b. split; [done|]. rewrite Hiff. tauto.
  - exists false. split; [|split; [done|tauto]].
    unfold validate_sudoku_move.
    destruct (bool_decide (0 ≤ row < 9)) eqn:Hrow; [|done].
    destruct (bool_decide (0 ≤ col < 9)) eqn:Hcol; [|done].
    destruct (bool_decide (1 ≤ value ≤ 9)) eqn:Hval; [|done].
    apply bool_decide_eq_true in Hrow, Hcol, Hval. tauto.
Qed.

(** The theorem at the centre of the solved board. *)
Lemma validate_sudoku_move_spec_witness :
  ∃ b, validate_sudoku_move (board_of base_solution) 4 4 5 = Some b
    ∧ (b = true ↔
       0 ≤ 4 < 9 ∧ 0 ≤ 4 < 9 ∧ 1 ≤ 5 ≤ 9
       ∧ ∀ r c x,
           0 ≤ r < 9 → 0 ≤ c < 9 → (r, c) ≠ (4, 4) →
           r = 4 ∨ c = 4
           ∨ (r `div` 3 = 4 `div` 3 ∧ c `div` 3 = 4 `div` 3) →
           board_cell (board_of base_solution) r c = Some x →
           py_eq x (JNum 5) = false).
Proof.
  apply (validate_sudoku_move_spec (board_of base_solution) 4 4 5).
  reflexivity.
Defined.

(** ** Generated Sudoku puzzles *)

(** Clearing a filled cell adds one empty cell. *)
Lemma blanks_insert (grid : list (list Z)) (i j : nat) (row : list Z)
    (v : Z) :
  grid !! i = Some row → row !! j = Some v → v ≠ 0 →
  blanks (<[i := <[j := 0]> row]> grid) = S (blanks grid).
Proof.
  intros Hi Hj Hv. unfold blanks.
  rewrite insert_take_drop by (by eapply lookup_lt_Some).
  rewrite <- (take_drop_middle grid i row Hi) at 3.
  rewrite !concat_app, !concat_cons, !filter_app, !length_app.
  rewrite insert_take_drop by (by eapply lookup_lt_Some).
  rewrite <- (take_drop_middle row j v Hj) at 3.
  rewrite !filter_app, !filter_cons, !length_app.
  rewrite decide_True by done. rewrite decide_False by done. simpl. lia.
Qed.

Lemma grid_cell_insert (grid : list (list Z)) (p q : nat * nat)
    (row : list Z) :
  grid !! p.1 = Some row → (p.2 < length row)%nat →
  grid_cell (<[p.1 := <[p.2 := 0]> row]> grid) q
  = if decide (q = p) then Some 0 else grid_cell grid q.
Proof.
  intros Hrow Hlt. unfold grid_cell. destruct p as [i j], q as [i' j'].
  simpl in *. destruct (decide (i' = i)) as [->|Hi].
  - rewrite list_lookup_insert_eq by (by eapply lookup_lt_Some). simpl.
    destruct (decide (j' = j)) as [->|Hj].
    + rewrite list_lookup_insert_eq by done. by rewrite decide_True.
    + rewrite list_lookup_insert_ne by done. rewrite Hrow. simpl.
      rewrite decide_False; [done|congruence].
  - rewrite list_lookup_insert_ne by done.
    rewrite decide_False; [done|congruence].
Qed.

(** The loop over the indices [a, a + n) of a duplicate-free list of
    positions inside the grid: the cells at the first [a + n] positions
    are blank, the others are those of [base]. *)
Lemma remove_cells_spec (base : list (list Z)) (positions : list (nat * nat))
    (n a : nat) (grid : list (list Z)) :
  NoDup positions →
  (∀ p, p ∈ positions → ∃ v, grid_cell base p = Some v ∧ v ≠ 0) →
  (a + n ≤ length positions)%nat →
  (∀ q, grid_cell grid q
        = if decide (q ∈ take a positions) then Some 0
          else grid_cell base q) →
  blanks grid = (a + blanks base)%nat →
  ∃ grid', remove_cells positions (seq a n) grid = Some grid'
    ∧ (∀ q, grid_cell grid' q
            = if decide (q ∈ take (a + n) positions) then Some 0
              else grid_cell base q)
    ∧ blanks grid' = (a + n + blanks base)%nat.
Proof.
  intros Hnd Hin. revert a grid.
  induction n as [|n IH]; intros a grid Hlen Hcells Hblanks; simpl.
  - exists grid. rewrite Nat.add_0_r. done.
  - destruct (lookup_lt_is_Some_2 positions a ltac:(lia)) as [p Hp].
    rewrite Hp. simpl.
    assert (p ∉ take a positions) as Hfresh.
    { intros [i Hi]%list_elem_of_lookup_1.
      apply lookup_take_Some in Hi as [Hi Hlt].
      assert (i = a); [|lia]. by eapply NoDup_lookup. }
    destruct (Hin p) as (v & Hv & Hv0); [by eapply list_elem_of_lookup_2|].
    pose proof (Hcells p) as Hgp. rewrite decide_False, Hv in Hgp by done.
    unfold grid_cell in Hgp. unfold clear_cell.
    destruct (grid !! p.1) as [row|] eqn:Hrow; [|done]. simpl in Hgp |- *.
    rewrite bool_decide_eq_true_2 by (by eapply lookup_lt_Some).
    destruct (IH (S a) (<[p.1 := <[p.2 := 0]> row]> grid))
      as (grid' & Hrun & Hcells' & Hblanks').
    + lia.
    + intros q. rewrite grid_cell_insert by (done || by eapply lookup_lt_Some).
      rewrite (take_S_r _ _ _ Hp), Hcells.
      destruct (decide (q = p)) as [->|Hqp].
      * rewrite decide_True; [done|].
        apply elem_of_app. right. by apply list_elem_of_singleton.
      * destruct (decide (q ∈ take a positions)) as [Hq|Hq].
        -- rewrite decide_True; [done|]. apply elem_of_app. by left.
        -- rewrite decide_False; [done|].
           intros [?|?%list_elem_of_singleton]%elem_of_app; done.
    + erewrite blanks_insert by done. lia.
    + exists grid'. simpl. rewrite Hrun.
      replace (a + S n)%nat with (S a + n)%nat by lia. done.
Qed.

Lemma NoDup_all_positions : NoDup all_positions.
Proof. apply (bool_decide_unpack _). vm_compute. exact I. Qed.

Lemma base_solution_filled p :
  p ∈ all_positions → ∃ v, grid_cell base_solution p = Some v ∧ v ≠ 0.
Proof.
  intros Hp%list_elem_of_In.
  assert (forallb (λ p, match grid_cell base_solution p with
                        | Some v => bool_decide (v ≠ 0)
                        | None => false
                        end) all_positions = true) as Hall
    by (vm_compute; reflexivity).
  rewrite forallb_forall in Hall. specialize (Hall p Hp).
  destruct (grid_cell base_solution p) as [v|]; [|done].
  exists v. split; [done|]. by apply bool_decide_eq_true in Hall.
Qed.

(** The puzzle [generate_basic_puzzle] builds from a permutation of the
    positions: the cells at the first [remove_count] shuffled positions are
    blank, the others are those of the solution. *)
Lemma generate_basic_puzzle_cells difficulty shuffled :
  shuffled ≡ₚ all_positions →
  ∃ puzzle,
    generate_basic_puzzle difficulty shuffled
    = Some (puzzle, base_solution, regions)
    ∧ (∀ q, grid_cell puzzle q
            = if decide (q ∈ take (cells_to_remove difficulty) shuffled)
              then Some 0 else grid_cell base_solution q)
    ∧ blanks puzzle = cells_to_remove difficulty.
Proof.
  intros Hperm. unfold generate_basic_puzzle. cbv zeta.
  destruct (remove_cells_spec base_solution shuffled
              (cells_to_remove difficulty) 0 base_solution)
    as (puzzle & -> & Hcells & Hblanks).
  - rewrite Hperm. apply NoDup_all_positions.
  - intros p Hp. apply base_solution_filled. by rewrite <- Hperm.
  - rewrite (Permutation_length Hperm).
    unfold cells_to_remove. repeat case_bool_decide; vm_compute; lia.
  - intros q. rewrite take_0. by rewrite decide_False by apply not_elem_of_nil.
  - reflexivity.
  - exists puzzle. split; [done|]. split; [done|]. rewrite Hblanks.
    simpl. change (blanks base_solution) with 0%nat. lia.
Qed.

(** X9.  Whatever the shuffle of the 81 positions, [generate_basic_puzzle]
    returns the fixed solution and regions together with a puzzle that has
    its 81 cells, exactly as many empty ones as the difficulty asks for (35,
    45, 55 or 65; 35 for an unknown difficulty), and whose filled cells hold
    the value of the solution. *)
Theorem generate_basic_puzzle_blanks (difficulty : string)
    (shuffled : list (nat * nat)) :
  shuffled ≡ₚ all_positions →
  ∃ puzzle,
    generate_basic_puzzle difficulty shuffled
    = Some (puzzle, base_solution, regions)
    ∧ blanks puzzle = cells_to_remove difficulty
    ∧ (∀ position, position ∈ all_positions →
         is_Some (grid_cell puzzle position))
    ∧ (∀ position v, grid_cell puzzle position = Some v → v ≠ 0 →
         grid_cell base_solution position = Some v).
Proof.
  intros Hperm.
  destruct (generate_basic_puzzle_cells difficulty shuffled Hperm)
    as (puzzle & Hrun & Hcells & Hblanks).
  exists puzzle. split_and!; [done|done| |].
  - intros p Hp. rewrite Hcells. case_decide; [done|].
    destruct (base_solution_filled p Hp) as (v & -> & _). done.
  - intros p v. rewrite Hcells. case_decide; [|done]. by intros [= <-].
Qed.

(** The theorem at a hard puzzle with the positions left in order. *)
Lemma generate_basic_puzzle_blanks_witness :
  ∃ puzzle,
    generate_basic_puzzle "hard" all_positions
    = Some (puzzle, base_solution, regions)
    ∧ blanks puzzle = 55%nat.
Proof.
  destruct (generate_basic_puzzle_blanks "hard" all_positions)
    as (puzzle & Hrun & Hblanks & _).
  - reflexivity.
  - exists puzzle. split; [exact Hrun|exact Hblanks].
Defined.

(** The positions of the 9x9 grid. *)
Lemma elem_of_all_positions (i j : nat) :
  (i, j) ∈ all_positions ↔ (i < 9)%nat ∧ (j < 9)%nat.
Proof.
  unfold all_positions. rewrite list_elem_of_bind. split.
  - intros (i' & (j' & [= -> ->]%list_elem_of_singleton & Hj%elem_of_seq)
               %list_elem_of_bind & Hi%elem_of_seq). lia.
  - intros [Hi Hj]. exists i. split; [|apply elem_of_seq; lia].
    apply list_elem_of_bind. exists j.
    split; [by apply list_elem_of_singleton|apply elem_of_seq; lia].
Qed.

Lemma board_cell_board_of (grid : list (list Z)) (r c : Z) :
  0 ≤ r → 0 ≤ c →
  board_cell (board_of grid) r c
  = JNum <$> grid_cell grid (Z.to_nat r, Z.to_nat c).
Proof.
  assert (∀ (l : list json) i, 0 ≤ i →
    py_index (JArr l) i = l !! Z.to_nat i) as Hidx.
  { intros l i Hi. unfold py_index. case_bool_decide; [done|].
    rewrite bool_decide_eq_false_2 by lia.
    symmetry. apply lookup_ge_None. lia. }
  intros Hr Hc. unfold board_cell, board_of, grid_cell.
  rewrite Hidx by done. change (map ?f ?l) with (f <$> l).
  rewrite list_lookup_fmap. cbn [fst snd].
  destruct (grid !! Z.to_nat r) as [row|]; [|done].
  cbn [fmap option_fmap option_map mbind option_bind].
  rewrite Hidx by done. change (map ?f ?l) with (f <$> l).
  by rewrite list_lookup_fmap.
Qed.

(** [base_solution] is a Sudoku solution: its cells hold 1 to 9, and two
    cells that share a row, a column or a box differ. *)
Lemma base_solution_valid (p q : nat * nat) (v w : Z) :
  p ∈ all_positions → q ∈ all_positions →
  grid_cell base_solution p = Some v →
  grid_cell base_solution q = Some w →
  1 ≤ v ≤ 9
  ∧ (p ≠ q →
     p.1 = q.1 ∨ p.2 = q.2
     ∨ (Z.of_nat p.1 `div` 3 = Z.of_nat q.1 `div` 3
        ∧ Z.of_nat p.2 `div` 3 = Z.of_nat q.2 `div` 3) →
     v ≠ w).
Proof.
  intros Hp%list_elem_of_In Hq%list_elem_of_In Hv Hw.
  assert (forallb (λ p, forallb (λ q,
    match grid_cell base_solution p, grid_cell base_solution q with
    | Some v, Some w =>
        bool_decide (1 ≤ v ≤ 9)
        && (bool_decide (p = q)
            || negb (bool_decide (p.1 = q.1) || bool_decide (p.2 = q.2)
                     || (bool_decide (Z.of_nat p.1 `div` 3
                                      = Z.of_nat q.1 `div` 3)
                         && bool_decide (Z.of_nat p.2 `div` 3
                                         = Z.of_nat q.2 `div` 3)))
            || negb (bool_decide (v = w)))
    | _, _ => false
    end) all_positions) all_positions = true) as Hall
    by (vm_compute; reflexivity).
  rewrite forallb_forall in Hall. specialize (Hall p Hp).
  rewrite forallb_forall in Hall. specialize (Hall q Hq).
  rewrite Hv, Hw in Hall.
  apply andb_true_iff in Hall as [Hrange Hall].
  apply bool_decide_eq_true in Hrange. split; [done|].
  intros Hne Hpeer Heq.
  rewrite (bool_decide_eq_false_2 (p = q)) in Hall by done.
  rewrite (bool_decide_eq_true_2 (v = w)) in Hall by done.
  simpl in Hall. rewrite orb_false_r in Hall.
  apply negb_true_iff in Hall.
  destruct Hpeer as [?|[?|[? ?]]].
  - by rewrite (bool_decide_eq_true_2 (p.1 = q.1)) in Hall.
  - rewrite (bool_decide_eq_true_2 (p.2 = q.2)) in Hall by done.
    by rewrite orb_true_r in Hall.
  - rewrite !(bool_decide_eq_true_2 (_ `div` 3 = _)) in Hall by done.
    by rewrite orb_true_r in Hall.
Qed.

(** X10.  On every generated puzzle, placing at any position the value the
    solution has there is a move that [validate_sudoku_move] accepts. *)
Theorem solution_value_is_valid_move (difficulty : string)
    (shuffled : list (nat * nat)) (puzzle solution : list (list Z))
    (rg : list (string * list (nat * nat))) (row col : nat) (value : Z) :
  shuffled ≡ₚ all_positions →
  generate_basic_puzzle difficulty shuffled = Some (puzzle, solution, rg) →
  (row < 9)%nat → (col < 9)%nat →
  grid_cell solution (row, col) = Some value →
  validate_sudoku_move (board_of puzzle) (Z.of_nat row) (Z.of_nat col) value
  = Some true.
Proof.
  intros Hperm Hgen Hrow Hcol Hvalue.
  destruct (generate_basic_puzzle_cells difficulty shuffled Hperm)
    as (puzzle' & Hrun & Hcells & _).
  rewrite Hrun in Hgen. injection Hgen as -> <- <-.
  assert (∀ p, p ∈ all_positions → is_Some (grid_cell puzzle p)) as Hdef.
  { intros p Hp. rewrite Hcells. case_decide; [done|].
    destruct (base_solution_filled p Hp) as (v & -> & _). done. }
  assert (has_cells (board_of puzzle) = true) as Hhas.
  { unfold has_cells. apply forallb_forall. intros [r c] Hin%list_elem_of_In.
    apply list_elem_of_bind in Hin
      as (r' & (c' & [= -> ->]%list_elem_of_singleton & Hc%elem_of_seqZ)
                 %list_elem_of_bind & Hr%elem_of_seqZ).
    apply bool_decide_eq_true_2. simpl.
    rewrite board_cell_board_of by lia. apply fmap_is_Some, Hdef.
    apply elem_of_all_positions. lia. }
  assert ((row, col) ∈ all_positions) as Hpos
    by by apply elem_of_all_positions.
  destruct (base_solution_valid (row, col) (row, col) value value)
    as [Hrange _]; [done..|].
  destruct (validate_sudoku_move_in_range (board_of puzzle)
              (Z.of_nat row) (Z.of_nat col) value)
    as (b & -> & Hiff); [done|lia|lia|done|].
  f_equal. apply Hiff. intros r c x Hr Hc Hne Hpeer.
  rewrite board_cell_board_of by lia. rewrite Hcells.
  case_decide; simpl.
  - intros [= <-]. simpl. apply bool_decide_eq_false_2. lia.
  - destruct (grid_cell base_solution (Z.to_nat r, Z.to_nat c)) as [v|] eqn:Hv;
      [|done].
    simpl. intros [= <-]. simpl. apply bool_decide_eq_false_2.
    assert ((Z.to_nat r, Z.to_nat c) ∈ all_positions) as Hq
      by (apply elem_of_all_positions; lia).
    destruct (base_solution_valid (Z.to_nat r, Z.to_nat c) (row, col) v value)
      as [_ Hdiff]; [done..|].
    apply Hdiff.
    + intros [= <- <-]. apply Hne. f_equal; lia.
    + simpl. rewrite !Z2Nat.id by lia.
      destruct Hpeer as [?|[?|?]]; [left; lia|right; left; lia|by right; right].
Qed.

(** The theorem at the first cell, which the easy puzzle built from the
    positions in order leaves empty. *)
Lemma solution_value_is_valid_move_witness :
  ∃ puzzle,
    generate_basic_puzzle "easy" all_positions
    = Some (puzzle, base_solution, regions)
    ∧ grid_cell puzzle (0, 0)%nat = Some 0
    ∧ validate_sudoku_move (board_of puzzle) 0 0 5 = Some true.
Proof.
  eexists. split; [vm_compute; reflexivity|]. split; [reflexivity|].
  apply (solution_value_is_valid_move "easy" all_positions _ base_solution
           regions 0 0 5).
  - reflexivity.
  - vm_compute. reflexivity.
  - lia.
  - lia.
  - reflexivity.
Defined.

(** ** Claiming a level puzzle *)

Section first_facts.
Context {R : Type} (P : R → Prop) `{!∀ r, Decision (P r)}.
Implicit Types (t : gmap Z R).

Lemma qs_first_Some t i :
  qs_first (objects_filter P t) = Some i → t !! i.1 = Some i.2 ∧ P i.2.
Proof.
  unfold qs_first.
  destruct (map_to_list (objects_filter P t)) as [|x l] eqn:E; [done|].
  intros [= <-]. apply (objects_filter_lookup P), elem_of_map_to_list.
  destruct x. rewrite E. apply list_elem_of_here.
Qed.

Lemma qs_first_None t :
  qs_first (objects_filter P t) = None ↔ ∀ k r, t !! k = Some r → ¬ P r.
Proof.
  unfold qs_first.
  destruct (map_to_list (objects_filter P t)) as [|[k r] l] eqn:E; simpl.
  - apply map_to_list_empty_iff in E. split; [|done].
    intros _ k r Hk HP.
    assert (objects_filter P t !! k = Some r) as Hf
      by by apply objects_filter_lookup.
    by rewrite E in Hf.
  - split; [done|]. intros Hno.
    assert ((k, r) ∈ map_to_list (objects_filter P t)) as Hin
      by (rewrite E; apply list_elem_of_here).
    apply elem_of_map_to_list, objects_filter_lookup in Hin as [Hk HP].
    by destruct (Hno k r).
Qed.

Lemma qs_first_unique t k r :
  t !! k = Some r → P r →
  (∀ k' r', t !! k' = Some r' → P r' → k' = k) →
  qs_first (objects_filter P t) = Some (k, r).
Proof.
  intros Hk HP Huniq.
  destruct (qs_first (objects_filter P t)) as [[k' r']|] eqn:E.
  - apply qs_first_Some in E as [Hk' HP']. simpl in Hk', HP'.
    assert (k' = k) as -> by exact (Huniq k' r' Hk' HP').
    rewrite Hk in Hk'. by injection Hk' as <-.
  - rewrite qs_first_None in E. by destruct (E k r).
Qed.

Lemma get_object_or_404_Ok id t i :
  get_object_or_404 P id t = Ok i ↔ i.1 = id ∧ t !! id = Some i.2 ∧ P i.2.
Proof.
  unfold get_object_or_404. destruct i as [k r]. simpl.
  destruct (t !! id) as [r'|]; [|split; [done|by intros (_ & ? & _)]].
  case_decide as HP.
  - split; [by intros [= -> ->]|by intros (-> & [= ->] & _)].
  - split; [done|]. by intros (_ & [= ->] & ?).
Qed.

Lemma get_object_or_404_Raise id t e :
  get_object_or_404 P id t = Raise e → e = Http404.
Proof.
  unfold get_object_or_404. destruct (t !! id) as [r'|]; [|by intros [= <-]].
  case_decide; [done|by intros [= <-]].
Qed.

End first_facts.

(** The award loop writes [user_achievements] only. *)
Lemma award_frame l : ∀ user db,
  ∃ db',
    award user l db
    = (Ok (user.1,
           {| User.total_score := User.total_score user.2 + points l |}),
       db')
    ∧ levels db' = levels db
    ∧ level_puzzles db' = level_puzzles db
    ∧ progress db' = progress db
    ∧ shape_games db' = shape_games db
    ∧ shape_attempts db' = shape_attempts db
    ∧ puzzle_attempts db' = puzzle_attempts db
    ∧ users db' = users db
    ∧ achievements db' = achievements db.
Proof.
  induction l as [|a l IH]; intros user db; simpl.
  - exists db. unfold_M. destruct user as [k [s]]; simpl.
    rewrite Z.add_0_r. split_and!; done.
  - unfold_M. simpl.
    match goal with
    | |- context [award ?u l ?d] =>
        destruct (IH u d) as (db' & Hrun & H1 & H2 & H3 & H4 & H5 & H6 & H7
                              & H8)
    end.
    exists db'. split; [|split_and!; done].
    etrans; [exact Hrun|]. simpl. by rewrite Z.add_assoc.
Qed.

(** What an evaluation pass returns and which tables it writes. *)
Lemma check_user_achievements_frame user db :
  let awarded := achievements_to_award user db in
  let user' : inst User.t :=
    (user.1,
     {| User.total_score := User.total_score user.2 + points awarded |}) in
  ∃ db',
    check_user_achievements user db = (Ok (awarded, user'), db')
    ∧ levels db' = levels db
    ∧ level_puzzles db' = level_puzzles db
    ∧ progress db' = progress db
    ∧ shape_games db' = shape_games db
    ∧ shape_attempts db' = shape_attempts db
    ∧ puzzle_attempts db' = puzzle_attempts db
    ∧ users db'
      = (if bool_decide (awarded ≠ []) then <[user.1 := user'.2]> (users db)
         else users db).
Proof.
  cbv zeta.
  destruct (award_frame (achievements_to_award user db) user db)
    as (db1 & Hrun & H1 & H2 & H3 & H4 & H5 & H6 & H7 & H8).
  unfold check_user_achievements. unfold_M. simpl. rewrite Hrun.
  case_bool_decide as Hempty; simpl.
  - eexists. split; [done|]. simpl. rewrite H7. split_and!; done.
  - exists db1. split_and!; done.
Qed.

(** X11.  Claiming a level puzzle of which the user's only attempt is
    already completed leaves the progress rows, the level attempts and the
    shape attempts as they are, and the rows of all other users; the row of
    the user is untouched or holds the total of the request's user plus the
    points of the achievements awarded. *)
Theorem claimed_puzzle_is_not_counted_again (clock : Z) (user : inst User.t)
    (level_id puzzle_id : Z) (db : DB) (k : Z) (r : UserPuzzleAttempt.t) :
  puzzle_attempts db !! k = Some r →
  UserPuzzleAttempt.user r = user.1 →
  UserPuzzleAttempt.level_puzzle r = puzzle_id →
  (∀ k' r', puzzle_attempts db !! k' = Some r' →
     UserPuzzleAttempt.user r' = user.1 →
     UserPuzzleAttempt.level_puzzle r' = puzzle_id → k' = k) →
  UserPuzzleAttempt.is_completed r = true →
  let res := complete_level_puzzle clock user level_id puzzle_id db in
  progress res.2 = progress db
  ∧ puzzle_attempts res.2 = puzzle_attempts db
  ∧ shape_attempts res.2 = shape_attempts db
  ∧ (∀ u, u ≠ user.1 → users res.2 !! u = users db !! u)
  ∧ (users res.2 = users db
     ∨ users res.2 !! user.1
       = Some {| User.total_score :=
                   User.total_score user.2
                   + points (achievements_to_award user db) |}).
Proof.
  intros Hk Hu Hp Huniq Hdone. cbv zeta.
  unfold complete_level_puzzle. unfold_M. simpl.
  destruct (get_object_or_404 _ level_id (levels db)) as [level|e] eqn:Hl;
    simpl; [|by split_and!; try left].
  destruct (get_object_or_404 _ puzzle_id (level_puzzles db))
    as [level_puzzle|e] eqn:Hlp; simpl; [|by split_and!; try left].
  apply get_object_or_404_Ok in Hlp as (Hid & _ & _).
  rewrite (qs_first_unique _ _ k r); [|done|by rewrite Hid|].
  2:{ intros k' r' Hk' [Hu' Hp']. rewrite Hid in Hp'. by eapply Huniq. }
  simpl.
  destruct (fetch _ _ (shape_attempts db)) as [shape_attempt|e]; simpl;
    [|by split_and!; try left].
  case_bool_decide; simpl; [by split_and!; try left|].
  unfold complete_attempt. simpl. rewrite Hdone. simpl.
  destruct (objects_get _ _ (progress db)) as [level_progress|e]; simpl;
    [|by split_and!; try left].
  destruct (check_user_achievements_frame user db)
    as (db' & -> & Hlv & _ & Hpr & _ & Hsa & Hpa & Hus).
  simpl. rewrite Hlv.
  assert (progress db' = progress db
    ∧ puzzle_attempts db' = puzzle_attempts db
    ∧ shape_attempts db' = shape_attempts db
    ∧ (∀ u, u ≠ user.1 → users db' !! u = users db !! u)
    ∧ (users db' = users db
       ∨ users db' !! user.1
         = Some {| User.total_score :=
                     User.total_score user.2
                     + points (achievements_to_award user db) |})) as Hall.
  { split_and!; [done|done|done| |].
    - intros u Hne. rewrite Hus. case_bool_decide; [|done].
      by rewrite lookup_insert_ne.
    - rewrite Hus. case_bool_decide; [|by left].
      right. apply lookup_insert_eq. }
  by destruct (fetch _ _ (levels db)) as [lvl|e].
Qed.

(** The level-progression methods write the progress table only. *)
Lemma progress_get_or_create_writes user level db :
  ∃ t, (progress_get_or_create user level db).2 = set_progress t db.
Proof.
  destruct (progress_get_or_create_cases user level db)
    as [(i & _ & ->)|[[_ ->]|[_ ->]]]; simpl.
  - exists (progress db). by destruct db.
  - by eexists.
  - exists (progress db). by destruct db.
Qed.

Lemma unlock_next_level_writes self db :
  ∃ t, (unlock_next_level self db).2 = set_progress t db.
Proof.
  destruct (unlock_next_level_effect self db) as [->|(nl & _ & ->)].
  - exists (progress db). by destruct db.
  - apply progress_get_or_create_writes.
Qed.

Lemma check_completion_writes src clock self db :
  ∃ t, (check_completion src clock self db).2 = set_progress t db.
Proof.
  assert (∃ t, db = set_progress t db) as Hsame
    by (exists (progress db); by destruct db).
  unfold check_completion. unfold_M.
  destruct (fetch _ _ (levels db)) as [lvl|e]; simpl; [|done].
  destruct (_ && _); simpl; [|done].
  destruct src; simpl; [|done].
  match goal with
  | |- context [unlock_next_level ?s ?d] =>
      destruct (unlock_next_level_writes s d) as [t Ht];
      destruct (unlock_next_level s d) as [[[]|e] ?]; simpl in *;
      subst; by eexists
  end.
Qed.

(** A first completion that runs to its end adds the score to the stored
    total of the attempt's user. *)
Lemma complete_attempt_users clock (self : inst UserPuzzleAttempt.t) score
    db x db1 :
  UserPuzzleAttempt.is_completed self.2 = false →
  complete_attempt games_models clock self score db = (Ok x, db1) →
  ∃ u, users db !! UserPuzzleAttempt.user self.2 = Some u
    ∧ users db1
      = <[UserPuzzleAttempt.user self.2 :=
            {| User.total_score := User.total_score u + score |}]>
          (users db).
Proof.
  intros Hnot. unfold complete_attempt. rewrite Hnot. unfold_M. simpl.
  destruct (fetch _ _ (users db)) as [u|e] eqn:Hu; simpl; [|done].
  apply fetch_Ok in Hu as [Hu1 Hu2].
  destruct (fetch _ _ (level_puzzles db)) as [lp|e]; simpl; [|done].
  destruct (fetch _ _ (levels db)) as [lvl|e]; simpl; [|done].
  match goal with
  | |- context [progress_get_or_create ?a ?b ?d] =>
      destruct (progress_get_or_create_writes a b d) as [t1 H1];
      destruct (progress_get_or_create a b d) as [[got|e] db2]; simpl in *;
      [|done]
  end.
  match goal with
  | |- context [check_completion _ _ ?s ?d] =>
      destruct (check_completion_writes games_models clock s d) as [t2 H2];
      destruct (check_completion games_models clock s d) as [[?|e] db3];
      simpl in *; [|done]
  end.
  intros [= _ <-]. exists u.2. subst. simpl. by rewrite Hu1.
Qed.

(** X12.  A first claim that succeeds adds the score of the puzzle to the
    stored total of the user.  When the achievement pass that follows awards
    something, it saves the request's own copy of the user, and the stored
    total ends at the total before the claim plus the achievement points,
    without the score of the puzzle. *)
Theorem total_score_after_claim (clock : Z) (user : inst User.t)
    (level_id puzzle_id : Z) (db db' : DB) (k : Z) (r : UserPuzzleAttempt.t)
    (s pc tr : Z) (cp : Q) (lc nlu : bool) :
  puzzle_attempts db !! k = Some r →
  UserPuzzleAttempt.user r = user.1 →
  UserPuzzleAttempt.level_puzzle r = puzzle_id →
  (∀ k' r', puzzle_attempts db !! k' = Some r' →
     UserPuzzleAttempt.user r' = user.1 →
     UserPuzzleAttempt.level_puzzle r' = puzzle_id → k' = k) →
  UserPuzzleAttempt.is_completed r = false →
  users db !! user.1 = Some user.2 →
  complete_level_puzzle clock user level_id puzzle_id db
  = (Ok (LevelSuccess s pc tr cp lc nlu), db') →
  let db1 := (complete_attempt games_models clock (k, r) s db).2 in
  let awarded := achievements_to_award user db1 in
  users db1 !! user.1
  = Some {| User.total_score := User.total_score user.2 + s |}
  ∧ users db' !! user.1
    = Some {| User.total_score :=
                if bool_decide (awarded ≠ [])
                then User.total_score user.2 + points awarded
                else User.total_score user.2 + s |}.
Proof.
  intros Hk Hu Hp Huniq Hnot Huser. cbv zeta.
  unfold complete_level_puzzle. unfold_M. simpl.
  destruct (get_object_or_404 _ level_id (levels db)) as [level|e] eqn:Hl;
    simpl; [|done].
  destruct (get_object_or_404 _ puzzle_id (level_puzzles db))
    as [level_puzzle|e] eqn:Hlp; simpl; [|done].
  apply get_object_or_404_Ok in Hlp as (Hid & _ & _).
  rewrite (qs_first_unique _ _ k r); [|done|by rewrite Hid|].
  2:{ intros k' r' Hk' [Hu' Hp']. rewrite Hid in Hp'. by eapply Huniq. }
  simpl.
  destruct (fetch _ _ (shape_attempts db)) as [shape_attempt|e]; simpl;
    [|done].
  case_bool_decide; simpl; [done|].
  destruct (complete_attempt games_models clock (k, r)
              (ShapeGameAttempt.score shape_attempt.2) db)
    as [[x|e] db1] eqn:Hrun; simpl; [|done].
  pose proof Hrun as Hrun'.
  apply complete_attempt_users in Hrun' as (u & Hu1 & Hu2); [|done].
  simpl in Hu1, Hu2. rewrite Hu, Huser in Hu1. injection Hu1 as <-.
  destruct (objects_get _ _ (progress db1)) as [level_progress|e]; simpl;
    [|done].
  destruct (check_user_achievements_frame user db1)
    as (db2 & -> & Hlv & _ & _ & _ & _ & _ & Hus).
  simpl. destruct (fetch _ _ (levels db2)) as [lvl|e]; simpl; [|done].
  intros [= <- _ _ _ _ _ <-]. rewrite Hrun. simpl. rewrite Hus, Hu2, Hu.
  split; [apply lookup_insert_eq|].
  case_bool_decide; apply lookup_insert_eq.
Qed.

(** The theorem at Scenario C: user 7, with 50 points, claims puzzle 2 for
    30 points and earns an achievement of 50; the stored total is 100. *)
Lemma total_score_after_claim_witness :
  let res := complete_level_puzzle 100 (7, User.mk 50) 1 2 scenario_db in
  users scenario_db !! 7 = Some (User.mk 50)
  ∧ res.1 = Ok (LevelSuccess 30 2 2 100%Q true true)
  ∧ users res.2 !! 7 = Some (User.mk 100).
Proof.
  cbv zeta. split; [reflexivity|]. split; [vm_compute; reflexivity|].
  destruct (total_score_after_claim 100 (7, User.mk 50) 1 2 scenario_db
              (complete_level_puzzle 100 (7, User.mk 50) 1 2 scenario_db).2
              2 (UserPuzzleAttempt.mk 7 2 2 false 0 None)
              30 2 2 100%Q true true) as [_ Hscore].
  - reflexivity.
  - reflexivity.
  - reflexivity.
  - apply (bool_decide_unpack
      (map_Forall (λ k' r', UserPuzzleAttempt.user r' = 7 →
         UserPuzzleAttempt.level_puzzle r' = 2 → k' = 2)
         (puzzle_attempts scenario_db))).
    vm_compute. exact I.
  - reflexivity.
  - reflexivity.
  - vm_compute. reflexivity.
  - etrans; [exact Hscore|]. vm_compute. reflexivity.
Defined.

(** The theorem at Scenario C: user 7 claims puzzle 1 a second time. *)
Lemma claimed_puzzle_is_not_counted_again_witness :
  let res := complete_level_puzzle 100 (7, User.mk 50) 1 1 scenario_db in
  res.1 = Ok (LevelSuccess 50 1 2 (100 # 2)%Q false false)
  ∧ progress res.2 = progress scenario_db
  ∧ puzzle_attempts res.2 = puzzle_attempts scenario_db.
Proof.
  cbv zeta. split; [vm_compute; reflexivity|].
  destruct (claimed_puzzle_is_not_counted_again 100 (7, User.mk 50) 1 1
              scenario_db 1 (UserPuzzleAttempt.mk 7 1 1 true 50
                               (Some 20000000)))
    as (Hp & Hpa & _).
  - reflexivity.
  - reflexivity.
  - reflexivity.
  - apply (bool_decide_unpack
      (map_Forall (λ k' r', UserPuzzleAttempt.user r' = 7 →
         UserPuzzleAttempt.level_puzzle r' = 1 → k' = 1)
         (puzzle_attempts scenario_db))).
    vm_compute. exact I.
  - reflexivity.
  - split; [exact Hp|exact Hpa].
Defined.

(** X13.  When the shape-game attempt of the user's level attempt is not
    completed, claiming the puzzle writes nothing, and the view answers 404
    or the error that the shape game is not completed. *)
Theorem unfinished_puzzle_is_not_claimed (clock : Z) (user : inst User.t)
    (level_id puzzle_id : Z) (db : DB) (k : Z) (r : UserPuzzleAttempt.t)
    (a : ShapeGameAttempt.t) :
  puzzle_attempts db !! k = Some r →
  UserPuzzleAttempt.user r = user.1 →
  UserPuzzleAttempt.level_puzzle r = puzzle_id →
  (∀ k' r', puzzle_attempts db !! k' = Some r' →
     UserPuzzleAttempt.user r' = user.1 →
     UserPuzzleAttempt.level_puzzle r' = puzzle_id → k' = k) →
  shape_attempts db !! UserPuzzleAttempt.shape_game_attempt r = Some a →
  ShapeGameAttempt.status a ≠ COMPLETED →
  let res := complete_level_puzzle clock user level_id puzzle_id db in
  res.2 = db
  ∧ (res.1 = Raise Http404
     ∨ res.1 = Ok (LevelBadRequest ShapeGameNotCompleted)).
Proof.
  intros Hk Hu Hp Huniq Ha Hstatus. cbv zeta.
  unfold complete_level_puzzle. unfold_M. simpl.
  destruct (get_object_or_404 _ level_id (levels db)) as [level|e] eqn:Hl;
    simpl.
  2:{ apply get_object_or_404_Raise in Hl as ->. split; [done|by left]. }
  destruct (get_object_or_404 _ puzzle_id (level_puzzles db))
    as [level_puzzle|e] eqn:Hlp; simpl.
  2:{ apply get_object_or_404_Raise in Hlp as ->. split; [done|by left]. }
  apply get_object_or_404_Ok in Hlp as (Hid & _ & _).
  rewrite (qs_first_unique _ _ k r); [|done|by rewrite Hid|].
  2:{ intros k' r' Hk' [Hu' Hp']. rewrite Hid in Hp'. by eapply Huniq. }
  simpl. unfold fetch. rewrite Ha. simpl.
  rewrite bool_decide_eq_true_2 by done. simpl. split; [done|by right].
Qed.

(** The theorem at Scenario C with the shape attempt of puzzle 2 still in
    progress. *)
Lemma unfinished_puzzle_is_not_claimed_witness :
  let db := set_shape_attempts
              (<[2 := new_attempt 0 7 2]> (shape_attempts scenario_db))
              scenario_db in
  complete_level_puzzle 100 (7, User.mk 50) 1 2 db
  = (Ok (LevelBadRequest ShapeGameNotCompleted), db).
Proof.
  cbv zeta.
  destruct (unfinished_puzzle_is_not_claimed 100 (7, User.mk 50) 1 2
              (set_shape_attempts
                 (<[2 := new_attempt 0 7 2]> (shape_attempts scenario_db))
                 scenario_db)
              2 (UserPuzzleAttempt.mk 7 2 2 false 0 None)
              (new_attempt 0 7 2)) as [Hdb _].
  - reflexivity.
  - reflexivity.
  - reflexivity.
  - apply (bool_decide_unpack
      (map_Forall (λ k' r', UserPuzzleAttempt.user r' = 7 →
         UserPuzzleAttempt.level_puzzle r' = 2 → k' = 2)
         (puzzle_attempts scenario_db))).
    vm_compute. exact I.
  - reflexivity.
  - discriminate.
  - apply injective_projections; [vm_compute; reflexivity|exact Hdb].
Defined.

(** X14.  When a completing save request succeeds, the validation endpoint
    called on the same game with the same placements returns, without
    writing, a result with the score and the accuracy of the save
    response. *)
Theorem preview_agrees_with_finalize (clock user game_id : Z)
    (data : request_data) (db : DB) (k s : Z) (acc : Q) :
  (api_save_shape_game_state clock user game_id data db).1
  = Ok (Success k s acc) →
  rq_status data = Some "completed" →
  ∃ v, api_validate_shape_placement (Some game_id) (rq_current_state data) db
       = (Ok (Validation v), db)
    ∧ final_score v = s
    ∧ accuracy v = acc.
Proof.
  intros Hres Hstatus.
  pose proof Hres as Hactive.
  apply api_save_shape_game_state_Success in Hres
    as (g & a0 & n & a & Hg & _ & _ & _ & _ & _ & -> & -> & Hfin).
  rewrite bool_decide_eq_true_2 in Hfin by done.
  destruct Hfin as (v & Hv & ->).
  exists v. split; [|done].
  revert Hactive.
  unfold api_save_shape_game_state, api_validate_shape_placement.
  unfold_M. simpl. unfold get_game_or_404. rewrite Hg.
  destruct (game_is_active g); simpl; [|done].
  intros _. by rewrite Hv.
Qed.

(** The theorem at a wrong answer of user 7 to game 1 of Scenario C. *)
Lemma preview_agrees_with_finalize_witness :
  ∃ v, api_validate_shape_placement (Some 1)
         (rq_current_state (finalize_request [place "1,1" 1])) scenario_db
       = (Ok (Validation v), scenario_db)
    ∧ final_score v = 0.
Proof.
  destruct (preview_agrees_with_finalize 30000000 7 1
              (finalize_request [place "1,1" 1]) scenario_db 3 0 0%Q)
    as (v & Hv & Hs & _).
  - vm_compute. reflexivity.
  - reflexivity.
  - exists v. split; [exact Hv|exact Hs].
Defined.

(** ** Resetting progress *)



(** ** Unlocked levels *)

(** [progress_kept] is a preorder. *)
Lemma progress_kept_refl db : progress_kept db db.
Proof. split; [done|]. intros k r Hk. by exists r. Qed.

Lemma progress_kept_trans db1 db2 db3 :
  progress_kept db1 db2 → progress_kept db2 db3 → progress_kept db1 db3.
Proof.
  intros [Hl1 H1] [Hl2 H2]. split; [congruence|]. intros k r Hk.
  destruct (H1 k r Hk) as (r2 & Hk2 & Hu2 & Hlev2 & Hc2).
  destruct (H2 k r2 Hk2) as (r3 & Hk3 & Hu3 & Hlev3 & Hc3).
  exists r3. split_and!; [done|congruence|congruence|auto].
Qed.

(** Writing the progress table row by row: a row is kept when it is
    written back for the same user and level, completed if it was. *)
Lemma progress_kept_write db t :
  (∀ k r, progress db !! k = Some r →
     ∃ r', t !! k = Some r'
       ∧ UserLevelProgress.user r' = UserLevelProgress.user r
       ∧ UserLevelProgress.level r' = UserLevelProgress.level r
       ∧ (UserLevelProgress.is_completed r = true →
          UserLevelProgress.is_completed r' = true)) →
  progress_kept db (set_progress t db).
Proof. intros Hrows. by split. Qed.

Lemma progress_get_or_create_kept user level db :
  progress_kept db (progress_get_or_create user level db).2.
Proof.
  destruct (progress_get_or_create_cases user level db)
    as [(i & _ & ->)|[[_ ->]|[_ ->]]]; simpl;
    [apply progress_kept_refl| |apply progress_kept_refl].
  apply progress_kept_write. intros k r Hk. exists r.
  split; [by apply objects_create_preserves|done].
Qed.

Lemma unlock_next_level_kept self db :
  progress_kept db (unlock_next_level self db).2.
Proof.
  destruct (unlock_next_level_effect self db) as [->|(nl & _ & ->)].
  - apply progress_kept_refl.
  - apply progress_get_or_create_kept.
Qed.

Lemma progress_kept_save db (self : inst UserLevelProgress.t) r :
  progress db !! self.1 = Some r →
  UserLevelProgress.user self.2 = UserLevelProgress.user r →
  UserLevelProgress.level self.2 = UserLevelProgress.level r →
  (UserLevelProgress.is_completed r = true →
   UserLevelProgress.is_completed self.2 = true) →
  progress_kept db (set_progress (<[self.1 := self.2]> (progress db)) db).
Proof.
  intros Hk Hu Hlev Hc. apply progress_kept_write. intros j x Hj.
  destruct (decide (self.1 = j)) as [<-|Hne].
  - rewrite lookup_insert_eq. exists self.2.
    rewrite Hk in Hj. by injection Hj as <-.
  - rewrite lookup_insert_ne by done. by exists x.
Qed.

Lemma check_completion_kept src clock self db :
  progress db !! self.1 = Some self.2 →
  progress_kept db (check_completion src clock self db).2.
Proof.
  intros Hself. unfold check_completion. unfold_M. simpl.
  destruct (fetch _ _ (levels db)) as [lvl|e];
    [|apply progress_kept_refl]. simpl.
  destruct (bool_decide _ && negb _); [|apply progress_kept_refl].
  destruct src; simpl; [|apply progress_kept_refl].
  match goal with
  | |- progress_kept db (match unlock_next_level ?s ?d with _ => _ end).2 =>
      pose proof (unlock_next_level_kept s d) as Hun;
      assert (progress_kept db d) as Hsave;
      [|destruct (unlock_next_level s d) as [[[]|] ?]; simpl in *;
        by eapply progress_kept_trans]
  end.
  by apply (progress_kept_save db (self.1, _) self.2).
Qed.

Lemma complete_attempt_kept src clock self score db :
  progress_kept db (complete_attempt src clock self score db).2.
Proof.
  unfold complete_attempt.
  destruct (negb _); [|apply progress_kept_refl].
  unfold_M. destruct src; simpl; [|apply progress_kept_refl].
  set (db1 := set_puzzle_attempts _ db).
  assert (progress_kept db db1) as H1
    by (split; [done|]; intros j x Hj; by exists x).
  destruct (fetch _ _ (users db)) as [u|e]; simpl; [|done].
  destruct (fetch _ _ (level_puzzles db)) as [lp|e]; simpl; [|done].
  destruct (fetch _ _ (levels db)) as [lvl|e]; simpl; [|done].
  pose proof (progress_get_or_create_kept u.1 lvl.1 db1) as H2.
  destruct (progress_get_or_create u.1 lvl.1 db1) as [[[i created]|e] db2]
    eqn:Hgot; simpl in H2 |- *;
    [|eapply progress_kept_trans; [exact H1|exact H2]].
  apply progress_get_or_create_Ok in Hgot as (Hi & _ & _).
  match goal with
  | |- context [check_completion _ _ ?s ?d] =>
      assert (progress_kept db2 d) as H3;
      [|assert (progress d !! s.1 = Some s.2) as Hsync
          by apply lookup_insert_eq;
        pose proof (check_completion_kept games_models clock s d Hsync)
          as H4;
        destruct (check_completion games_models clock s d) as [[?|?] db4]
      ]
  end.
  - by apply (progress_kept_save db2 (i.1, _) i.2).
  - simpl in H4 |- *.
    eapply progress_kept_trans; [exact H1|].
    eapply progress_kept_trans; [exact H2|].
    eapply progress_kept_trans; [exact H3|].
    eapply progress_kept_trans; [exact H4|].
    split; [done|]. intros j x Hj. by exists x.
  - simpl in H4 |- *.
    eapply progress_kept_trans; [exact H1|].
    eapply progress_kept_trans; [exact H2|].
    eapply progress_kept_trans; [exact H3|exact H4].
Qed.

Lemma run_ops_kept ops db : progress_kept db (run_ops db ops).
Proof.
  revert db. induction ops as [|o ops IH]; intros db; simpl.
  - apply progress_kept_refl.
  - eapply progress_kept_trans; [|apply IH].
    destruct o as [src clock k score|src clock k|k]; simpl.
    + destruct (puzzle_attempts db !! k);
        [apply complete_attempt_kept|apply progress_kept_refl].
    + destruct (progress db !! k) eqn:Hk;
        [by apply check_completion_kept|apply progress_kept_refl].
    + destruct (progress db !! k);
        [apply unlock_next_level_kept|apply progress_kept_refl].
Qed.

(** X16.  A level that is unlocked for a user stays unlocked for that user
    along every sequence of the core operations [complete_attempt],
    [check_completion] and [unlock_next_level]. *)
Theorem level_stays_unlocked (ops : list core_op) (db : DB)
    (self : inst PuzzleLevel.t) (user : Z) :
  (is_unlocked_for_user self user db).1 = Ok true →
  (is_unlocked_for_user self user (run_ops db ops)).1 = Ok true.
Proof.
  destruct (run_ops_kept ops db) as [Hlv Hrows].
  unfold is_unlocked_for_user.
  case_bool_decide; [done|]. case_bool_decide; [done|].
  unfold_M. simpl. rewrite Hlv.
  destruct (objects_get _ _ (levels db)) as [prev|e]; simpl.
  - intros [= (k & r & Hk & Hu & Hl & Hc)%qs_exists_filter].
    f_equal. apply qs_exists_filter.
    destruct (Hrows k r Hk) as (r' & Hk' & Hu' & Hl' & Hc').
    exists k, r'. split_and!; [done|congruence|congruence|auto].
  - by case_bool_decide.
Qed.

(** The theorem at Scenario C after the claim, for level 2 and user 7. *)
Lemma level_stays_unlocked_witness :
  (is_unlocked_for_user (2, PuzzleLevel.mk 2 2 true) 7
     (run_ops claimed_db [op_check_completion games_models 200 1;
                          op_unlock_next_level 1])).1 = Ok true.
Proof.
  apply (level_stays_unlocked
           [op_check_completion games_models 200 1; op_unlock_next_level 1]
           claimed_db (2, PuzzleLevel.mk 2 2 true) 7).
  vm_compute. reflexivity.
Defined.

(** ** Form validation *)

(** A row adds at most its length to the count of question cells. *)
Lemma count_cells_le cells total :
  count_cells cells total ≤ total + Z.of_nat (length cells).
Proof.
  revert total. induction cells as [|cell cells IH]; intros total; simpl.
  - lia.
  - destruct (py_eq cell (JStr "?")); [specialize (IH (total + 1))|
      specialize (IH total)]; lia.
Qed.

Lemma count_cells_shift cells total :
  count_cells cells total = total + count_cells cells 0.
Proof.
  revert total. induction cells as [|cell cells IH]; intros total; simpl.
  - lia.
  - destruct (py_eq cell (JStr "?")).
    + rewrite (IH (total + 1)), (IH (0 + 1)). lia.
    + apply IH.
Qed.

Section grid_form.
Variable json_loads : string → option json.

Lemma check_rows_None grid_size i rows :
  GridTemplateForm.check_rows grid_size i rows = None →
  Forall (λ row, ∃ cells, row = JArr cells
                   ∧ Z.of_nat (length cells) = grid_size) rows.
Proof.
  revert i. induction rows as [|row rows IH]; intros i; simpl; [done|].
  destruct row as [| | | |cells|]; try done.
  case_bool_decide as Hlen; [done|].
  destruct (GridTemplateForm.check_cells i 0 cells); [done|].
  intros Hrest%IH. apply Forall_cons. split; [|done].
  exists cells. split; [done|]. lia.
Qed.

Lemma count_rows_square grid_size rows total n :
  Forall (λ row, ∃ cells, row = JArr cells
                   ∧ Z.of_nat (length cells) = grid_size) rows →
  count_rows rows total = Ok n →
  n ≤ total + Z.of_nat (length rows) * grid_size.
Proof.
  intros Hall. revert total.
  induction Hall as [|row rows (cells & -> & Hlen) _ IH]; intros total; simpl.
  - intros [= <-]. lia.
  - intros Hn%IH. pose proof (count_cells_le cells total). lia.
Qed.

(** X17.  Grid data that is not empty and that [clean_grid_data] accepts is
    an array of [grid_size] rows (9 when the size is missing), each an array
    of [grid_size] cells, and [question_cell_count] finds in it at least one
    question cell and at most [grid_size * grid_size]. *)
Theorem accepted_grid_has_question_cells (data grid : json)
    (grid_size : option Z) :
  GridTemplateForm.clean_grid_data json_loads (Some data) grid_size
  = Cleaned (Some grid) →
  py_truthy data = true →
  ∃ rows count,
    grid = JArr rows
    ∧ Z.of_nat (length rows) = default 9 grid_size
    ∧ Forall (λ row, ∃ cells, row = JArr cells
                       ∧ Z.of_nat (length cells) = default 9 grid_size) rows
    ∧ question_cell_count grid = Ok count
    ∧ 1 ≤ count ≤ default 9 grid_size * default 9 grid_size.
Proof.
  unfold GridTemplateForm.clean_grid_data. cbv zeta.
  intros Hrun Htruthy. rewrite Htruthy in Hrun.
  destruct (match data with JStr text => json_loads text | _ => Some data end)
    as [parsed|]; [|done].
  destruct parsed as [| | | |rows|]; try done.
  case_bool_decide as Hlen; [done|].
  assert (Z.of_nat (length rows) = default 9 grid_size) as Hlen' by lia.
  destruct (GridTemplateForm.check_rows _ 0 rows) eqn:Hrows; [done|].
  apply check_rows_None in Hrows.
  destruct (count_rows rows 0) as [count|] eqn:Hcount; [|done].
  case_bool_decide as Hzero; [done|]. injection Hrun as <-.
  exists rows, count. split_and!; [done|done|done|done| |].
  - apply count_rows_ge in Hcount. lia.
  - apply (count_rows_square _ _ _ _ Hrows) in Hcount. nia.
Qed.

End grid_form.

(** The theorem at the 3x3 grid of the Scenario A game. *)
Lemma accepted_grid_has_question_cells_witness :
  ∃ rows count,
    grid_data scenario_game = JArr rows
    ∧ Z.of_nat (length rows) = 3
    ∧ question_cell_count (grid_data scenario_game) = Ok count
    ∧ 1 ≤ count ≤ 3 * 3.
Proof.
  destruct (accepted_grid_has_question_cells (λ _, None)
              (grid_data scenario_game) (grid_data scenario_game) (Some 3))
    as (rows & count & Hg & Hlen & _ & Hq & Hc).
  - vm_compute. reflexivity.
  - reflexivity.
  - exists rows, count. split; [exact Hg|]. split; [exact Hlen|].
    split; [exact Hq|exact Hc].
Defined.

(** A key found in an object is one of its entries. *)
Lemma assoc_Some_elem_of key o v : assoc key o = Some v → (key, v) ∈ o.
Proof.
  induction o as [|[k w] o IH]; simpl; [done|].
  case_decide as Hk.
  - intros [= ->]. subst. apply list_elem_of_here.
  - intros H%IH. by apply list_elem_of_further.
Qed.

Lemma py_eq_number_refl v n : py_eq v (JNum n) = true → py_eq v v = true.
Proof.
  destruct v; simpl; try done; intros _; by apply bool_decide_eq_true_2.
Qed.

Lemma check_shapes_None shape_ids items key v :
  ShapeGameForm.check_shapes shape_ids items = None →
  (key, v) ∈ items → py_in v shape_ids = true.
Proof.
  induction items as [|[k w] items IH]; simpl.
  - intros _ Hin. by apply elem_of_nil in Hin.
  - destruct (py_in w shape_ids) eqn:Hw; simpl; [|done].
    intros Hrest [[= -> ->]|Hin]%elem_of_cons; [done|by apply IH].
Qed.

Lemma row_question_cells_length i j cells :
  Z.of_nat (length (ShapeGameForm.row_question_cells i j cells))
  = count_cells cells 0.
Proof.
  revert j. induction cells as [|cell cells IH]; intros j; simpl; [done|].
  rewrite length_app, Nat2Z.inj_add, IH.
  destruct (py_eq cell (JStr "?")); simpl.
  - rewrite (count_cells_shift cells (0 + 1)). lia.
  - lia.
Qed.

Lemma question_cells_length i rows cells total :
  ShapeGameForm.question_cells i rows = Ok cells →
  count_rows rows total = Ok (total + Z.of_nat (length cells)).
Proof.
  revert i cells total.
  induction rows as [|row rows IH]; intros i cells total; simpl.
  - intros [= <-]. simpl. f_equal. lia.
  - destruct (py_iter row) as [row_cells|]; simpl; [|done].
    destruct (ShapeGameForm.question_cells (S i) rows) as [rest|] eqn:Hrest;
      simpl; [|done].
    intros [= <-]. rewrite (IH _ _ _ Hrest).
    rewrite length_app, Nat2Z.inj_add, row_question_cells_length.
    rewrite (count_cells_shift row_cells total). f_equal. lia.
Qed.

Lemma round2_full (n : Z) :
  0 < n → round2 (inject_Z n / inject_Z n * inject_Z 100) = 100%Q.
Proof.
  intros Hn. destruct n as [|p|p]; [lia| |lia].
  unfold round2.
  assert (round_half_even
            (inject_Z (Z.pos p) / inject_Z (Z.pos p) * inject_Z 100
             * inject_Z 100) = 10000) as ->; [|reflexivity].
  pose proof (round_half_even_bounds
    (inject_Z (Z.pos p) / inject_Z (Z.pos p) * inject_Z 100 * inject_Z 100)
    10000 10000) as Hb.
  assert (10000 ≤ round_half_even
            (inject_Z (Z.pos p) / inject_Z (Z.pos p) * inject_Z 100
             * inject_Z 100) ≤ 10000); [|lia].
  apply Hb; unfold Qle, Qdiv, Qmult, Qinv; simpl; lia.
Qed.

Section solution_form.
Variable json_loads : string → option json.

(** X18.  For a game whose solution, a non-empty object, passed
    [clean_solution_data] and [clean] of the game form with the game's grid
    and a non-empty choice of shapes: placing at every question cell the
    shape the solution gives it is validated without error, with every
    question cell counted correct, none incorrect, complete and perfect, and
    with accuracy 100 when the grid has a question cell. *)
Theorem intended_solution_is_perfect (game : ShapeGame)
    (o : list (string * json)) (shapes : list Z) :
  solution_data game = JObj o →
  o ≠ [] →
  shapes ≠ [] →
  ShapeGameForm.clean_solution_data json_loads (Some (JObj o))
    (Some (grid_data game)) = Cleaned (Some (JObj o)) →
  ShapeGameForm.clean json_loads (Some (grid_data game)) (Some shapes)
    (Some (JObj o)) = Ok (Cleaned tt) →
  ∃ rows cells r,
    py_iter (grid_data game) = Ok rows
    ∧ ShapeGameForm.question_cells 0 rows = Ok cells
    ∧ validate_shape_placement game (solved_placements o cells) = Ok r
    ∧ error r = None
    ∧ total_questions r = Z.of_nat (length cells)
    ∧ correct_count r = total_questions r
    ∧ incorrect_count r = 0
    ∧ is_complete r = true
    ∧ is_perfect r = true
    ∧ (cells ≠ [] → accuracy r = 100%Q).
Proof.
  intros Hsol Ho Hshapes Hclean_solution Hclean.
  unfold ShapeGameForm.clean_solution_data in Hclean_solution.
  unfold ShapeGameForm.clean in Hclean. simpl in Hclean_solution, Hclean.
  rewrite !bool_decide_eq_true_2 in Hclean by done.
  rewrite bool_decide_eq_true_2 in Hclean_solution by done.
  simpl in Hclean.
  destruct (py_iter (grid_data game)) as [rows|] eqn:Hrows; [|done].
  simpl in Hclean_solution.
  destruct (ShapeGameForm.question_cells 0 rows) as [cells|] eqn:Hcells;
    [|done].
  case_bool_decide as Hmissing; [done|]. clear Hclean_solution.
  assert (filter (λ cell, assoc cell o = None) cells = []) as Hnone
    by by destruct (filter _ cells).
  destruct (ShapeGameForm.check_shapes (map JNum shapes) o) eqn:Hcheck;
    [done|]. clear Hclean.
  assert (∀ cell, cell ∈ cells →
            ∃ v, assoc cell o = Some v ∧ py_eq v v = true) as Hvalues.
  { intros cell Hin.
    destruct (assoc cell o) as [v|] eqn:Hv.
    - exists v. split; [done|].
      apply assoc_Some_elem_of in Hv.
      pose proof (check_shapes_None _ _ _ _ Hcheck Hv) as Hid.
      unfold py_in in Hid. apply existsb_exists in Hid as (x & Hx & Heq).
      apply list_elem_of_In, list_elem_of_fmap in Hx as (n & -> & _).
      by eapply py_eq_number_refl.
    - assert (cell ∈ filter (λ cell, assoc cell o = None) cells) as Hf
        by by apply list_elem_of_filter.
      rewrite Hnone in Hf. by apply elem_of_nil in Hf. }
  assert (∀ item, item ∈ map (λ cell,
            (cell, JObj [("shapeId", default JNull (assoc cell o))])) cells →
            item_correct (solution_data game) item = true
            ∧ is_object item.2 = true) as Hitems.
  { intros item (cell & -> & Hin)%list_elem_of_fmap.
    destruct (Hvalues cell Hin) as (v & Hv & Hrefl).
    unfold item_correct. rewrite Hsol. simpl. by rewrite Hv. }
  pose proof (question_cells_length 0 rows cells 0 Hcells) as Hcount.
  assert (well_formed game (solved_placements o cells) = true) as Hwf.
  { unfold well_formed, solved_placements. rewrite Hrows.
    rewrite Hsol. simpl. rewrite andb_true_r.
    apply andb_true_iff. split.
    - apply count_rows_Ok with (total := 0). by eexists.
    - apply forallb_forall. intros item Hin%list_elem_of_In.
      by apply Hitems. }
  apply validate_try_Ok_iff in Hwf as [r Hrun].
  assert (validate_shape_placement game (solved_placements o cells) = Ok r)
    as Hv by (unfold validate_shape_placement; by rewrite Hrun).
  assert (error r = None) as Herr
    by by apply validate_try_Ok in Hrun as (items & _ & -> & _).
  destruct (validate_shape_placement_Ok _ _ _ Hv Herr)
    as (items & [= <-] & Hq & _ & Hc & Hi & _ & Hacc & Hcomp & Hperf).
  unfold question_cell_count in Hq. rewrite Hrows in Hq. simpl in Hq.
  rewrite Hcount in Hq. injection Hq as Hq. simpl in Hq.
  pose proof (filter_partition_length
    (item_correct (solution_data game))
    (map (λ cell, (cell, JObj [("shapeId", default JNull (assoc cell o))]))
       cells)) as Hsum.
  assert (filter (λ i, item_correct (solution_data game) i = false)
            (map (λ cell,
               (cell, JObj [("shapeId", default JNull (assoc cell o))]))
               cells) = []) as Hwrong.
  { match goal with
    | |- ?f = [] => destruct f as [|item l] eqn:E; [done|]
    end.
    assert (item ∈ item :: l) as Hin by apply list_elem_of_here.
    rewrite <- E in Hin. apply list_elem_of_filter in Hin as [Hfalse Hin].
    destruct (Hitems item Hin) as [Htrue _]. congruence. }
  rewrite Hwrong in Hi, Hsum. simpl in Hi, Hsum.
  rewrite length_map in Hsum.
  exists rows, cells, r. split_and!; [done|done|done|done|lia|lia|done| | |].
  - rewrite Hcomp. apply bool_decide_eq_true_2. rewrite length_map. lia.
  - rewrite Hperf, Hi. simpl. apply bool_decide_eq_true_2.
    rewrite length_map. lia.
  - intros Hne. rewrite Hacc.
    assert (0 < total_questions r) as Hpos.
    { rewrite <- Hq. destruct cells; [done|]. simpl. lia. }
    rewrite bool_decide_eq_true_2 by done.
    replace (correct_count r) with (total_questions r) by lia.
    by apply round2_full.
Qed.

End solution_form.

(** The theorem at the Scenario A game. *)
Lemma intended_solution_is_perfect_witness :
  ∃ r, validate_shape_placement scenario_game
         (solved_placements [("1,1", JNum 3)] ["1,1"]) = Ok r
    ∧ is_perfect r = true
    ∧ accuracy r = 100%Q.
Proof.
  destruct (intended_solution_is_perfect (λ _, None) scenario_game
              [("1,1", JNum 3)] [1; 2; 3])
    as (rows & cells & r & Hrows & Hcells & Hv & _ & _ & _ & _ & _ & Hperf
        & Hacc).
  - reflexivity.
  - discriminate.
  - discriminate.
  - vm_compute. reflexivity.
  - vm_compute. reflexivity.
  - vm_compute in Hrows. injection Hrows as <-.
    vm_compute in Hcells. injection Hcells as <-.
    exists r. split; [exact Hv|]. split; [exact Hperf|].
    apply Hacc. discriminate.
Defined.

(** ** Saving a Sudoku session, and access checks *)




(** X20.  The admin checks agree: [user_can_access_admin_features],
    [user_can_manage_shapes], [user_can_create_games] and [is_game_admin] of
    the views return the same value for every user, anonymous or not;
    [admin_required] runs the view exactly when they return [True], and
    redirects to the login page exactly for an anonymous user. *)
Theorem admin_checks_agree (user : request_user) :
  user_can_access_admin_features user = views_is_game_admin user
  ∧ user_can_manage_shapes user = user_can_access_admin_features user
  ∧ user_can_create_games user = user_can_access_admin_features user
  ∧ (admin_required user = RunView
     ↔ user_can_access_admin_features user = true)
  ∧ (admin_required user = RedirectToLogin ↔ is_authenticated user = false).
Proof.
  destruct user as [|[role staff super]];
    unfold user_can_manage_shapes, user_can_create_games,
      user_can_access_admin_features, views_is_game_admin, admin_required,
      Account.is_game_admin; simpl.
  - split_and!; first [done|split; done].
  - unfold Account.is_game_admin. simpl.
    destruct (bool_decide (role = "admin")), staff, super; simpl;
      split_and!; first [done|split; done].
Qed.

(** X21.  [role_required('admin')] lets through only users that
    [admin_required] lets through; the users that [admin_required] lets
    through and [role_required('admin')] sends to the dashboard are the
    staff users that are neither superuser nor of role admin. *)
Theorem role_required_admin_is_stricter (user : request_user) :
  (role_required (inl "admin") user = RunView →
   admin_required user = RunView)
  ∧ (admin_required user = RunView →
     role_required (inl "admin") user = RunView
     ∨ ∃ u, user = Authenticated u
         ∧ Account.is_staff u = true
         ∧ Account.is_superuser u = false
         ∧ Account.role u ≠ "admin"
         ∧ role_required (inl "admin") user = RedirectToDashboard).
Proof.
  destruct user as [|[role staff super]];
    unfold role_required, admin_required, Account.is_game_admin; simpl.
  - split; done.
  - destruct (decide (role = "admin")) as [->|Hrole].
    + rewrite bool_decide_eq_false_2
        by (intros Hn; apply Hn, list_elem_of_here).
      simpl. split; [done|]. intros _. by left.
    + rewrite (bool_decide_eq_true_2 (role ∉ ["admin"]))
        by (by intros ->%list_elem_of_singleton).
      rewrite (bool_decide_eq_false_2 (role = "admin")) by done.
      destruct staff, super; simpl; split; try done; try (intros _; by left).
      intros _. right. eexists. split_and!; done.
Qed.

(** ** Opening a game and a level *)

(** The attempt [attempt_get_or_create] returns is the only one of the
    user and the game that is in progress, and the table keeps at most one
    such attempt per user and game. *)
Lemma attempt_get_or_create_unique clock user game db :
  unique_in_progress db →
  ∃ i created db',
    attempt_get_or_create clock user game db = (Ok (i, created), db')
    ∧ unique_in_progress db'
    ∧ shape_attempts db' !! i.1 = Some i.2
    ∧ ShapeGameAttempt.user i.2 = user
    ∧ ShapeGameAttempt.shape_game i.2 = game
    ∧ ShapeGameAttempt.status i.2 = IN_PROGRESS
    ∧ shape_games db' = shape_games db.
Proof.
  intros Huniq.
  destruct (objects_get_at_most_one
              (λ r, ShapeGameAttempt.user r = user
                    ∧ ShapeGameAttempt.shape_game r = game
                    ∧ ShapeGameAttempt.status r = IN_PROGRESS)
              ShapeGameAttempt_model (shape_attempts db))
    as [(k & r & Hk & (Hu & Hg & Hs) & Hget)|[Hnone Hget]].
  { intros k1 k2 r1 r2 H1 H2 (Hu1 & Hg1 & Hs1) (Hu2 & Hg2 & Hs2).
    eapply (Huniq k1 r1 H1 k2 r2 H2); congruence. }
  - exists (k, r), false, db.
    destruct (attempt_get_or_create_cases clock user game db)
      as [(j & Hq & Hrun)|[[Hq Hrun]|[Hq Hrun]]]; simpl in Hq;
      rewrite Hget in Hq; [|done..].
    injection Hq as <-. by split_and!.
  - destruct (attempt_get_or_create_cases clock user game db)
      as [(j & Hq & Hrun)|[[Hq Hrun]|[Hq Hrun]]]; simpl in Hq;
      rewrite Hget in Hq; [done| |done].
    eexists _, true, _. split; [exact Hrun|]. simpl.
    split_and!; [|apply lookup_insert_eq|done..].
    intros k1 r1 H1 k2 r2 H2 Eu Eg Es1 Es2. simpl in H1, H2.
    rewrite lookup_insert in H1, H2.
    pose proof (next_pk_fresh (shape_attempts db)) as Hfresh.
    destruct (decide (next_pk (shape_attempts db) = k1)) as [<-|N1],
      (decide (next_pk (shape_attempts db) = k2)) as [<-|N2]; [done| | |].
    + injection H1 as <-. simpl in Eu, Eg. by destruct (Hnone k2 r2 H2).
    + injection H2 as <-. simpl in Eu, Eg. by destruct (Hnone k1 r1 H1).
    + by eapply (Huniq k1 r1 H1 k2 r2 H2).
Qed.

Lemma unique_in_progress_save db k (r r' : ShapeGameAttempt.t) :
  unique_in_progress db →
  shape_attempts db !! k = Some r →
  ShapeGameAttempt.user r' = ShapeGameAttempt.user r →
  ShapeGameAttempt.shape_game r' = ShapeGameAttempt.shape_game r →
  ShapeGameAttempt.status r = IN_PROGRESS →
  unique_in_progress
    (set_shape_attempts (<[k := r']> (shape_attempts db)) db).
Proof.
  intros Huniq Hk Hu Hg Hs k1 r1 H1 k2 r2 H2 Eu Eg Es1 Es2. simpl in H1, H2.
  rewrite lookup_insert in H1, H2.
  destruct (decide (k = k1)) as [<-|N1], (decide (k = k2)) as [<-|N2];
    [done| | |by eapply (Huniq k1 r1 H1 k2 r2 H2)].
  - injection H1 as <-. eapply (Huniq k r Hk k2 r2 H2); congruence.
  - injection H2 as <-. eapply (Huniq k1 r1 H1 k r Hk); congruence.
Qed.

(** X22.  In a database with at most one attempt in progress per user and
    game, a save request that succeeds after the user opened the game
    writes the attempt the play view returned: it creates no attempt, and
    it leaves at most one attempt in progress per user and game. *)
Theorem save_writes_to_opened_attempt (clock clock' user game_id : Z)
    (data : request_data) (db db1 : DB) (attempt : inst ShapeGameAttempt.t)
    (k s : Z) (acc : Q) :
  unique_in_progress db →
  play_shape_game_view clock user game_id db = (Ok attempt, db1) →
  let res := api_save_shape_game_state clock' user game_id data db1 in
  res.1 = Ok (Success k s acc) →
  k = attempt.1
  ∧ (∀ j, is_Some (shape_attempts res.2 !! j)
          ↔ is_Some (shape_attempts db1 !! j))
  ∧ unique_in_progress res.2.
Proof.
  intros Huniq Hplay. cbv zeta.
  revert Hplay. unfold play_shape_game_view, api_save_shape_game_state.
  unfold_M. simpl. unfold get_game_or_404.
  destruct (shape_games db !! game_id) as [g|] eqn:Hg; simpl; [|done].
  destruct (game_is_active g) eqn:Hactive; simpl; [|done].
  destruct (attempt_get_or_create_unique clock user game_id db Huniq)
    as (i & created & db' & -> & Huniq1 & Hi & Hu & Hgm & Hs & Hsg).
  simpl. intros [= <- <-]. rewrite Hsg, Hg. simpl. rewrite Hactive. simpl.
  assert (attempt_get_or_create clock' user game_id db'
          = (Ok (i, false), db')) as ->.
  { destruct (attempt_get_or_create_cases clock' user game_id db')
      as [(j & Hq & Hrun)|[[Hq Hrun]|[Hq Hrun]]]; simpl in Hq;
      rewrite (objects_get_unique _ _ _ i.1 i.2) in Hq; try done.
    - injection Hq as <-. by destruct i.
    - intros k' r' Hk' (Hu' & Hg' & Hs').
      eapply (Huniq1 k' r' Hk' i.1 i.2 Hi); congruence.
    - intros k' r' Hk' (Hu' & Hg' & Hs').
      eapply (Huniq1 k' r' Hk' i.1 i.2 Hi); congruence.
    - intros k' r' Hk' (Hu' & Hg' & Hs').
      eapply (Huniq1 k' r' Hk' i.1 i.2 Hi); congruence. }
  simpl. destruct (py_len _) as [n|e]; simpl; [|done].
  assert (∀ x, ∀ j,
    is_Some (<[i.1 := x]> (shape_attempts db') !! j)
    ↔ is_Some (shape_attempts db' !! j)) as Hdom.
  { intros x j. destruct (decide (i.1 = j)) as [<-|Hne].
    - rewrite lookup_insert_eq, Hi. split; by eexists.
    - by rewrite lookup_insert_ne. }
  case_bool_decide; simpl.
  - destruct (validate_shape_placement_total g
                (default (JObj []) (rq_current_state data))) as [v ->].
    simpl. intros [= <- _ _]. split_and!; [done|apply Hdom|].
    by apply (unique_in_progress_save db' i.1 i.2).
  - intros [= <- _ _]. split_and!; [done|apply Hdom|].
    by apply (unique_in_progress_save db' i.1 i.2).
Qed.

(** The theorem at Scenario C: user 7 opens game 1 again and solves it. *)
Lemma save_writes_to_opened_attempt_witness :
  let opened := play_shape_game_view 100 7 1 scenario_db in
  let res := api_save_shape_game_state 200 7 1
               (finalize_request [place "1,1" 3]) opened.2 in
  opened.1 = Ok (3, new_attempt 100 7 1)
  ∧ res.1 = Ok (Success 3 50 100%Q)
  ∧ unique_in_progress res.2.
Proof.
  cbv zeta. split; [vm_compute; reflexivity|].
  split; [vm_compute; reflexivity|].
  destruct (save_writes_to_opened_attempt 100 200 7 1
              (finalize_request [place "1,1" 3]) scenario_db
              (play_shape_game_view 100 7 1 scenario_db).2
              (3, new_attempt 100 7 1) 3 50 100%Q) as (_ & _ & Huniq).
  - apply (bool_decide_unpack _). vm_compute. exact I.
  - vm_compute. reflexivity.
  - vm_compute. reflexivity.
  - exact Huniq.
Defined.

(** [get_or_create] keeps one progress row per user and level. *)
Lemma progress_get_or_create_unique user level db :
  unique_user_level db →
  unique_user_level (progress_get_or_create user level db).2.
Proof.
  intros Huniq.
  destruct (progress_get_or_create_cases user level db)
    as [(i & _ & ->)|[[Hq ->]|[_ ->]]]; [done| |done].
  apply objects_get_DoesNotExist in Hq as [_ Hnone].
  intros k1 r1 H1 k2 r2 H2 Eu El. simpl in H1, H2.
  rewrite lookup_insert in H1, H2.
  destruct (decide (next_pk (progress db) = k1)) as [<-|N1],
    (decide (next_pk (progress db) = k2)) as [<-|N2]; [done| | |].
  - injection H1 as <-. simpl in Eu, El. by destruct (Hnone k2 r2 H2).
  - injection H2 as <-. simpl in Eu, El. by destruct (Hnone k1 r1 H1).
  - by eapply (Huniq k1 r1 H1 k2 r2 H2).
Qed.

Lemma progress_get_or_create_preserves user level db k r :
  progress db !! k = Some r →
  progress (progress_get_or_create user level db).2 !! k = Some r.
Proof.
  intros Hk.
  destruct (progress_get_or_create_cases user level db)
    as [(i & _ & ->)|[[_ ->]|[_ ->]]]; [done| |done].
  simpl. by apply objects_create_preserves.
Qed.

(** X23.  The level page keeps every progress row and the uniqueness of
    rows per user and level.  It writes nothing when it redirects, and it
    shows the page, with the progress row of the user for the level, only
    for an active level that is unlocked for the user: opening a locked
    level creates no progress row. *)
Theorem locked_level_gets_no_progress_row (user level_id : Z) (db : DB) :
  unique_user_level db →
  let res := level_detail_view user level_id db in
  unique_user_level res.2
  ∧ (∀ k r, progress db !! k = Some r → progress res.2 !! k = Some r)
  ∧ (res.1 = Ok DetailRedirect → res.2 = db)
  ∧ (∀ p, res.1 = Ok (DetailPage p) →
       progress res.2 !! p.1 = Some p.2
       ∧ UserLevelProgress.user p.2 = user
       ∧ UserLevelProgress.level p.2 = level_id
       ∧ ∃ level, levels db !! level_id = Some level
           ∧ PuzzleLevel.is_active level = true
           ∧ is_unlocked_for_user (level_id, level) user db
             = (Ok true, db)).
Proof.
  intros Huniq. cbv zeta. unfold level_detail_view. unfold_M. simpl.
  destruct (get_object_or_404 _ level_id (levels db)) as [level|e] eqn:Hl;
    simpl; [|by split_and!].
  apply get_object_or_404_Ok in Hl as (Hid & Hlevel & Hactive).
  assert ((is_unlocked_for_user level user db).2 = db) as Hsame.
  { unfold is_unlocked_for_user. repeat case_bool_decide; [done..|].
    unfold_M. simpl.
    destruct (objects_get _ _ (levels db)) as [prev|e]; simpl; [done|].
    by case_bool_decide. }
  destruct (is_unlocked_for_user level user db) as [[unlocked|e] db1]
    eqn:Hunlocked; simpl in Hsame; subst db1; simpl; [|by split_and!].
  destruct unlocked; simpl; [|by split_and!].
  pose proof (progress_get_or_create_unique user level.1 db Huniq) as Hu.
  pose proof (progress_get_or_create_preserves user level.1 db) as Hkeep.
  destruct (progress_get_or_create user level.1 db) as [[[i created]|e] db2]
    eqn:Hgot; simpl in Hu, Hkeep |- *; [|by split_and!].
  apply progress_get_or_create_Ok in Hgot as (Hi & Hiu & Hil).
  split_and!; [done|done|done|].
  intros p [= <-]. split_and!; [done|done|congruence|].
  exists level.2. split_and!; [done|done|].
  rewrite <- Hid. by destruct level.
Qed.

(** The theorem at Scenario C: level 2 redirects before the claim and
    shows the row of user 7 after it. *)
Lemma locked_level_gets_no_progress_row_witness :
  level_detail_view 7 2 scenario_db = (Ok DetailRedirect, scenario_db)
  ∧ ∃ p, (level_detail_view 7 2 claimed_db).1 = Ok (DetailPage p)
      ∧ UserLevelProgress.level p.2 = 2.
Proof.
  destruct (locked_level_gets_no_progress_row 7 2 scenario_db)
    as (_ & _ & Hlocked & _);
    [apply (bool_decide_unpack _); vm_compute; exact I|].
  destruct (locked_level_gets_no_progress_row 7 2 claimed_db)
    as (_ & _ & _ & Hpage);
    [apply (bool_decide_unpack _); vm_compute; exact I|].
  split.
  - apply injective_projections; [vm_compute; reflexivity|].
    apply Hlocked. vm_compute. reflexivity.
  - eexists. split; [vm_compute; reflexivity|].
    eapply Hpage. vm_compute. reflexivity.
Defined.

(** ** Win rate *)

(** The only rows of [players] a save request writes: none, or the one of
    the session's user with both counters incremented. *)
Lemma api_save_game_state_players clock request_user session_id new_state
    is_completed db :
  let res := api_save_game_state clock request_user session_id new_state
               is_completed db in
  players res.2 = players db
  ∨ ∃ u p score,
      players db !! u = Some p
      ∧ players res.2
        = <[u := {| Player.total_score := Player.total_score p + score;
                    Player.games_played := Player.games_played p + 1;
                    Player.games_won := Player.games_won p + 1 |}]>
            (players db).
Proof.
  cbv zeta. unfold api_save_game_state.
  destruct (sessions db !! session_id) as [row|]; [|by left].
  case_bool_decide; [|by left].
  destruct (py_truthy (default (JBool false) is_completed)); [|by left].
  destruct (py_truthy (default JNull new_state)); simpl.
  - destruct (puzzle_difficulty db !! _) as [difficulty|]; [|by left].
    destruct (players db !! _) as [p|] eqn:Hp; [|by left].
    destruct (check_achievements _ _); right; by eexists _, _, _.
  - destruct (puzzle_difficulty db !! _) as [difficulty|]; [|by left].
    destruct (players db !! _) as [p|] eqn:Hp; [|by left].
    destruct (check_achievements _ _); right; by eexists _, _, _.
Qed.

(** X24.  [api_save_game_state] changes [games_played] and [games_won] only
    by adding one to both: whatever the request, when every user has won as
    many games as played before it, so has every user after it, and the
    [win_rate] of every user is 0 or 100. *)
Theorem win_rate_is_all_or_nothing (clock request_user session_id : Z)
    (new_state is_completed : option json) (db : SudokuDB) :
  (∀ u p, players db !! u = Some p →
     Player.games_won p = Player.games_played p
     ∧ 0 ≤ Player.games_played p) →
  let res := api_save_game_state clock request_user session_id new_state
               is_completed db in
  ∀ u p, players res.2 !! u = Some p →
    Player.games_won p = Player.games_played p
    ∧ 0 ≤ Player.games_played p
    ∧ (win_rate p = 0%Q ∨ win_rate p = 100%Q).
Proof.
  intros Hinv. cbv zeta.
  assert (∀ p, Player.games_won p = Player.games_played p →
               0 ≤ Player.games_played p →
               win_rate p = 0%Q ∨ win_rate p = 100%Q) as Hrate.
  { intros p Hwon Hplayed. unfold win_rate. case_bool_decide; [by left|].
    right. rewrite Hwon. apply round2_full. lia. }
  intros u p Hp.
  destruct (api_save_game_state_players clock request_user session_id
              new_state is_completed db) as [Hsame|(v & q & s & Hq & Hnew)].
  - rewrite Hsame in Hp. destruct (Hinv u p Hp). split_and!; auto.
  - rewrite Hnew in Hp. destruct (decide (v = u)) as [->|Hne].
    + rewrite lookup_insert_eq in Hp. injection Hp as <-.
      destruct (Hinv u q Hq) as [Hwon Hplayed].
      split_and!; [simpl; lia|simpl; lia|].
      apply Hrate; simpl; lia.
    + rewrite lookup_insert_ne in Hp by done.
      destruct (Hinv u p Hp). split_and!; auto.
Qed.

(** The theorem at the first easy session user 7 completes. *)
Lemma win_rate_is_all_or_nothing_witness :
  let db := {| sessions :=
                 {[ 1 := GameSession.mk 7 4 JNull IN_PROGRESS 0 None 0 0 0 ]};
               puzzle_difficulty := {[ 4 := "easy" ]};
               players := {[ 7 := Player.mk 0 0 0 ]} |} in
  let res := api_save_game_state 1200000000 7 1 None (Some (JBool true)) db in
  players res.2 !! 7 = Some (Player.mk 180 1 1)
  ∧ win_rate (Player.mk 180 1 1) = 100%Q.
Proof.
  cbv zeta. split; [vm_compute; reflexivity|].
  destruct (win_rate_is_all_or_nothing 1200000000 7 1 None
              (Some (JBool true))
              {| sessions :=
                   {[ 1 := GameSession.mk 7 4 JNull IN_PROGRESS 0 None 0 0 0 ]};
                 puzzle_difficulty := {[ 4 := "easy" ]};
                 players := {[ 7 := Player.mk 0 0 0 ]} |})
    with (u := 7) (p := Player.mk 180 1 1) as (_ & _ & [Hzero|Hfull]).
  - intros u p Hp. cbn [players] in Hp.
    apply lookup_singleton_Some in Hp as [_ <-]. simpl. lia.
  - vm_compute. reflexivity.
  - vm_compute in Hzero. discriminate.
  - exact Hfull.
Defined.
